(** * vibebase-social: the persistence operations and the request handlers

    A shallow embedding of [server/storage.ts] (class [DatabaseStorage]) and
    of the route registration file (the handlers of [registerRoutes]).

    - The relational store is a record of tables; a table is the list of its
      rows in insertion order, so duplicates and order are visible.
    - An [async] operation is a computation in a state-and-exception monad
      over the store: [await] is [bind], a rejected promise is [Throw],
      [try { .. } catch] is [try_catch].
    - Timestamps are integers (milliseconds since the epoch); an operation
      that reads the clock ([new Date()], [Date.now()], SQL [NOW()], a
      [defaultNow()] column) takes the current time [now] as an argument.
*)

From Stdlib Require Import ZArith List String Ascii Bool Lia.
From Stdlib Require Import Sorting.Permutation Sorting.Sorted.
From Stdlib Require DecimalString DecimalZ.
Import ListNotations.

Local Open Scope Z_scope.

(** ** The relational schema *)

(** Modelled from the spec: the table declarations of [@shared/schema]
    (imported by both source files, not part of them).  The columns are the
    attributes the specification lists for each entity, under the names the
    source files use for them. *)

Module User.
Record t := mk {
  id : string;
  username : option string;
  bio : option string;
  isAdmin : option bool;
  isVerified : option bool;
  isBanned : option bool;
  bannedReason : option string;
  createdAt : Z;
  updatedAt : Z
}.
End User.

(** [Partial<User>]: every column may be left out ([None]); a column that is
    present carries the new value, which for a nullable column may be null. *)
Module PartialUser.
Record t := mk {
  id : option string;
  username : option (option string);
  bio : option (option string);
  isAdmin : option (option bool);
  isVerified : option (option bool);
  isBanned : option (option bool);
  bannedReason : option (option string);
  createdAt : option Z;
  updatedAt : option Z
}.

Definition empty : t := mk None None None None None None None None None.
End PartialUser.

(** [UpsertUser]: the key is required, every other column is optional. *)
Module UpsertUser.
Record t := mk { id : string; data : PartialUser.t }.
End UpsertUser.

Module Post.
Record t := mk {
  id : Z;
  userId : string;
  caption : string;
  imageUrl : string;
  location : option string;
  createdAt : Z
}.
End Post.

Module InsertPost.
Record t := mk {
  userId : string;
  caption : string;
  imageUrl : string;
  location : option string
}.
End InsertPost.

Module Like.
Record t := mk { userId : string; postId : Z }.
End Like.

Module Comment.
Record t := mk {
  id : Z;
  postId : Z;
  userId : string;
  text : string;
  createdAt : Z
}.
End Comment.

Module InsertComment.
Record t := mk { postId : Z; userId : string; text : string }.
End InsertComment.

Module Follow.
Record t := mk { followerId : string; followingId : string }.
End Follow.

Module Story.
Record t := mk {
  id : Z;
  userId : string;
  mediaUrl : string;
  createdAt : Z;
  expiresAt : Z
}.
End Story.

Module InsertStory.
Record t := mk { userId : string; mediaUrl : string }.
End InsertStory.

(** ** The store *)

(** One list per table, and the next value of each serial key. *)
Record Store := mkStore {
  users : list User.t;
  posts : list Post.t;
  likes : list Like.t;
  comments : list Comment.t;
  follows : list Follow.t;
  stories : list Story.t;
  posts_id_seq : Z;
  comments_id_seq : Z;
  stories_id_seq : Z
}.

Definition empty_store : Store := mkStore [] [] [] [] [] [] 1 1 1.

Definition set_users (f : list User.t -> list User.t) (s : Store) : Store :=
  mkStore (f (users s)) (posts s) (likes s) (comments s) (follows s)
          (stories s) (posts_id_seq s) (comments_id_seq s) (stories_id_seq s).

Definition set_posts (f : list Post.t -> list Post.t) (s : Store) : Store :=
  mkStore (users s) (f (posts s)) (likes s) (comments s) (follows s)
          (stories s) (posts_id_seq s) (comments_id_seq s) (stories_id_seq s).

Definition set_likes (f : list Like.t -> list Like.t) (s : Store) : Store :=
  mkStore (users s) (posts s) (f (likes s)) (comments s) (follows s)
          (stories s) (posts_id_seq s) (comments_id_seq s) (stories_id_seq s).

Definition set_comments (f : list Comment.t -> list Comment.t) (s : Store) : Store :=
  mkStore (users s) (posts s) (likes s) (f (comments s)) (follows s)
          (stories s) (posts_id_seq s) (comments_id_seq s) (stories_id_seq s).

Definition set_follows (f : list Follow.t -> list Follow.t) (s : Store) : Store :=
  mkStore (users s) (posts s) (likes s) (comments s) (f (follows s))
          (stories s) (posts_id_seq s) (comments_id_seq s) (stories_id_seq s).

Definition set_stories (f : list Story.t -> list Story.t) (s : Store) : Store :=
  mkStore (users s) (posts s) (likes s) (comments s) (follows s)
          (f (stories s)) (posts_id_seq s) (comments_id_seq s) (stories_id_seq s).

Definition bump_posts_id_seq (s : Store) : Store :=
  mkStore (users s) (posts s) (likes s) (comments s) (follows s)
          (stories s) (posts_id_seq s + 1) (comments_id_seq s) (stories_id_seq s).

Definition bump_comments_id_seq (s : Store) : Store :=
  mkStore (users s) (posts s) (likes s) (comments s) (follows s)
          (stories s) (posts_id_seq s) (comments_id_seq s + 1) (stories_id_seq s).

Definition bump_stories_id_seq (s : Store) : Store :=
  mkStore (users s) (posts s) (likes s) (comments s) (follows s)
          (stories s) (posts_id_seq s) (comments_id_seq s) (stories_id_seq s + 1).

(** ** Asynchronous operations: state and exceptions *)

Inductive Error :=
| SqlError (msg : string)      (* the database rejects a statement *)
| ZodError (msg : string)      (* a schema's [parse] rejects its input *)
| TypeError (msg : string)     (* a property of [undefined] is read *)
| StoreFailure (msg : string). (* the store cannot be reached *)

Inductive Res (A : Type) :=
| Ok (a : A) (s : Store)
| Throw (e : Error) (s : Store).
Arguments Ok {A} a s.
Arguments Throw {A} e s.

Definition M (A : Type) : Type := Store -> Res A.

Definition ret {A} (a : A) : M A := fun s => Ok a s.

Definition bind {A B} (m : M A) (k : A -> M B) : M B :=
  fun s => match m s with
           | Ok a s' => k a s'
           | Throw e s' => Throw e s'
           end.

Definition throw {A} (e : Error) : M A := fun s => Throw e s.

Definition try_catch {A} (body : M A) (handler : Error -> M A) : M A :=
  fun s => match body s with
           | Ok a s' => Ok a s'
           | Throw e s' => handler e s'
           end.

Definition gets {A} (f : Store -> A) : M A := fun s => Ok (f s) s.

Definition modify (f : Store -> Store) : M unit := fun s => Ok tt (f s).

Declare Scope async_scope.
Delimit Scope async_scope with async.
Notation "x <- m ;; k" := (bind m (fun x => k))
  (at level 61, m at next level, right associativity) : async_scope.
Notation "m ;;; k" := (bind m (fun _ => k))
  (at level 61, right associativity) : async_scope.
Local Open Scope async_scope.

(** [Promise.all(xs.map(f))]: every [f x] is awaited, the results keep the
    order of [xs]; the first rejection rejects the whole. *)
Fixpoint mapM {A B} (f : A -> M B) (xs : list A) : M (list B) :=
  match xs with
  | [] => ret []
  | x :: xs' => y <- f x ;; ys <- mapM f xs' ;; ret (y :: ys)
  end.

(** ** Query combinators *)

Section Query.
Context {A : Type}.

(** [ORDER BY key DESC].  SQL leaves the order of rows with equal keys
    open; the model keeps them in table order (a stable insertion sort). *)
Fixpoint insert_desc (key : A -> Z) (x : A) (l : list A) : list A :=
  match l with
  | [] => [x]
  | y :: l' => if key y <=? key x then x :: y :: l'
               else y :: insert_desc key x l'
  end.

Fixpoint orderBy_desc (key : A -> Z) (l : list A) : list A :=
  match l with
  | [] => []
  | x :: l' => insert_desc key x (orderBy_desc key l')
  end.

(** The largest number PostgreSQL takes for a row count: 2^63 - 1. *)
Definition max_bigint : Z := 9223372036854775807.

(** [.limit(n).offset(k)]: the query builder writes [LIMIT n] only for a
    limit that is not negative (a negative limit cuts nothing) and
    [OFFSET k] only for an offset other than 0.  PostgreSQL rejects a
    negative offset and a count beyond 2^63 - 1.  (Beyond 2^53 the driver
    sends the shortest decimal of the double, which cuts no table of fewer
    than 2^53 rows otherwise than the number itself.) *)
Definition limit_offset (n k : Z) (l : list A) : M (list A) :=
  if (max_bigint <? n) || (max_bigint <? k)
  then throw (SqlError "bigint out of range")
  else if k <? 0 then throw (SqlError "OFFSET must not be negative")
  else
    let rows := skipn (Z.to_nat k) l in
    ret (if n <? 0 then rows else firstn (Z.to_nat n) rows).

Definition limit (n : Z) (l : list A) : M (list A) := limit_offset n 0 l.

(** [LIMIT n] written in the text of a query: PostgreSQL itself rejects a
    negative count. *)
Definition sql_limit (n : Z) (l : list A) : M (list A) :=
  if max_bigint <? n then throw (SqlError "bigint out of range")
  else if n <? 0 then throw (SqlError "LIMIT must not be negative")
  else ret (firstn (Z.to_nat n) l).

(** [count( * )] *)
Definition count (l : list A) : Z := Z.of_nat (List.length l).
End Query.


(** ** The PostgreSQL text functions of the trending query *)

Module Pg.
Definition code (c : ascii) : N := N_of_ascii c.

(** Text the model reads as the database does: every character is ASCII
    and none is NUL (which no text value can hold). *)
Fixpoint ascii_text (s : string) : bool :=
  match s with
  | EmptyString => true
  | String c s' => (N.ltb 0 (code c) && N.ltb (code c) 128 && ascii_text s')%bool
  end.

(** [\s]: the class [[:space:]] on ASCII text. *)
Definition is_space (c : ascii) : bool :=
  let n := code c in
  (N.eqb n 32 || (N.leb 9 n && N.leb n 13))%bool.

(** [\w]: a letter, a digit or the underscore, on ASCII text. *)
Definition is_word (c : ascii) : bool :=
  let n := code c in
  ((N.leb 48 n && N.leb n 57) || (N.leb 65 n && N.leb n 90)
   || (N.leb 97 n && N.leb n 122) || N.eqb n 95)%bool.

(** [regexp_split_to_array(s, '\s+')]: the pieces between the maximal runs
    of whitespace, the empty piece before a leading run and after a
    trailing run included.  [in_run] tells that the previous character
    was whitespace. *)
Fixpoint regexp_split_spaces (in_run : bool) (s : string) : list string :=
  match s with
  | EmptyString => [EmptyString]
  | String c s' =>
      if is_space c then
        if in_run then regexp_split_spaces true s'
        else EmptyString :: regexp_split_spaces true s'
      else
        match regexp_split_spaces false s' with
        | tok :: toks => String c tok :: toks
        | [] => [String c EmptyString]
        end
  end.

(** [s ~ '^#\w+']: the text starts with [#] and a word character. *)
Definition starts_with_hashtag (s : string) : bool :=
  match s with
  | String c (String d _) => (N.eqb (code c) 35 && is_word d)%bool
  | _ => false
  end.

(** [s ~ '#\w+']: a [#] followed by a word character occurs somewhere. *)
Fixpoint contains_hashtag (s : string) : bool :=
  match s with
  | EmptyString => false
  | String c s' =>
      (starts_with_hashtag (String c s') || contains_hashtag s')%bool
  end.

(** [GROUP BY]: one group per distinct value. *)
Fixpoint distinct (l : list string) : list string :=
  match l with
  | [] => []
  | x :: l' => if existsb (String.eqb x) l' then distinct l'
               else x :: distinct l'
  end.

Definition occurrences (t : string) (l : list string) : Z :=
  count (filter (String.eqb t) l).

(** [SELECT x, COUNT( * ) ... GROUP BY x] *)
Definition group_count (l : list string) : list (string * Z) :=
  map (fun t => (t, occurrences t l)) (distinct l).
End Pg.

(** A row of the trending result: [{ tag: string; posts: number }]. *)
Module Hashtag.
Record t := mk { tag : string; posts : Z }.
End Hashtag.

(** ** server/storage.ts: class DatabaseStorage *)

Module DatabaseStorage.

(** *** User operations *)

Definition getUser (id : string) : M (option User.t) :=
  rows <- gets (fun s => filter (fun u => String.eqb (User.id u) id) (users s)) ;;
  ret (hd_error rows).

Definition or_else {A} (o : option A) (d : A) : A :=
  match o with Some a => a | None => d end.

(** [.set(data)]: the columns present in [data] are overwritten. *)
Definition set_columns (d : PartialUser.t) (u : User.t) : User.t :=
  User.mk (or_else (PartialUser.id d) (User.id u))
          (or_else (PartialUser.username d) (User.username u))
          (or_else (PartialUser.bio d) (User.bio u))
          (or_else (PartialUser.isAdmin d) (User.isAdmin u))
          (or_else (PartialUser.isVerified d) (User.isVerified u))
          (or_else (PartialUser.isBanned d) (User.isBanned u))
          (or_else (PartialUser.bannedReason d) (User.bannedReason u))
          (or_else (PartialUser.createdAt d) (User.createdAt u))
          (or_else (PartialUser.updatedAt d) (User.updatedAt u)).

Definition with_updatedAt (now : Z) (d : PartialUser.t) : PartialUser.t :=
  PartialUser.mk (PartialUser.id d) (PartialUser.username d)
    (PartialUser.bio d) (PartialUser.isAdmin d) (PartialUser.isVerified d)
    (PartialUser.isBanned d) (PartialUser.bannedReason d)
    (PartialUser.createdAt d) (Some now).

Definition with_id (id : string) (d : PartialUser.t) : PartialUser.t :=
  PartialUser.mk (Some id) (PartialUser.username d)
    (PartialUser.bio d) (PartialUser.isAdmin d) (PartialUser.isVerified d)
    (PartialUser.isBanned d) (PartialUser.bannedReason d)
    (PartialUser.createdAt d) (PartialUser.updatedAt d).

(** [db.update(users).set(d).where(p).returning()] *)
Definition update_users (p : User.t -> bool) (d : PartialUser.t)
  : M (list User.t) :=
  fun s =>
    Ok (map (set_columns d) (filter p (users s)))
       (set_users (map (fun u => if p u then set_columns d u else u)) s).

(** Modelled from the spec: the column defaults of the users table (the
    flags start unset-as-false, both timestamps default to the clock). *)
Definition default_user (now : Z) (id : string) : User.t :=
  User.mk id None None (Some false) (Some false) (Some false) None now now.

Definition upsertUser (now : Z) (userData : UpsertUser.t) : M (option User.t) :=
  let id := UpsertUser.id userData in
  let values := with_id id (UpsertUser.data userData) in
  conflict <- gets (fun s =>
    existsb (fun u => String.eqb (User.id u) id) (users s)) ;;
  if conflict : bool then
    rows <- update_users (fun u => String.eqb (User.id u) id)
                         (with_updatedAt now values) ;;
    ret (hd_error rows)
  else
    let row := set_columns values (default_user now id) in
    modify (set_users (fun t => t ++ [row])) ;;;
    ret (Some row).

Definition getUserByUsername (username : string) : M (option User.t) :=
  rows <- gets (fun s =>
    filter (fun u => match User.username u with
                     | Some n => String.eqb n username
                     | None => false
                     end) (users s)) ;;
  ret (hd_error rows).

Definition updateUserProfile (now : Z) (id : string) (data : PartialUser.t)
  : M (option User.t) :=
  rows <- update_users (fun u => String.eqb (User.id u) id)
                       (with_updatedAt now data) ;;
  ret (hd_error rows).

(** *** Post operations *)

Definition createPost (now : Z) (post : InsertPost.t) : M Post.t :=
  id <- gets posts_id_seq ;;
  let newPost := Post.mk id (InsertPost.userId post) (InsertPost.caption post)
                   (InsertPost.imageUrl post) (InsertPost.location post) now in
  modify (fun s => bump_posts_id_seq (set_posts (fun t => t ++ [newPost]) s)) ;;;
  ret newPost.

Definition getPost (id : Z) : M (option Post.t) :=
  rows <- gets (fun s => filter (fun p => Post.id p =? id) (posts s)) ;;
  ret (hd_error rows).

Definition getPosts (limit offset : option Z) : M (list Post.t) :=
  let limit := or_else limit 20 in
  let offset := or_else offset 0 in
  rows <- gets (fun s => orderBy_desc Post.createdAt (posts s)) ;;
  limit_offset limit offset rows.

Definition getPostsByUserId (userId : string) : M (list Post.t) :=
  gets (fun s =>
    orderBy_desc Post.createdAt
      (filter (fun p => String.eqb (Post.userId p) userId) (posts s))).

Definition deletePost (id : Z) (userId : string) : M unit :=
  (* First delete all related data *)
  modify (set_likes (filter (fun l => negb (Like.postId l =? id)))) ;;;
  modify (set_comments (filter (fun c => negb (Comment.postId c =? id)))) ;;;
  (* Then delete the post *)
  modify (set_posts (filter (fun p =>
    negb ((Post.id p =? id) && String.eqb (Post.userId p) userId)))).

Definition deletePostAsAdmin (id : Z) : M unit :=
  (* First delete all related data *)
  modify (set_likes (filter (fun l => negb (Like.postId l =? id)))) ;;;
  modify (set_comments (filter (fun c => negb (Comment.postId c =? id)))) ;;;
  (* Then delete the post (admin can delete any post) *)
  modify (set_posts (filter (fun p => negb (Post.id p =? id)))).

(** *** Like operations *)

Definition like_is (userId : string) (postId : Z) (l : Like.t) : bool :=
  String.eqb (Like.userId l) userId && (Like.postId l =? postId).

Definition toggleLike (userId : string) (postId : Z) : M bool :=
  existingLike <- gets (fun s =>
    firstn 1 (filter (like_is userId postId) (likes s))) ;;
  if (0 <? List.length existingLike)%nat then
    modify (set_likes (filter (fun l => negb (like_is userId postId l)))) ;;;
    ret false
  else
    modify (set_likes (fun t => t ++ [Like.mk userId postId])) ;;;
    ret true.

Definition getLikeCount (postId : Z) : M Z :=
  gets (fun s => count (filter (fun l => Like.postId l =? postId) (likes s))).

Definition isPostLiked (userId : string) (postId : Z) : M bool :=
  rows <- gets (fun s =>
    firstn 1 (filter (like_is userId postId) (likes s))) ;;
  ret (match hd_error rows with Some _ => true | None => false end).

(** *** Comment operations *)

Definition createComment (now : Z) (comment : InsertComment.t) : M Comment.t :=
  id <- gets comments_id_seq ;;
  let newComment :=
    Comment.mk id (InsertComment.postId comment)
      (InsertComment.userId comment) (InsertComment.text comment) now in
  modify (fun s =>
    bump_comments_id_seq (set_comments (fun t => t ++ [newComment]) s)) ;;;
  ret newComment.

Definition getCommentsByPostId (postId : Z) : M (list Comment.t) :=
  gets (fun s =>
    orderBy_desc Comment.createdAt
      (filter (fun c => Comment.postId c =? postId) (comments s))).

Definition deleteComment (id : Z) (userId : string) : M unit :=
  modify (set_comments (filter (fun c =>
    negb ((Comment.id c =? id) && String.eqb (Comment.userId c) userId)))).

(** *** Follow operations *)

Definition follow_is (followerId followingId : string) (f : Follow.t) : bool :=
  String.eqb (Follow.followerId f) followerId
  && String.eqb (Follow.followingId f) followingId.

Definition toggleFollow (followerId followingId : string) : M bool :=
  existingFollow <- gets (fun s =>
    firstn 1 (filter (follow_is followerId followingId) (follows s))) ;;
  if (0 <? List.length existingFollow)%nat then
    modify (set_follows
              (filter (fun f => negb (follow_is followerId followingId f)))) ;;;
    ret false
  else
    modify (set_follows (fun t => t ++ [Follow.mk followerId followingId])) ;;;
    ret true.

Definition getFollowerCount (userId : string) : M Z :=
  gets (fun s =>
    count (filter (fun f => String.eqb (Follow.followingId f) userId)
                  (follows s))).

Definition getFollowingCount (userId : string) : M Z :=
  gets (fun s =>
    count (filter (fun f => String.eqb (Follow.followerId f) userId)
                  (follows s))).

Definition isFollowing (followerId followingId : string) : M bool :=
  rows <- gets (fun s =>
    firstn 1 (filter (follow_is followerId followingId) (follows s))) ;;
  ret (match hd_error rows with Some _ => true | None => false end).

Definition getSuggestedUsers (userId : string) (limit_ : option Z)
  : M (list User.t) :=
  rows <- gets (fun s =>
    let followed :=
      map Follow.followingId
          (filter (fun f => String.eqb (Follow.followerId f) userId)
                  (follows s)) in
    filter (fun u =>
              negb (String.eqb (User.id u) userId)
              && negb (existsb (String.eqb (User.id u)) followed))
           (users s)) ;;
  limit (or_else limit_ 5) rows.

(** *** Story operations *)

(** [now] is the reading of [Date.now()], taken by the server before the
    insert; [inserted] is the database's own clock at the insert, which
    fills the [createdAt] column the values leave out. *)
Definition createStory (now inserted : Z) (story : InsertStory.t) : M Story.t :=
  let expiresAt := now + 24 * 60 * 60 * 1000 in (* 24 hours from now *)
  id <- gets stories_id_seq ;;
  let newStory := Story.mk id (InsertStory.userId story)
                    (InsertStory.mediaUrl story) inserted expiresAt in
  modify (fun s =>
    bump_stories_id_seq (set_stories (fun t => t ++ [newStory]) s)) ;;;
  ret newStory.

Definition getActiveStories (now : Z) : M (list Story.t) :=
  gets (fun s =>
    orderBy_desc Story.createdAt
      (filter (fun st => now <? Story.expiresAt st) (stories s))).

Definition deleteExpiredStories (now : Z) : M unit :=
  modify (set_stories (filter (fun st => negb (Story.expiresAt st <? now)))).

(** *** Admin operations *)

Definition getAllUsers (limit offset : option Z) : M (list User.t) :=
  let limit := or_else limit 50 in
  let offset := or_else offset 0 in
  rows <- gets (fun s => orderBy_desc User.createdAt (users s)) ;;
  limit_offset limit offset rows.

Definition set_flags (isAdmin isVerified isBanned : option (option bool))
    (bannedReason : option (option string)) (now : Z) : PartialUser.t :=
  PartialUser.mk None None None isAdmin isVerified isBanned bannedReason
                 None (Some now).

Definition banUser (now : Z) (userId reason : string) : M (option User.t) :=
  rows <- update_users (fun u => String.eqb (User.id u) userId)
            (set_flags None None (Some (Some true)) (Some (Some reason)) now) ;;
  ret (hd_error rows).

Definition unbanUser (now : Z) (userId : string) : M (option User.t) :=
  rows <- update_users (fun u => String.eqb (User.id u) userId)
            (set_flags None None (Some (Some false)) (Some None) now) ;;
  ret (hd_error rows).

Definition verifyUser (now : Z) (userId : string) : M (option User.t) :=
  rows <- update_users (fun u => String.eqb (User.id u) userId)
            (set_flags None (Some (Some true)) None None now) ;;
  ret (hd_error rows).

Definition unverifyUser (now : Z) (userId : string) : M (option User.t) :=
  rows <- update_users (fun u => String.eqb (User.id u) userId)
            (set_flags None (Some (Some false)) None None now) ;;
  ret (hd_error rows).

Definition makeAdmin (now : Z) (userId : string) : M (option User.t) :=
  rows <- update_users (fun u => String.eqb (User.id u) userId)
            (set_flags (Some (Some true)) None None None now) ;;
  ret (hd_error rows).

Definition removeAdmin (now : Z) (userId : string) : M (option User.t) :=
  rows <- update_users (fun u => String.eqb (User.id u) userId)
            (set_flags (Some (Some false)) None None None now) ;;
  ret (hd_error rows).

(** *** Hashtag operations *)

(** The [hashtags] common table expression: one row per piece of every
    caption that contains a hashtag. *)
Definition hashtags_cte (s : Store) : list string :=
  flat_map (fun p => Pg.regexp_split_spaces false (Post.caption p))
           (filter (fun p => Pg.contains_hashtag (Post.caption p)) (posts s)).

Definition getTrendingHashtags (limit_ : option Z) : M (list Hashtag.t) :=
  rows <- gets (fun s =>
    orderBy_desc snd
      (Pg.group_count (filter Pg.starts_with_hashtag (hashtags_cte s)))) ;;
  rows <- sql_limit (or_else limit_ 10) rows ;;
  ret (map (fun row => Hashtag.mk (fst row) (snd row)) rows).

End DatabaseStorage.

(** ** The JavaScript primitives the handlers use *)

Module JS.
Definition is_white (c : ascii) : bool := Pg.is_space c.

Fixpoint trim_start (s : string) : string :=
  match s with
  | String c s' => if is_white c then trim_start s' else s
  | EmptyString => EmptyString
  end.

Definition digit_value (c : ascii) : option Z :=
  let n := Z.of_N (Pg.code c) in
  if (48 <=? n) && (n <=? 57) then Some (n - 48)
  else if (97 <=? n) && (n <=? 122) then Some (n - 87)
  else if (65 <=? n) && (n <=? 90) then Some (n - 55)
  else None.

(** The longest prefix of digits of the radix, as a number; [acc] is the
    value read so far ([None]: no digit yet). *)
Fixpoint digits (radix : Z) (acc : option Z) (s : string) : option Z :=
  match s with
  | EmptyString => acc
  | String c s' =>
      match digit_value c with
      | Some d =>
          if d <? radix
          then digits radix
                 (Some (match acc with Some a => a | None => 0 end * radix + d)) s'
          else acc
      | None => acc
      end
  end.

(** 2^53: up to it every integer is a double. *)
Definition max_exact : Z := 9007199254740992.

(** The double nearest to an integer (ties to the even significand): the
    integer itself up to 2^53, beyond it the 53 leading bits, rounded.  A
    result of 2^1024 or more stands for [Infinity]. *)
Definition to_double (z : Z) : Z :=
  let a := Z.abs z in
  if a <=? max_exact then z
  else
    let e := Z.log2 a - 52 in
    let q := Z.shiftr a e in
    let r := a - Z.shiftl q e in
    let half := Z.shiftl 1 (e - 1) in
    let q' := if (half <? r) || ((r =? half) && Z.odd q) then q + 1 else q in
    Z.sgn z * Z.shiftl q' e.

(** [parseInt(x)] without a radix; [None] in the argument is [undefined],
    [None] in the result is [NaN].  The number read is a double: an integer
    beyond 2^53 is rounded. *)
Definition parseInt (x : option string) : option Z :=
  match x with
  | None => None
  | Some str =>
      let s := trim_start str in
      let (sign, s) :=
        match s with
        | String "-"%char r => (-1, r)
        | String "+"%char r => (1, r)
        | _ => (1, s)
        end in
      let (radix, s) :=
        match s with
        | String "0"%char (String "x"%char r) => (16, r)
        | String "0"%char (String "X"%char r) => (16, r)
        | _ => (10, s)
        end in
      match digits radix None s with
      | Some n => Some (to_double (sign * n))
      | None => None
      end
  end.

(** [x || d] on numbers: [NaN] and [0] are falsy. *)
Definition or_number (x : option Z) (d : Z) : Z :=
  match x with
  | Some n => if n =? 0 then d else n
  | None => d
  end.

(** [!!x?.flag] for a nullable boolean column of an optional row. *)
Definition truthy (flag : option bool) : bool :=
  match flag with Some true => true | _ => false end.
End JS.

(** ** The storage interface *)

Module IStorage.
Record t := mk {
  (* User operations *)
  getUser : string -> M (option User.t);
  upsertUser : Z -> UpsertUser.t -> M (option User.t);
  getUserByUsername : string -> M (option User.t);
  updateUserProfile : Z -> string -> PartialUser.t -> M (option User.t);
  (* Post operations *)
  createPost : Z -> InsertPost.t -> M Post.t;
  getPost : Z -> M (option Post.t);
  getPosts : option Z -> option Z -> M (list Post.t);
  getPostsByUserId : string -> M (list Post.t);
  deletePost : Z -> string -> M unit;
  (* Like operations *)
  toggleLike : string -> Z -> M bool;
  getLikeCount : Z -> M Z;
  isPostLiked : string -> Z -> M bool;
  (* Comment operations *)
  createComment : Z -> InsertComment.t -> M Comment.t;
  getCommentsByPostId : Z -> M (list Comment.t);
  deleteComment : Z -> string -> M unit;
  (* Follow operations *)
  toggleFollow : string -> string -> M bool;
  getFollowerCount : string -> M Z;
  getFollowingCount : string -> M Z;
  isFollowing : string -> string -> M bool;
  getSuggestedUsers : string -> option Z -> M (list User.t);
  (* Story operations *)
  createStory : Z -> Z -> InsertStory.t -> M Story.t;
  getActiveStories : Z -> M (list Story.t);
  deleteExpiredStories : Z -> M unit;
  (* Admin operations *)
  getAllUsers : option Z -> option Z -> M (list User.t);
  banUser : Z -> string -> string -> M (option User.t);
  unbanUser : Z -> string -> M (option User.t);
  verifyUser : Z -> string -> M (option User.t);
  unverifyUser : Z -> string -> M (option User.t);
  makeAdmin : Z -> string -> M (option User.t);
  removeAdmin : Z -> string -> M (option User.t);
  deletePostAsAdmin : Z -> M unit;
  (* Hashtag operations *)
  getTrendingHashtags : option Z -> M (list Hashtag.t)
}.
End IStorage.

(** [export const storage = new DatabaseStorage()] *)
Definition storage : IStorage.t :=
  IStorage.mk
    DatabaseStorage.getUser DatabaseStorage.upsertUser
    DatabaseStorage.getUserByUsername DatabaseStorage.updateUserProfile
    DatabaseStorage.createPost DatabaseStorage.getPost
    DatabaseStorage.getPosts DatabaseStorage.getPostsByUserId
    DatabaseStorage.deletePost
    DatabaseStorage.toggleLike DatabaseStorage.getLikeCount
    DatabaseStorage.isPostLiked
    DatabaseStorage.createComment DatabaseStorage.getCommentsByPostId
    DatabaseStorage.deleteComment
    DatabaseStorage.toggleFollow DatabaseStorage.getFollowerCount
    DatabaseStorage.getFollowingCount DatabaseStorage.isFollowing
    DatabaseStorage.getSuggestedUsers
    DatabaseStorage.createStory DatabaseStorage.getActiveStories
    DatabaseStorage.deleteExpiredStories
    DatabaseStorage.getAllUsers DatabaseStorage.banUser
    DatabaseStorage.unbanUser DatabaseStorage.verifyUser
    DatabaseStorage.unverifyUser DatabaseStorage.makeAdmin
    DatabaseStorage.removeAdmin DatabaseStorage.deletePostAsAdmin
    DatabaseStorage.getTrendingHashtags.

(** ** The route registration file: requests, responses, handlers *)

Module Req.
(** What a handler reads of a request: [req.user.claims.sub] (set by the
    session middleware for an authenticated caller), the path and query
    parameters, the body fields, and the name multer gave the uploaded
    file ([req.file.filename]). *)
Record t := mk {
  user : option string;
  params : list (string * string);
  query : list (string * string);
  body : list (string * string);
  file : option string
}.

Fixpoint field (k : string) (l : list (string * string)) : option string :=
  match l with
  | [] => None
  | (k', v) :: l' => if String.eqb k' k then Some v else field k l'
  end.
End Req.

Module PostWithData.
Record t := mk {
  post : Post.t;
  user : option User.t;
  likeCount : Z;
  commentCount : Z;
  comments : list Comment.t
}.
End PostWithData.

Module StoryWithUser.
Record t := mk { story : Story.t; user : option User.t }.
End StoryWithUser.

Inductive Json :=
| JMessage (message : string)
| JUser (user : option User.t)
| JProfile (user : User.t) (followerCount followingCount postCount : Z)
           (posts : list Post.t)
| JPosts (postsWithData : list PostWithData.t)
| JPost (post : Post.t)
| JLike (isLiked : bool) (likeCount : Z)
| JUsers (users : list User.t)
| JVerified (message : string) (user : option User.t)
| JHashtags (hashtags : list Hashtag.t)
| JStories (storiesWithUsers : list StoryWithUser.t).

Module Res.
Record t := mk { status : Z; json : Json }.
End Res.

(** What a middleware does with a request: answer it, or call [next()]. *)
Inductive Step :=
| Respond (r : Res.t)
| Next.

Definition Middleware : Type := Req.t -> M Step.
Definition Handler : Type := Req.t -> M Res.t.

(** [app.get(path, mw1, .., mwN, handler)]: the handler runs only when every
    middleware before it has called [next()]. *)
Fixpoint route (mws : list Middleware) (handler : Handler) (req : Req.t)
  : M Res.t :=
  match mws with
  | [] => handler req
  | mw :: mws' =>
      step <- mw req ;;
      match step with
      | Respond r => ret r
      | Next => route mws' handler req
      end
  end.

(** [res.json(x)] and [res.status(n).json({ message })] *)
Definition json (x : Json) : Res.t := Res.mk 200 x.
Definition status_message (n : Z) (m : string) : Res.t := Res.mk n (JMessage m).

(** Modelled from the spec: [isAuthenticated] of [./replitAuth] (imported,
    not part of the source files): a request without a valid session is
    answered 401, an authenticated one goes on. *)
Definition isAuthenticated : Middleware :=
  fun req =>
    match Req.user req with
    | Some _ => ret Next
    | None => ret (Respond (status_message 401 "Unauthorized"))
    end.

(** [req.user.claims.sub] *)
Definition claims_sub (req : Req.t) : M string :=
  match Req.user req with
  | Some sub => ret sub
  | None => throw (TypeError "Cannot read properties of undefined")
  end.

(** The raw object handed to [insertPostSchema.parse]. *)
Module PostInput.
Record t := mk {
  userId : string;
  caption : option string;
  location : option string;
  imageUrl : string
}.
End PostInput.

Section Routes.
(** [now] is the clock while the request is served. *)
Variable st : IStorage.t.
Variable insertPostSchema : PostInput.t -> option InsertPost.t.
Variable now : Z.

(** [insertPostSchema.parse(x)]: the parsed value, or a thrown error. *)
Definition parse (x : PostInput.t) : M InsertPost.t :=
  match insertPostSchema x with
  | Some v => ret v
  | None => throw (ZodError "Required")
  end.

(* Auth routes *)
Definition get_auth_user : Handler := fun req =>
  try_catch
    (userId <- claims_sub req ;;
     user <- IStorage.getUser st userId ;;
     ret (json (JUser user)))
    (fun _ => ret (status_message 500 "Failed to fetch user")).

(* User routes *)
Definition get_user_profile : Handler := fun req =>
  try_catch
    (user <- match Req.field "username" (Req.params req) with
             | Some n => IStorage.getUserByUsername st n
             | None => ret None
             end ;;
     match user with
     | None => ret (status_message 404 "User not found")
     | Some user =>
         followerCount <- IStorage.getFollowerCount st (User.id user) ;;
         followingCount <- IStorage.getFollowingCount st (User.id user) ;;
         posts <- IStorage.getPostsByUserId st (User.id user) ;;
         ret (json (JProfile user followerCount followingCount
                             (count posts) posts))
     end)
    (fun _ => ret (status_message 500 "Failed to fetch user profile")).

(* Post routes *)
Definition with_data (post : Post.t) : M PostWithData.t :=
  user <- IStorage.getUser st (Post.userId post) ;;
  likeCount <- IStorage.getLikeCount st (Post.id post) ;;
  comments <- IStorage.getCommentsByPostId st (Post.id post) ;;
  ret (PostWithData.mk post user likeCount (count comments)
         (firstn 3 comments)). (* Show first 3 comments *)

Definition get_posts : Handler := fun req =>
  try_catch
    (let limit :=
       JS.or_number (JS.parseInt (Req.field "limit" (Req.query req))) 20 in
     let offset :=
       JS.or_number (JS.parseInt (Req.field "offset" (Req.query req))) 0 in
     posts <- IStorage.getPosts st (Some limit) (Some offset) ;;
     (* Get additional data for each post *)
     postsWithData <- mapM with_data posts ;;
     ret (json (JPosts postsWithData)))
    (fun _ => ret (status_message 500 "Failed to fetch posts")).

Definition post_posts : Handler := fun req =>
  try_catch
    (userId <- claims_sub req ;;
     let caption := Req.field "caption" (Req.body req) in
     let location := Req.field "location" (Req.body req) in
     match Req.file req with
     | None => ret (status_message 400 "Image is required")
     | Some filename =>
         let imageUrl := ("/uploads/" ++ filename)%string in
         postData <- parse (PostInput.mk userId caption location imageUrl) ;;
         post <- IStorage.createPost st now postData ;;
         ret (json (JPost post))
     end)
    (fun _ => ret (status_message 500 "Failed to create post")).

(** A number bound to a parameter compared with an [integer] column: the
    database refuses NaN and every number outside the range of the column
    type, [-2^31 .. 2^31 - 1], when the first query holding it runs; no
    row has been touched by then. *)
Definition integer_min : Z := -2147483648.
Definition integer_max : Z := 2147483647.

Definition integer_param (n : option Z) : M Z :=
  match n with
  | Some n =>
      if (integer_min <=? n) && (n <=? integer_max) then ret n
      else throw (SqlError "value out of range for type integer")
  | None => throw (SqlError "invalid input for type integer")
  end.

(* Like routes *)
Definition post_like : Handler := fun req =>
  try_catch
    (userId <- claims_sub req ;;
     postId <- integer_param (JS.parseInt (Req.field "id" (Req.params req))) ;;
     isLiked <- IStorage.toggleLike st userId postId ;;
     likeCount <- IStorage.getLikeCount st postId ;;
     ret (json (JLike isLiked likeCount)))
    (fun _ => ret (status_message 500 "Failed to toggle like")).

(* Admin routes *)
Definition isAdmin : Middleware := fun req =>
  try_catch
    (sub <- claims_sub req ;;
     currentUser <- IStorage.getUser st sub ;;
     if negb (JS.truthy (match currentUser with
                         | Some u => User.isAdmin u
                         | None => None
                         end))
     then ret (Respond (status_message 403 "Admin access required"))
     else ret Next)
    (fun _ => ret (Respond (status_message 500 "Failed to check admin status"))).

Definition get_admin_users : Handler := fun req =>
  try_catch
    (let limit :=
       JS.or_number (JS.parseInt (Req.field "limit" (Req.query req))) 50 in
     let offset :=
       JS.or_number (JS.parseInt (Req.field "offset" (Req.query req))) 0 in
     users <- IStorage.getAllUsers st (Some limit) (Some offset) ;;
     ret (json (JUsers users)))
    (fun _ => ret (status_message 500 "Failed to fetch users")).

(** A body without [userId] hands [undefined] to the store, which the
    driver sends as null: the comparison selects no row. *)
Definition post_admin_verify_user : Handler := fun req =>
  try_catch
    (updatedUser <- match Req.field "userId" (Req.body req) with
                    | Some userId => IStorage.verifyUser st now userId
                    | None => ret None
                    end ;;
     ret (json (JVerified "User verified successfully" updatedUser)))
    (fun _ => ret (status_message 500 "Failed to verify user")).

(* Get trending hashtags *)
Definition get_hashtags_trending : Handler := fun req =>
  try_catch
    (let limit :=
       JS.or_number (JS.parseInt (Req.field "limit" (Req.query req))) 10 in
     hashtags <- IStorage.getTrendingHashtags st (Some limit) ;;
     ret (json (JHashtags hashtags)))
    (fun _ => ret (status_message 500 "Failed to fetch trending hashtags")).

(* Stories routes *)
Definition get_stories : Handler := fun req =>
  try_catch
    (stories <- IStorage.getActiveStories st now ;;
     storiesWithUsers <-
       mapM (fun story =>
               user <- IStorage.getUser st (Story.userId story) ;;
               ret (StoryWithUser.mk story user)) stories ;;
     ret (json (JStories storiesWithUsers)))
    (fun _ => ret (status_message 500 "Failed to fetch stories")).

(** The routes as [registerRoutes] mounts them. *)
Inductive Endpoint :=
| GET_auth_user | GET_users_username | GET_posts | POST_posts
| POST_posts_id_like | GET_admin_users | POST_admin_verify_user
| GET_hashtags_trending | GET_stories.

Definition registerRoutes (e : Endpoint) : Req.t -> M Res.t :=
  match e with
  | GET_auth_user => route [isAuthenticated] get_auth_user
  | GET_users_username => route [] get_user_profile
  | GET_posts => route [] get_posts
  | POST_posts => route [isAuthenticated] post_posts
  | POST_posts_id_like => route [isAuthenticated] post_like
  | GET_admin_users => route [isAuthenticated; isAdmin] get_admin_users
  | POST_admin_verify_user =>
      route [isAuthenticated; isAdmin] post_admin_verify_user
  | GET_hashtags_trending => route [] get_hashtags_trending
  | GET_stories => route [] get_stories
  end.
End Routes.

(** Modelled from the spec: [insertPostSchema] of [@shared/schema] (imported,
    not part of the source files): the caption is required, the location is
    optional, the owner and the image reference are always supplied by the
    handler. *)
Definition insertPostSchema (x : PostInput.t) : option InsertPost.t :=
  match PostInput.caption x with
  | Some caption =>
      Some (InsertPost.mk (PostInput.userId x) caption (PostInput.imageUrl x)
                          (PostInput.location x))
  | None => None
  end.

(** The application: the routes over the database storage. *)
Definition app (now : Z) : Endpoint -> Req.t -> M Res.t :=
  registerRoutes storage insertPostSchema now.

(** ** Histories of the store *)

(** Every operation of the storage interface, as a call with its arguments. *)
Inductive Op :=
| Call_getUser (id : string)
| Call_upsertUser (userData : UpsertUser.t)
| Call_getUserByUsername (username : string)
| Call_updateUserProfile (id : string) (data : PartialUser.t)
| Call_createPost (post : InsertPost.t)
| Call_getPost (id : Z)
| Call_getPosts (limit offset : option Z)
| Call_getPostsByUserId (userId : string)
| Call_deletePost (id : Z) (userId : string)
| Call_toggleLike (userId : string) (postId : Z)
| Call_getLikeCount (postId : Z)
| Call_isPostLiked (userId : string) (postId : Z)
| Call_createComment (comment : InsertComment.t)
| Call_getCommentsByPostId (postId : Z)
| Call_deleteComment (id : Z) (userId : string)
| Call_toggleFollow (followerId followingId : string)
| Call_getFollowerCount (userId : string)
| Call_getFollowingCount (userId : string)
| Call_isFollowing (followerId followingId : string)
| Call_getSuggestedUsers (userId : string) (limit : option Z)
| Call_createStory (story : InsertStory.t) (inserted : Z)
| Call_getActiveStories
| Call_deleteExpiredStories
| Call_getAllUsers (limit offset : option Z)
| Call_banUser (userId reason : string)
| Call_unbanUser (userId : string)
| Call_verifyUser (userId : string)
| Call_unverifyUser (userId : string)
| Call_makeAdmin (userId : string)
| Call_removeAdmin (userId : string)
| Call_deletePostAsAdmin (id : Z)
| Call_getTrendingHashtags (limit : option Z).

Definition discard {A} (m : M A) : M unit := _ <- m ;; ret tt.

(** The call [op] made at time [now], its result dropped. *)
Definition call (now : Z) (op : Op) : M unit :=
  match op with
  | Call_getUser id => discard (DatabaseStorage.getUser id)
  | Call_upsertUser userData => discard (DatabaseStorage.upsertUser now userData)
  | Call_getUserByUsername n => discard (DatabaseStorage.getUserByUsername n)
  | Call_updateUserProfile id data =>
      discard (DatabaseStorage.updateUserProfile now id data)
  | Call_createPost post => discard (DatabaseStorage.createPost now post)
  | Call_getPost id => discard (DatabaseStorage.getPost id)
  | Call_getPosts l o => discard (DatabaseStorage.getPosts l o)
  | Call_getPostsByUserId u => discard (DatabaseStorage.getPostsByUserId u)
  | Call_deletePost id u => DatabaseStorage.deletePost id u
  | Call_toggleLike u p => discard (DatabaseStorage.toggleLike u p)
  | Call_getLikeCount p => discard (DatabaseStorage.getLikeCount p)
  | Call_isPostLiked u p => discard (DatabaseStorage.isPostLiked u p)
  | Call_createComment c => discard (DatabaseStorage.createComment now c)
  | Call_getCommentsByPostId p => discard (DatabaseStorage.getCommentsByPostId p)
  | Call_deleteComment id u => DatabaseStorage.deleteComment id u
  | Call_toggleFollow a b => discard (DatabaseStorage.toggleFollow a b)
  | Call_getFollowerCount u => discard (DatabaseStorage.getFollowerCount u)
  | Call_getFollowingCount u => discard (DatabaseStorage.getFollowingCount u)
  | Call_isFollowing a b => discard (DatabaseStorage.isFollowing a b)
  | Call_getSuggestedUsers u l => discard (DatabaseStorage.getSuggestedUsers u l)
  | Call_createStory story inserted =>
      discard (DatabaseStorage.createStory now inserted story)
  | Call_getActiveStories => discard (DatabaseStorage.getActiveStories now)
  | Call_deleteExpiredStories => DatabaseStorage.deleteExpiredStories now
  | Call_getAllUsers l o => discard (DatabaseStorage.getAllUsers l o)
  | Call_banUser u r => discard (DatabaseStorage.banUser now u r)
  | Call_unbanUser u => discard (DatabaseStorage.unbanUser now u)
  | Call_verifyUser u => discard (DatabaseStorage.verifyUser now u)
  | Call_unverifyUser u => discard (DatabaseStorage.unverifyUser now u)
  | Call_makeAdmin u => discard (DatabaseStorage.makeAdmin now u)
  | Call_removeAdmin u => discard (DatabaseStorage.removeAdmin now u)
  | Call_deletePostAsAdmin id => DatabaseStorage.deletePostAsAdmin id
  | Call_getTrendingHashtags l => discard (DatabaseStorage.getTrendingHashtags l)
  end.

(** The store an operation leaves behind, whether it returned or threw. *)
Definition store_of {A} (r : Res A) : Store :=
  match r with Ok _ s => s | Throw _ s => s end.

Definition after (now : Z) (op : Op) (s : Store) : Store :=
  store_of (call now op s).

(** The stores that calls build from the empty database. *)
Inductive reachable : Store -> Prop :=
| reachable_empty : reachable empty_store
| reachable_call (s : Store) (now : Z) (op : Op) :
    reachable s -> reachable (after now op s).

(** The lifetime of a story, in milliseconds. *)
Definition day_ms : Z := 24 * 60 * 60 * 1000.

(** * Properties *)

(** ** Lists, filters and the ordering combinator *)

Lemma filter_id {A} (f : A -> bool) (l : list A) :
  (forall x, In x l -> f x = true) -> filter f l = l.
Proof.
  induction l as [|a l IH]; simpl; intros H; [reflexivity|].
  rewrite (H a (or_introl eq_refl)).
  f_equal. apply IH. intros x Hx. apply H. now right.
Qed.

Lemma filter_none {A} (f : A -> bool) (l : list A) :
  (forall x, In x l -> f x = false) -> filter f l = [].
Proof.
  induction l as [|a l IH]; simpl; intros H; [reflexivity|].
  rewrite (H a (or_introl eq_refl)).
  apply IH. intros x Hx. apply H. now right.
Qed.

Lemma filter_length_le {A} (f : A -> bool) (l : list A) :
  (List.length (filter f l) <= List.length l)%nat.
Proof.
  induction l as [|a l IH]; simpl; [lia|].
  destruct (f a); simpl; lia.
Qed.

(** Rows in descending order of [key]: every row is at least as recent as
    all the rows after it. *)
Definition descending {A} (key : A -> Z) (l : list A) : Prop :=
  StronglySorted (fun a b => key b <= key a) l.

Section OrderBy.
Context {A : Type} (key : A -> Z).

Lemma insert_desc_perm (x : A) (l : list A) :
  Permutation (insert_desc key x l) (x :: l).
Proof.
  induction l as [|y l IH]; simpl; [reflexivity|].
  destruct (key y <=? key x); [reflexivity|].
  rewrite IH. apply perm_swap.
Qed.

Lemma orderBy_desc_perm (l : list A) :
  Permutation (orderBy_desc key l) l.
Proof.
  induction l as [|x l IH]; simpl; [reflexivity|].
  rewrite insert_desc_perm. now constructor.
Qed.

Lemma orderBy_desc_In (l : list A) (x : A) :
  In x (orderBy_desc key l) <-> In x l.
Proof.
  split; apply Permutation_in;
    [apply orderBy_desc_perm | symmetry; apply orderBy_desc_perm].
Qed.

Lemma orderBy_desc_length (l : list A) :
  List.length (orderBy_desc key l) = List.length l.
Proof. apply Permutation_length, orderBy_desc_perm. Qed.

Lemma insert_desc_descending (x : A) (l : list A) :
  descending key l -> descending key (insert_desc key x l).
Proof.
  unfold descending.
  induction l as [|y l IH]; simpl; intros Hs.
  - repeat constructor.
  - inversion Hs as [|? ? Hl Hy]; subst.
    destruct (key y <=? key x) eqn:E.
    + apply Z.leb_le in E. constructor; [assumption|].
      constructor; [assumption|].
      rewrite Forall_forall in *. intros z Hz.
      specialize (Hy z Hz). lia.
    + apply Z.leb_gt in E. constructor; [now apply IH|].
      rewrite Forall_forall in *. intros z Hz.
      apply (Permutation_in _ (insert_desc_perm x l)) in Hz.
      destruct Hz as [<-|Hz]; [lia | now apply Hy].
Qed.

Lemma orderBy_desc_descending (l : list A) :
  descending key (orderBy_desc key l).
Proof.
  induction l as [|x l IH]; simpl.
  - constructor.
  - now apply insert_desc_descending.
Qed.

Lemma descending_skipn (n : nat) (l : list A) :
  descending key l -> descending key (skipn n l).
Proof.
  unfold descending. revert l.
  induction n as [|n IH]; intros l Hs; simpl; [assumption|].
  destruct l as [|x l]; [constructor|].
  inversion Hs; subst. now apply IH.
Qed.

Lemma descending_firstn (n : nat) (l : list A) :
  descending key l -> descending key (firstn n l).
Proof.
  unfold descending. revert l.
  induction n as [|n IH]; intros l Hs; simpl; [constructor|].
  destruct l as [|x l]; [constructor|].
  inversion Hs as [|? ? Hl Hx]; subst.
  constructor; [now apply IH|].
  rewrite Forall_forall in *. intros z Hz.
  apply Hx. eapply (In_nth_error) in Hz. destruct Hz as [i Hi].
  clear - Hi. revert l i Hi.
  induction n as [|n IHn]; intros l i Hi.
  - destruct i; discriminate.
  - destruct l as [|y l]; [destruct i; discriminate|].
    destruct i as [|i]; simpl in Hi.
    + injection Hi as <-. now left.
    + right. eapply IHn; eauto.
Qed.

(** The head segment of a descending list holds its most recent rows. *)
Lemma descending_firstn_top (n : nat) (l : list A) :
  descending key l ->
  forall x y, In x (firstn n l) -> In y (skipn n l) -> key y <= key x.
Proof.
  unfold descending. revert l.
  induction n as [|n IH]; intros l Hs x y Hx Hy; simpl in *; [contradiction|].
  destruct l as [|a l]; [contradiction|].
  inversion Hs as [|? ? Hl Ha]; subst.
  destruct Hx as [<-|Hx].
  - rewrite Forall_forall in Ha. apply Ha.
    rewrite <- (firstn_skipn n l). apply in_or_app. now right.
  - now apply (IH l).
Qed.
End OrderBy.

(** ** Deleting a post *)

(** The store once the two statements on the dependent tables have run. *)
Definition dependents_deleted (id : Z) (s : Store) : Store :=
  set_comments (filter (fun c => negb (Comment.postId c =? id)))
    (set_likes (filter (fun l => negb (Like.postId l =? id))) s).

Definition no_dependents (id : Z) (s : Store) : Prop :=
  (forall l, In l (likes s) -> Like.postId l <> id) /\
  (forall c, In c (comments s) -> Comment.postId c <> id).

Lemma dependents_deleted_none (id : Z) (s : Store) :
  no_dependents id (dependents_deleted id s).
Proof.
  split; simpl; intros x Hx; apply filter_In in Hx; destruct Hx as [_ Hx];
    apply negb_true_iff, Z.eqb_neq in Hx; exact Hx.
Qed.

Lemma dependents_deleted_frame (id : Z) (s : Store) :
  posts (dependents_deleted id s) = posts s /\
  (forall l, In l (likes s) -> Like.postId l <> id ->
             In l (likes (dependents_deleted id s))) /\
  (forall c, In c (comments s) -> Comment.postId c <> id ->
             In c (comments (dependents_deleted id s))).
Proof.
  split; [reflexivity|].
  split; simpl; intros x Hx Hne; apply filter_In; split; try assumption;
    apply negb_true_iff, Z.eqb_neq; exact Hne.
Qed.

(** C3. After [deletePost(id, userId)] and after [deletePostAsAdmin(id)] no
    Like row and no Comment row of post [id] is left in the store.  Both
    delete the dependents first: the statement on the posts table runs on a
    store that has the posts table untouched and the dependents gone.  The
    owner's [deletePost] then leaves no post [id] owned by [userId], the
    admin's leaves no post [id] at all. *)
Theorem delete_post_no_orphans (id : Z) (userId : string) (s : Store) :
  (exists s',
      DatabaseStorage.deletePost id userId s = Ok tt s' /\
      no_dependents id s' /\
      (forall p, In p (posts s') -> Post.id p = id -> Post.userId p <> userId) /\
      no_dependents id (dependents_deleted id s) /\
      posts (dependents_deleted id s) = posts s /\
      DatabaseStorage.deletePost id userId s =
        modify (set_posts (filter (fun p =>
          negb ((Post.id p =? id) && String.eqb (Post.userId p) userId))))
          (dependents_deleted id s)) /\
  (exists s',
      DatabaseStorage.deletePostAsAdmin id s = Ok tt s' /\
      no_dependents id s' /\
      (forall p, In p (posts s') -> Post.id p <> id) /\
      DatabaseStorage.deletePostAsAdmin id s =
        modify (set_posts (filter (fun p => negb (Post.id p =? id))))
          (dependents_deleted id s)).
Proof.
  split.
  - eexists. split; [reflexivity|].
    split; [apply (dependents_deleted_none id s)|].
    split.
    + simpl. intros p Hp Hid Hown. apply filter_In in Hp. destruct Hp as [_ Hp].
      apply negb_true_iff, andb_false_iff in Hp.
      destruct Hp as [Hp|Hp].
      * apply Z.eqb_neq in Hp. contradiction.
      * apply String.eqb_neq in Hp. contradiction.
    + split; [apply dependents_deleted_none|]. split; reflexivity.
  - eexists. split; [reflexivity|].
    split; [apply (dependents_deleted_none id s)|].
    split; [|reflexivity].
    simpl. intros p Hp. apply filter_In in Hp. destruct Hp as [_ Hp].
    apply negb_true_iff, Z.eqb_neq in Hp. exact Hp.
Qed.

(** C10. When [userId] is not the owner of post [id], [deletePost(id, userId)]
    leaves the posts table as it was, and yet every Like row and every
    Comment row of the post is deleted; the rows of other posts stay. *)
Theorem delete_post_not_owner (id : Z) (userId : string) (s : Store) :
  (forall p, In p (posts s) -> Post.id p = id -> Post.userId p <> userId) ->
  exists s',
    DatabaseStorage.deletePost id userId s = Ok tt s' /\
    posts s' = posts s /\
    (forall l, In l (likes s') -> Like.postId l <> id) /\
    (forall c, In c (comments s') -> Comment.postId c <> id) /\
    (forall l, In l (likes s) -> Like.postId l <> id -> In l (likes s')) /\
    (forall c, In c (comments s) -> Comment.postId c <> id ->
               In c (comments s')).
Proof.
  intros Hown. eexists. split; [reflexivity|].
  split.
  - simpl. apply filter_id. intros p Hp.
    apply negb_true_iff, andb_false_iff.
    destruct (Post.id p =? id) eqn:E; [right | now left].
    apply Z.eqb_eq in E. apply String.eqb_neq. now apply Hown.
  - destruct (dependents_deleted_none id s) as [Hl Hc].
    destruct (dependents_deleted_frame id s) as (_ & Fl & Fc).
    repeat split; assumption.
Qed.

(** A post of alice with two likes and a comment, and a like on another
    post; mallory asks for the deletion. *)
Definition store_with_liked_post : Store :=
  mkStore []
    [Post.mk 1 "alice" "hello #world" "/uploads/a1" None 1000]
    [Like.mk "bob" 1; Like.mk "carol" 1; Like.mk "bob" 2]
    [Comment.mk 1 1 "bob" "nice" 1500]
    [] [] 2 2 1.

Lemma delete_post_not_owner_witness :
  exists s',
    DatabaseStorage.deletePost 1 "mallory" store_with_liked_post = Ok tt s' /\
    posts s' = posts store_with_liked_post /\
    (forall l, In l (likes s') -> Like.postId l <> 1) /\
    (forall c, In c (comments s') -> Comment.postId c <> 1) /\
    (forall l, In l (likes store_with_liked_post) -> Like.postId l <> 1 ->
               In l (likes s')) /\
    (forall c, In c (comments store_with_liked_post) ->
               Comment.postId c <> 1 -> In c (comments s')).
Proof.
  apply (delete_post_not_owner 1 "mallory" store_with_liked_post).
  simpl. intros p [<-|[]] _. simpl. discriminate.
Defined.

(** ** Toggles *)

Section Toggle.
(** A table of an existence-only relation; [is_row] is the [where] clause
    that selects the row [x] of one pair. *)
Context {A : Type} (is_row : A -> bool) (x : A).
Hypothesis is_row_spec : forall y, is_row y = true <-> y = x.

Let other (y : A) : bool := negb (is_row y).

Lemma select_nonempty (l : list A) :
  (0 <? List.length (firstn 1 (filter is_row l)))%nat = existsb is_row l.
Proof.
  induction l as [|a l IH]; simpl; [reflexivity|].
  destruct (is_row a); simpl; [reflexivity | exact IH].
Qed.

Lemma select_head (l : list A) :
  match hd_error (firstn 1 (filter is_row l)) with
  | Some _ => true
  | None => false
  end = existsb is_row l.
Proof.
  induction l as [|a l IH]; simpl; [reflexivity|].
  destruct (is_row a); simpl; [reflexivity | exact IH].
Qed.

Lemma absent_filter_other (l : list A) :
  existsb is_row l = false -> filter other l = l.
Proof.
  intros H. apply filter_id. intros y Hy. unfold other.
  destruct (is_row y) eqn:E; [|reflexivity].
  assert (existsb is_row l = true) by (apply existsb_exists; eauto).
  congruence.
Qed.

Lemma inserted_then_deleted (l : list A) :
  existsb is_row l = false ->
  existsb is_row (l ++ [x]) = true /\ filter other (l ++ [x]) = l.
Proof.
  intros H. assert (Hx : is_row x = true) by now apply is_row_spec.
  split.
  - rewrite existsb_app. simpl. rewrite Hx. apply orb_true_iff. right. reflexivity.
  - rewrite filter_app, (absent_filter_other l H). simpl. unfold other.
    rewrite Hx. simpl. apply app_nil_r.
Qed.

Lemma deleted_absent (l : list A) : existsb is_row (filter other l) = false.
Proof.
  induction l as [|a l IH]; simpl; [reflexivity|].
  unfold other at 1. destruct (is_row a) eqn:E; simpl; [exact IH|].
  now rewrite E.
Qed.

Lemma filter_split_perm (l : list A) :
  Permutation (filter other l ++ filter is_row l) l.
Proof.
  induction l as [|a l IH]; simpl; [reflexivity|].
  unfold other at 1. destruct (is_row a); simpl.
  - symmetry. apply Permutation_cons_app. now symmetry.
  - now constructor.
Qed.

Lemma select_of_set (l : list A) :
  NoDup l -> existsb is_row l = true -> filter is_row l = [x].
Proof.
  induction l as [|a l IH]; simpl; intros Hnd H; [discriminate|].
  inversion Hnd as [|? ? Hnotin Hnd']; subst.
  destruct (is_row a) eqn:E.
  - apply is_row_spec in E. subst a. f_equal.
    apply filter_none. intros y Hy.
    destruct (is_row y) eqn:Ey; [|reflexivity].
    apply is_row_spec in Ey. subst y. contradiction.
  - simpl in H. now apply IH.
Qed.

Lemma deleted_then_inserted (l : list A) :
  NoDup l -> existsb is_row l = true ->
  Permutation (filter other l ++ [x]) l.
Proof.
  intros Hnd H. rewrite <- (select_of_set l Hnd H). apply filter_split_perm.
Qed.

Lemma NoDup_deleted (l : list A) : NoDup l -> NoDup (filter other l).
Proof. apply NoDup_filter. Qed.

Lemma NoDup_inserted (l : list A) :
  NoDup l -> existsb is_row l = false -> NoDup (l ++ [x]).
Proof.
  intros Hnd H. apply (Permutation_NoDup (l := x :: l)).
  - apply Permutation_cons_append.
  - constructor; [|assumption].
    intros Hin.
    assert (existsb is_row l = true).
    { apply existsb_exists. exists x. split; [assumption|]. now apply is_row_spec. }
    congruence.
Qed.
End Toggle.

Lemma perm_filter_length {A} (f : A -> bool) (l1 l2 : list A) :
  Permutation l1 l2 -> List.length (filter f l1) = List.length (filter f l2).
Proof.
  induction 1 as [|a l1 l2 _ IH|a b l|l1 l2 l3 _ IH1 _ IH2]; simpl.
  - reflexivity.
  - destruct (f a); simpl; congruence.
  - destruct (f a), (f b); reflexivity.
  - congruence.
Qed.

Lemma perm_existsb {A} (f : A -> bool) (l1 l2 : list A) :
  Permutation l1 l2 -> existsb f l1 = existsb f l2.
Proof.
  induction 1 as [|a l1 l2 _ IH|a b l|l1 l2 l3 _ IH1 _ IH2]; simpl.
  - reflexivity.
  - now rewrite IH.
  - destruct (f a), (f b); reflexivity.
  - congruence.
Qed.

Lemma like_is_spec (userId : string) (postId : Z) (l : Like.t) :
  DatabaseStorage.like_is userId postId l = true <-> l = Like.mk userId postId.
Proof.
  destruct l as [u p]. unfold DatabaseStorage.like_is. simpl.
  rewrite andb_true_iff, String.eqb_eq, Z.eqb_eq.
  split; [intros [-> ->]; reflexivity | intros H; injection H; auto].
Qed.

Lemma follow_is_spec (followerId followingId : string) (f : Follow.t) :
  DatabaseStorage.follow_is followerId followingId f = true
  <-> f = Follow.mk followerId followingId.
Proof.
  destruct f as [a b]. unfold DatabaseStorage.follow_is. simpl.
  rewrite andb_true_iff, !String.eqb_eq.
  split; [intros [-> ->]; reflexivity | intros H; injection H; auto].
Qed.

(** What [toggleLike] and [toggleFollow] do, by the presence of the row. *)
Lemma toggleLike_eq (userId : string) (postId : Z) (s : Store) :
  DatabaseStorage.toggleLike userId postId s =
  if existsb (DatabaseStorage.like_is userId postId) (likes s)
  then Ok false (set_likes (filter (fun l =>
         negb (DatabaseStorage.like_is userId postId l))) s)
  else Ok true (set_likes (fun t => t ++ [Like.mk userId postId]) s).
Proof.
  unfold DatabaseStorage.toggleLike, bind, gets.
  rewrite select_nonempty.
  destruct (existsb _ (likes s)); reflexivity.
Qed.

Lemma toggleFollow_eq (followerId followingId : string) (s : Store) :
  DatabaseStorage.toggleFollow followerId followingId s =
  if existsb (DatabaseStorage.follow_is followerId followingId) (follows s)
  then Ok false (set_follows (filter (fun f =>
         negb (DatabaseStorage.follow_is followerId followingId f))) s)
  else Ok true (set_follows (fun t => t ++ [Follow.mk followerId followingId]) s).
Proof.
  unfold DatabaseStorage.toggleFollow, bind, gets.
  rewrite select_nonempty.
  destruct (existsb _ (follows s)); reflexivity.
Qed.

(** The like relation reads the same in [s] and [s2]: every like count and
    every membership query has the same answer, the table holds the same
    rows, and nothing else differs. *)
Definition same_likes (s s2 : Store) : Prop :=
  (forall postId, exists n,
      DatabaseStorage.getLikeCount postId s = Ok n s /\
      DatabaseStorage.getLikeCount postId s2 = Ok n s2) /\
  (forall userId postId, exists b,
      DatabaseStorage.isPostLiked userId postId s = Ok b s /\
      DatabaseStorage.isPostLiked userId postId s2 = Ok b s2) /\
  Permutation (likes s2) (likes s) /\
  set_likes (fun _ => likes s) s2 = s.

Definition same_follows (s s2 : Store) : Prop :=
  (forall userId, exists n,
      DatabaseStorage.getFollowerCount userId s = Ok n s /\
      DatabaseStorage.getFollowerCount userId s2 = Ok n s2) /\
  (forall userId, exists n,
      DatabaseStorage.getFollowingCount userId s = Ok n s /\
      DatabaseStorage.getFollowingCount userId s2 = Ok n s2) /\
  (forall followerId followingId, exists b,
      DatabaseStorage.isFollowing followerId followingId s = Ok b s /\
      DatabaseStorage.isFollowing followerId followingId s2 = Ok b s2) /\
  Permutation (follows s2) (follows s) /\
  set_follows (fun _ => follows s) s2 = s.

Lemma same_likes_intro (s s2 : Store) :
  Permutation (likes s2) (likes s) ->
  set_likes (fun _ => likes s) s2 = s ->
  same_likes s s2.
Proof.
  intros Hp Hs. unfold same_likes.
  split; [|split; [|split; assumption]].
  - intros postId. eexists. split; [reflexivity|].
    unfold DatabaseStorage.getLikeCount, gets, count.
    now rewrite (perm_filter_length _ _ _ Hp).
  - intros userId postId. eexists. split; [reflexivity|].
    unfold DatabaseStorage.isPostLiked, bind, gets, ret.
    now rewrite !select_head, (perm_existsb _ _ _ Hp).
Qed.

Lemma same_follows_intro (s s2 : Store) :
  Permutation (follows s2) (follows s) ->
  set_follows (fun _ => follows s) s2 = s ->
  same_follows s s2.
Proof.
  intros Hp Hs. unfold same_follows.
  split; [|split; [|split; [|split; assumption]]].
  - intros userId. eexists. split; [reflexivity|].
    unfold DatabaseStorage.getFollowerCount, gets, count.
    now rewrite (perm_filter_length _ _ _ Hp).
  - intros userId. eexists. split; [reflexivity|].
    unfold DatabaseStorage.getFollowingCount, gets, count.
    now rewrite (perm_filter_length _ _ _ Hp).
  - intros a b. eexists. split; [reflexivity|].
    unfold DatabaseStorage.isFollowing, bind, gets, ret.
    now rewrite !select_head, (perm_existsb _ _ _ Hp).
Qed.

Lemma toggleLike_twice (userId : string) (postId : Z) (s : Store) :
  NoDup (likes s) ->
  let was := existsb (DatabaseStorage.like_is userId postId) (likes s) in
  exists s1 s2,
    DatabaseStorage.isPostLiked userId postId s = Ok was s /\
    DatabaseStorage.toggleLike userId postId s = Ok (negb was) s1 /\
    likes s1 = (if was
                then filter (fun l =>
                       negb (DatabaseStorage.like_is userId postId l)) (likes s)
                else likes s ++ [Like.mk userId postId]) /\
    DatabaseStorage.isPostLiked userId postId s1 = Ok (negb was) s1 /\
    DatabaseStorage.toggleLike userId postId s1 = Ok was s2 /\
    same_likes s s2.
Proof.
  intros Hnd was.
  assert (Hq : forall t, DatabaseStorage.isPostLiked userId postId t
      = Ok (existsb (DatabaseStorage.like_is userId postId) (likes t)) t).
  { intros t. unfold DatabaseStorage.isPostLiked, bind, gets, ret.
    now rewrite select_head. }
  pose proof (like_is_spec userId postId) as Hspec.
  rewrite (toggleLike_eq userId postId s). fold was.
  destruct was eqn:Hwas; subst was.
  - eexists. eexists. split; [now rewrite Hq, Hwas|].
    split; [reflexivity|]. split; [reflexivity|].
    rewrite Hq, toggleLike_eq. simpl.
    rewrite (deleted_absent (DatabaseStorage.like_is userId postId)).
    split; [reflexivity|]. split; [reflexivity|].
    apply same_likes_intro; simpl.
    + now apply (deleted_then_inserted _ _ Hspec).
    + now destruct s.
  - destruct (inserted_then_deleted _ _ Hspec (likes s) Hwas) as [Hin Hdel].
    eexists. eexists. split; [now rewrite Hq, Hwas|].
    split; [reflexivity|]. split; [reflexivity|].
    rewrite Hq, toggleLike_eq. simpl. rewrite Hin.
    split; [reflexivity|]. split; [reflexivity|].
    apply same_likes_intro; simpl.
    + now rewrite Hdel.
    + now destruct s.
Qed.

Lemma toggleFollow_twice (followerId followingId : string) (s : Store) :
  NoDup (follows s) ->
  let was :=
    existsb (DatabaseStorage.follow_is followerId followingId) (follows s) in
  exists s1 s2,
    DatabaseStorage.isFollowing followerId followingId s = Ok was s /\
    DatabaseStorage.toggleFollow followerId followingId s = Ok (negb was) s1 /\
    follows s1 = (if was
                  then filter (fun f =>
                         negb (DatabaseStorage.follow_is followerId followingId f))
                         (follows s)
                  else follows s ++ [Follow.mk followerId followingId]) /\
    DatabaseStorage.isFollowing followerId followingId s1 = Ok (negb was) s1 /\
    DatabaseStorage.toggleFollow followerId followingId s1 = Ok was s2 /\
    same_follows s s2.
Proof.
  intros Hnd was.
  assert (Hq : forall t, DatabaseStorage.isFollowing followerId followingId t
      = Ok (existsb (DatabaseStorage.follow_is followerId followingId)
                    (follows t)) t).
  { intros t. unfold DatabaseStorage.isFollowing, bind, gets, ret.
    now rewrite select_head. }
  pose proof (follow_is_spec followerId followingId) as Hspec.
  rewrite (toggleFollow_eq followerId followingId s). fold was.
  destruct was eqn:Hwas; subst was.
  - eexists. eexists. split; [now rewrite Hq, Hwas|].
    split; [reflexivity|]. split; [reflexivity|].
    rewrite Hq, toggleFollow_eq. simpl.
    rewrite (deleted_absent (DatabaseStorage.follow_is followerId followingId)).
    split; [reflexivity|]. split; [reflexivity|].
    apply same_follows_intro; simpl.
    + now apply (deleted_then_inserted _ _ Hspec).
    + now destruct s.
  - destruct (inserted_then_deleted _ _ Hspec (follows s) Hwas) as [Hin Hdel].
    eexists. eexists. split; [now rewrite Hq, Hwas|].
    split; [reflexivity|]. split; [reflexivity|].
    rewrite Hq, toggleFollow_eq. simpl. rewrite Hin.
    split; [reflexivity|]. split; [reflexivity|].
    apply same_follows_intro; simpl.
    + now rewrite Hdel.
    + now destruct s.
Qed.

(** ** What a call can do to each table *)

Ltac unfold_storage :=
  unfold after, call, discard,
    DatabaseStorage.getUser, DatabaseStorage.upsertUser,
    DatabaseStorage.getUserByUsername, DatabaseStorage.updateUserProfile,
    DatabaseStorage.createPost, DatabaseStorage.getPost,
    DatabaseStorage.getPosts, DatabaseStorage.getPostsByUserId,
    DatabaseStorage.deletePost, DatabaseStorage.getLikeCount,
    DatabaseStorage.isPostLiked, DatabaseStorage.createComment,
    DatabaseStorage.getCommentsByPostId, DatabaseStorage.deleteComment,
    DatabaseStorage.getFollowerCount, DatabaseStorage.getFollowingCount,
    DatabaseStorage.isFollowing, DatabaseStorage.getSuggestedUsers,
    DatabaseStorage.createStory, DatabaseStorage.getActiveStories,
    DatabaseStorage.deleteExpiredStories, DatabaseStorage.getAllUsers,
    DatabaseStorage.banUser, DatabaseStorage.unbanUser,
    DatabaseStorage.verifyUser, DatabaseStorage.unverifyUser,
    DatabaseStorage.makeAdmin, DatabaseStorage.removeAdmin,
    DatabaseStorage.deletePostAsAdmin, DatabaseStorage.getTrendingHashtags,
    DatabaseStorage.update_users, limit, limit_offset, sql_limit,
    bind, ret, gets, modify, throw, store_of.

Ltac split_ifs :=
  repeat match goal with
         | |- context [if ?c then _ else _] => destruct c
         end.

(** A call leaves a table as it was, deletes rows of it, or -- the one
    inserting operation of the table -- appends a row. *)
Lemma after_likes (now : Z) (op : Op) (s : Store) :
  likes (after now op s) = likes s \/
  (exists f, likes (after now op s) = filter f (likes s)) \/
  (exists userId postId,
      existsb (DatabaseStorage.like_is userId postId) (likes s) = false /\
      likes (after now op s) = likes s ++ [Like.mk userId postId]).
Proof.
  destruct op;
    try (left; unfold_storage; simpl; split_ifs; reflexivity);
    try (right; left; unfold_storage; simpl; eexists; reflexivity).
  - right. unfold after, call, discard, bind. rewrite toggleLike_eq.
    destruct (existsb _ (likes s)) eqn:E; simpl.
    + left. eexists. reflexivity.
    + right. exists userId, postId. split; [exact E | reflexivity].
  - left. unfold after, call, discard, bind. rewrite toggleFollow_eq.
    destruct (existsb _ (follows s)); reflexivity.
Qed.

Lemma after_follows (now : Z) (op : Op) (s : Store) :
  follows (after now op s) = follows s \/
  (exists f, follows (after now op s) = filter f (follows s)) \/
  (exists followerId followingId,
      existsb (DatabaseStorage.follow_is followerId followingId) (follows s)
        = false /\
      follows (after now op s)
        = follows s ++ [Follow.mk followerId followingId]).
Proof.
  destruct op;
    try (left; unfold_storage; simpl; split_ifs; reflexivity).
  - left. unfold after, call, discard, bind. rewrite toggleLike_eq.
    destruct (existsb _ (likes s)); reflexivity.
  - right. unfold after, call, discard, bind. rewrite toggleFollow_eq.
    destruct (existsb _ (follows s)) eqn:E; simpl.
    + left. eexists. reflexivity.
    + right. exists followerId, followingId. split; [exact E | reflexivity].
Qed.

(** The like and follow tables of a reachable store are sets: the
    operations never build a second row for a pair. *)
Lemma reachable_relations_NoDup (s : Store) :
  reachable s -> NoDup (likes s) /\ NoDup (follows s).
Proof.
  induction 1 as [|s now op _ [IHl IHf]].
  - split; constructor.
  - split.
    + destruct (after_likes now op s) as [E|[[f E]|(u & p & Habs & E)]];
        rewrite E.
      * assumption.
      * now apply NoDup_filter.
      * apply (NoDup_inserted _ _ (like_is_spec u p)); assumption.
    + destruct (after_follows now op s) as [E|[[f E]|(a & b & Habs & E)]];
        rewrite E.
      * assumption.
      * now apply NoDup_filter.
      * apply (NoDup_inserted _ _ (follow_is_spec a b)); assumption.
Qed.

(** Why the tables have to be sets: were a pair stored twice, the first
    toggle would delete both rows and the second insert one. *)
Example toggle_twice_on_duplicate_rows :
  let s := set_likes (fun _ => [Like.mk "bob" 1; Like.mk "bob" 1]) empty_store in
  exists s1 s2,
    DatabaseStorage.toggleLike "bob" 1 s = Ok false s1 /\
    DatabaseStorage.toggleLike "bob" 1 s1 = Ok true s2 /\
    DatabaseStorage.getLikeCount 1 s = Ok 2 s /\
    DatabaseStorage.getLikeCount 1 s2 = Ok 1 s2.
Proof.
  intros s. eexists. eexists.
  split; [reflexivity|]. split; [reflexivity|]. split; reflexivity.
Qed.

(** C2. In a store whose like and follow tables are sets (one row per pair
    at most, as in every reachable store), toggling a like twice, and
    toggling a follow twice, restores the relation and every count: the
    first toggle inserts the row when it was absent and returns true, or
    deletes it when it was present and returns false; the second toggle does
    the opposite. *)
Theorem toggle_twice_restores
    (userId : string) (postId : Z) (followerId followingId : string)
    (s : Store) :
  NoDup (likes s) -> NoDup (follows s) ->
  (let was := existsb (DatabaseStorage.like_is userId postId) (likes s) in
   exists s1 s2,
     DatabaseStorage.isPostLiked userId postId s = Ok was s /\
     DatabaseStorage.toggleLike userId postId s = Ok (negb was) s1 /\
     likes s1 = (if was
                 then filter (fun l =>
                        negb (DatabaseStorage.like_is userId postId l)) (likes s)
                 else likes s ++ [Like.mk userId postId]) /\
     DatabaseStorage.isPostLiked userId postId s1 = Ok (negb was) s1 /\
     DatabaseStorage.toggleLike userId postId s1 = Ok was s2 /\
     same_likes s s2) /\
  (let was :=
     existsb (DatabaseStorage.follow_is followerId followingId) (follows s) in
   exists s1 s2,
     DatabaseStorage.isFollowing followerId followingId s = Ok was s /\
     DatabaseStorage.toggleFollow followerId followingId s = Ok (negb was) s1 /\
     follows s1 = (if was
                   then filter (fun f =>
                          negb (DatabaseStorage.follow_is followerId followingId f))
                          (follows s)
                   else follows s ++ [Follow.mk followerId followingId]) /\
     DatabaseStorage.isFollowing followerId followingId s1 = Ok (negb was) s1 /\
     DatabaseStorage.toggleFollow followerId followingId s1 = Ok was s2 /\
     same_follows s s2).
Proof.
  intros Hl Hf. split.
  - now apply toggleLike_twice.
  - now apply toggleFollow_twice.
Qed.

Ltac nodup_rows :=
  repeat (constructor; [simpl; intuition discriminate|]); constructor.

(** bob unlikes and likes again post 1; carol follows and unfollows alice. *)
Lemma toggle_twice_restores_witness :
  exists s1 s2 t1 t2,
    DatabaseStorage.toggleLike "bob" 1 store_with_liked_post = Ok false s1 /\
    DatabaseStorage.toggleLike "bob" 1 s1 = Ok true s2 /\
    same_likes store_with_liked_post s2 /\
    DatabaseStorage.toggleFollow "carol" "alice" store_with_liked_post
      = Ok true t1 /\
    DatabaseStorage.toggleFollow "carol" "alice" t1 = Ok false t2 /\
    same_follows store_with_liked_post t2.
Proof.
  assert (HL : NoDup (likes store_with_liked_post)) by nodup_rows.
  assert (HF : NoDup (follows store_with_liked_post)) by nodup_rows.
  destruct (toggle_twice_restores "bob" 1 "carol" "alice"
              store_with_liked_post HL HF)
    as [(s1 & s2 & _ & L1 & _ & _ & L2 & Ls) (t1 & t2 & _ & F1 & _ & _ & F2 & Fs)].
  exists s1, s2, t1, t2.
  split; [exact L1|]. split; [exact L2|]. split; [exact Ls|].
  split; [exact F1|]. split; [exact F2|]. exact Fs.
Defined.

(** ** The admin check *)

Definition forbidden : Res.t := status_message 403 "Admin access required".
Definition check_failed : Res.t :=
  status_message 500 "Failed to check admin status".

(** What the admin check decides from the outcome of the lookup of the
    caller's record. *)
Lemma isAdmin_eq (st : IStorage.t) (req : Req.t) (sub : string) (s : Store) :
  Req.user req = Some sub ->
  isAdmin st req s =
  match IStorage.getUser st sub s with
  | Ok (Some u) s' =>
      match User.isAdmin u with
      | Some true => Ok Next s'
      | _ => Ok (Respond forbidden) s'
      end
  | Ok None s' => Ok (Respond forbidden) s'
  | Throw _ s' => Ok (Respond check_failed) s'
  end.
Proof.
  intros Hu. unfold isAdmin, try_catch, bind, claims_sub. rewrite Hu.
  unfold ret at 1.
  destruct (IStorage.getUser st sub s) as [[u|] s'|e s']; try reflexivity.
  destruct (User.isAdmin u) as [[|]|]; reflexivity.
Qed.

Lemma admin_route_eq (st : IStorage.t) (handler : Handler) (req : Req.t)
    (sub : string) (s : Store) :
  Req.user req = Some sub ->
  route [isAuthenticated; isAdmin st] handler req s =
  match IStorage.getUser st sub s with
  | Ok (Some u) s' =>
      match User.isAdmin u with
      | Some true => handler req s'
      | _ => Ok forbidden s'
      end
  | Ok None s' => Ok forbidden s'
  | Throw _ s' => Ok check_failed s'
  end.
Proof.
  intros Hu. unfold route, isAuthenticated. rewrite Hu.
  unfold bind at 1. unfold ret at 1. unfold bind at 1.
  rewrite (isAdmin_eq st req sub s Hu).
  destruct (IStorage.getUser st sub s) as [[u|] s'|e s']; try reflexivity.
  destruct (User.isAdmin u) as [[|]|]; reflexivity.
Qed.

(** C1. On both admin routes, for an authenticated caller and whatever the
    storage behind the interface does: the admin check loads the caller's
    record; the answer is 403 when there is no record or its [isAdmin] flag
    is not set, 500 when the lookup fails, and in neither case is the route
    handler run (the check does not call [next()], the response does not
    depend on the handler).  The handler runs exactly when a record was
    loaded with the flag set. *)
Theorem admin_routes_require_admin
    (st : IStorage.t) (schema : PostInput.t -> option InsertPost.t) (now : Z)
    (req : Req.t) (sub : string) (s : Store) :
  Req.user req = Some sub ->
  (isAdmin st req s =
   match IStorage.getUser st sub s with
   | Ok (Some u) s' =>
       match User.isAdmin u with
       | Some true => Ok Next s'
       | _ => Ok (Respond forbidden) s'
       end
   | Ok None s' => Ok (Respond forbidden) s'
   | Throw _ s' => Ok (Respond check_failed) s'
   end) /\
  (forall e handler,
      (e = GET_admin_users /\ handler = get_admin_users st) \/
      (e = POST_admin_verify_user /\ handler = post_admin_verify_user st now) ->
      registerRoutes st schema now e req s =
      match IStorage.getUser st sub s with
      | Ok (Some u) s' =>
          match User.isAdmin u with
          | Some true => handler req s'
          | _ => Ok forbidden s'
          end
      | Ok None s' => Ok forbidden s'
      | Throw _ s' => Ok check_failed s'
      end) /\
  Res.status forbidden = 403 /\ Res.status check_failed = 500.
Proof.
  intros Hu. split; [now apply isAdmin_eq|]. split; [|split; reflexivity].
  intros e handler [[-> ->]|[-> ->]]; simpl; now apply admin_route_eq.
Qed.

(** Three callers of [GET /admin/users]: bob has a record without the flag,
    alice is an admin, dave has no record at all. *)
Definition store_with_admin : Store :=
  mkStore
    [User.mk "alice" (Some "alice"%string) None (Some true) (Some false) (Some false)
             None 100 100;
     User.mk "bob" (Some "bob"%string) None (Some false) (Some false) (Some false)
             None 200 200;
     User.mk "erin" (Some "erin"%string) None None None None None 300 300]
    [] [] [] [] [] 1 1 1.

Definition request_by (sub : string) : Req.t := Req.mk (Some sub) [] [] [] None.

(** A storage whose user lookup fails. *)
Definition storage_down : IStorage.t :=
  IStorage.mk
    (fun _ => throw (StoreFailure "connection terminated"))
    DatabaseStorage.upsertUser
    DatabaseStorage.getUserByUsername DatabaseStorage.updateUserProfile
    DatabaseStorage.createPost DatabaseStorage.getPost
    DatabaseStorage.getPosts DatabaseStorage.getPostsByUserId
    DatabaseStorage.deletePost
    DatabaseStorage.toggleLike DatabaseStorage.getLikeCount
    DatabaseStorage.isPostLiked
    DatabaseStorage.createComment DatabaseStorage.getCommentsByPostId
    DatabaseStorage.deleteComment
    DatabaseStorage.toggleFollow DatabaseStorage.getFollowerCount
    DatabaseStorage.getFollowingCount DatabaseStorage.isFollowing
    DatabaseStorage.getSuggestedUsers
    DatabaseStorage.createStory DatabaseStorage.getActiveStories
    DatabaseStorage.deleteExpiredStories
    DatabaseStorage.getAllUsers DatabaseStorage.banUser
    DatabaseStorage.unbanUser DatabaseStorage.verifyUser
    DatabaseStorage.unverifyUser DatabaseStorage.makeAdmin
    DatabaseStorage.removeAdmin DatabaseStorage.deletePostAsAdmin
    DatabaseStorage.getTrendingHashtags.

Lemma admin_routes_require_admin_witness :
  app 0 GET_admin_users (request_by "bob") store_with_admin
    = Ok forbidden store_with_admin /\
  app 0 GET_admin_users (request_by "erin") store_with_admin
    = Ok forbidden store_with_admin /\
  app 0 GET_admin_users (request_by "dave") store_with_admin
    = Ok forbidden store_with_admin /\
  app 0 POST_admin_verify_user (request_by "alice") store_with_admin
    = post_admin_verify_user storage 0 (request_by "alice") store_with_admin /\
  registerRoutes storage_down insertPostSchema 0 GET_admin_users
    (request_by "alice") store_with_admin
    = Ok check_failed store_with_admin.
Proof.
  pose proof (fun st sub =>
    proj1 (proj2 (admin_routes_require_admin st insertPostSchema 0
                    (request_by sub) sub store_with_admin eq_refl))) as H.
  split; [exact (H storage "bob"%string _ _ (or_introl (conj eq_refl eq_refl)))|].
  split; [exact (H storage "erin"%string _ _ (or_introl (conj eq_refl eq_refl)))|].
  split; [exact (H storage "dave"%string _ _ (or_introl (conj eq_refl eq_refl)))|].
  split; [exact (H storage "alice"%string _ _ (or_intror (conj eq_refl eq_refl)))|].
  exact (H storage_down "alice"%string _ _ (or_introl (conj eq_refl eq_refl))).
Defined.

(** ** Creating a post *)

(** The object [POST /posts] hands to the schema. *)
Definition post_input (req : Req.t) (sub filename : string) : PostInput.t :=
  PostInput.mk sub (Req.field "caption" (Req.body req))
    (Req.field "location" (Req.body req)) ("/uploads/" ++ filename)%string.

(** The row [createPost] inserts for parsed data at time [now]. *)
Definition new_post (s : Store) (now : Z) (d : InsertPost.t) : Post.t :=
  Post.mk (posts_id_seq s) (InsertPost.userId d) (InsertPost.caption d)
          (InsertPost.imageUrl d) (InsertPost.location d) now.

Definition image_required : Res.t := status_message 400 "Image is required".
Definition create_failed : Res.t := status_message 500 "Failed to create post".

(** C4 as the claim states it: whenever the image or a field the schema
    requires is missing, the answer is a 400 and no post is persisted. *)
Definition missing_input_is_400 : Prop :=
  forall (now : Z) (req : Req.t) (sub : string) (s : Store),
    Req.user req = Some sub ->
    (Req.file req = None \/
     exists filename, Req.file req = Some filename /\
                      insertPostSchema (post_input req sub filename) = None) ->
    exists r s',
      app now POST_posts req s = Ok r s' /\
      Res.status r = 400 /\ posts s' = posts s.

(** alice uploads an image without a caption. *)
Definition request_without_caption : Req.t :=
  Req.mk (Some "alice"%string) [] [] [("location", "Paris")]%string
         (Some "f3a9"%string).

(** C4, counterexample: an image sent without the caption the schema
    requires is answered 500, not 400. *)
Lemma missing_caption_is_500 : ~ missing_input_is_400.
Proof.
  intros H.
  destruct (H 0 request_without_caption "alice"%string empty_store eq_refl)
    as (r & s' & Hrun & Hstatus & _).
  - right. exists "f3a9"%string. split; reflexivity.
  - vm_compute in Hrun. injection Hrun as <- <-. discriminate Hstatus.
Qed.

(** C4, amended.  For an authenticated [POST /posts] over the database
    storage, whatever the schema: a request without an uploaded image is
    answered 400 and nothing is persisted; a request with an image whose
    body the schema rejects is answered 500 (the generic failure) and
    nothing is persisted; otherwise the new post -- next id, the caller as
    owner as parsed, created now -- is appended to the posts table and
    returned. *)
Theorem post_posts_outcomes
    (schema : PostInput.t -> option InsertPost.t) (now : Z)
    (req : Req.t) (sub : string) (s : Store) :
  Req.user req = Some sub ->
  match Req.file req with
  | None =>
      registerRoutes storage schema now POST_posts req s = Ok image_required s
  | Some filename =>
      match schema (post_input req sub filename) with
      | None =>
          registerRoutes storage schema now POST_posts req s
            = Ok create_failed s
      | Some postData =>
          exists s',
            registerRoutes storage schema now POST_posts req s
              = Ok (json (JPost (new_post s now postData))) s' /\
            posts s' = posts s ++ [new_post s now postData] /\
            s' = bump_posts_id_seq
                   (set_posts (fun t => t ++ [new_post s now postData]) s)
      end
  end /\
  Res.status image_required = 400 /\ Res.status create_failed = 500.
Proof.
  intros Hu. split; [|split; reflexivity].
  unfold registerRoutes, route, isAuthenticated, post_posts, try_catch, bind,
    claims_sub, parse, post_input.
  rewrite Hu. unfold ret. cbv beta iota.
  destruct (Req.file req) as [filename|]; [|reflexivity].
  destruct (schema _) as [postData|]; [|reflexivity].
  eexists. split; [reflexivity|]. split; reflexivity.
Qed.

(** alice posts "hello #world" with an image. *)
Definition request_hello_world : Req.t :=
  Req.mk (Some "alice"%string) [] [] [("caption", "hello #world")]%string
         (Some "f3a9"%string).

Lemma post_posts_outcomes_witness :
  (exists s',
      app 1000 POST_posts request_hello_world empty_store
        = Ok (json (JPost (Post.mk 1 "alice" "hello #world" "/uploads/f3a9"
                                   None 1000))) s' /\
      posts s' = [Post.mk 1 "alice" "hello #world" "/uploads/f3a9" None 1000]) /\
  app 1000 POST_posts request_without_caption empty_store
    = Ok create_failed empty_store /\
  app 1000 POST_posts (request_by "alice") empty_store
    = Ok image_required empty_store.
Proof.
  split; [|split].
  - destruct (proj1 (post_posts_outcomes insertPostSchema 1000
                       request_hello_world "alice" empty_store eq_refl))
      as (s' & Hrun & Hposts & _).
    exists s'. split; [exact Hrun | exact Hposts].
  - exact (proj1 (post_posts_outcomes insertPostSchema 1000
                    request_without_caption "alice" empty_store eq_refl)).
  - exact (proj1 (post_posts_outcomes insertPostSchema 1000
                    (request_by "alice") "alice" empty_store eq_refl)).
Defined.

(** ** Listing posts *)

Lemma mapM_pure {A B} (f : A -> M B) (g : A -> B) (s : Store) (xs : list A) :
  (forall x, f x s = Ok (g x) s) -> mapM f xs s = Ok (map g xs) s.
Proof.
  intros H. induction xs as [|x xs IH]; simpl; [reflexivity|].
  unfold bind. rewrite H. fold (mapM f xs). rewrite IH. reflexivity.
Qed.

(** The comments of a post, newest first, as [getCommentsByPostId] reads
    them from store [s]. *)
Definition comments_of (s : Store) (postId : Z) : list Comment.t :=
  orderBy_desc Comment.createdAt
    (filter (fun c => Comment.postId c =? postId) (comments s)).

(** What the handler of [GET /posts] attaches to a post, read from [s]. *)
Definition enriched (s : Store) (post : Post.t) : PostWithData.t :=
  PostWithData.mk post
    (hd_error (filter (fun u => String.eqb (User.id u) (Post.userId post))
                      (users s)))
    (count (filter (fun l => Like.postId l =? Post.id post) (likes s)))
    (count (comments_of s (Post.id post)))
    (firstn 3 (comments_of s (Post.id post))).

Lemma with_data_eq (s : Store) (post : Post.t) :
  with_data storage post s = Ok (enriched s post) s.
Proof. reflexivity. Qed.

(** The limit and the offset the handler passes to [getPosts]. *)
Definition query_limit (req : Req.t) : Z :=
  JS.or_number (JS.parseInt (Req.field "limit" (Req.query req))) 20.

Definition query_offset (req : Req.t) : Z :=
  JS.or_number (JS.parseInt (Req.field "offset" (Req.query req))) 0.

Definition page (s : Store) (limit offset : Z) : list Post.t :=
  firstn (Z.to_nat limit)
    (skipn (Z.to_nat offset) (orderBy_desc Post.createdAt (posts s))).

Definition fetch_failed : Res.t := status_message 500 "Failed to fetch posts".

Lemma In_firstn {A} (n : nat) (l : list A) (x : A) :
  In x (firstn n l) -> In x l.
Proof.
  intros H. rewrite <- (firstn_skipn n l). apply in_or_app. now left.
Qed.

Lemma In_skipn {A} (n : nat) (l : list A) (x : A) :
  In x (skipn n l) -> In x l.
Proof.
  intros H. rewrite <- (firstn_skipn n l). apply in_or_app. now right.
Qed.

(** The posts [getPosts] returns: all from the offset on for a negative
    limit, the page otherwise. *)
Definition listed (s : Store) (limit offset : Z) : list Post.t :=
  let rows := skipn (Z.to_nat offset) (orderBy_desc Post.createdAt (posts s)) in
  if limit <? 0 then rows else firstn (Z.to_nat limit) rows.

Lemma get_posts_eq (schema : PostInput.t -> option InsertPost.t) (now : Z)
    (req : Req.t) (s : Store) :
  registerRoutes storage schema now GET_posts req s =
  if (max_bigint <? query_limit req) || (max_bigint <? query_offset req)
     || (query_offset req <? 0)
  then Ok fetch_failed s
  else Ok (json (JPosts (map (enriched s)
                             (listed s (query_limit req) (query_offset req))))) s.
Proof.
  unfold registerRoutes, route, get_posts, try_catch.
  fold (query_limit req) (query_offset req).
  unfold bind at 1. simpl IStorage.getPosts.
  unfold DatabaseStorage.getPosts, DatabaseStorage.or_else, limit_offset,
    bind at 1, gets.
  destruct ((max_bigint <? query_limit req) || (max_bigint <? query_offset req));
    [reflexivity|].
  destruct (query_offset req <? 0); [reflexivity|].
  simpl orb. cbv iota beta zeta. unfold ret at 1. unfold bind at 1.
  fold (listed s (query_limit req) (query_offset req)).
  rewrite (mapM_pure _ _ s _ (with_data_eq s)). reflexivity.
Qed.

Lemma listed_page (s : Store) (limit offset : Z) :
  0 <= limit -> listed s limit offset = page s limit offset.
Proof.
  intros H. unfold listed, page.
  destruct (Z.ltb_spec limit 0); [lia | reflexivity].
Qed.

Lemma listed_In (s : Store) (limit offset : Z) (p : Post.t) :
  In p (listed s limit offset) -> In p (posts s).
Proof.
  unfold listed. intros H.
  destruct (limit <? 0); [|apply In_firstn in H];
    apply In_skipn in H; now apply orderBy_desc_In in H.
Qed.

Lemma listed_descending (s : Store) (limit offset : Z) :
  descending Post.createdAt (listed s limit offset).
Proof.
  unfold listed. destruct (limit <? 0); [|apply descending_firstn];
    apply descending_skipn, orderBy_desc_descending.
Qed.

Lemma page_length (s : Store) (limit offset : Z) :
  0 <= limit -> Z.of_nat (List.length (page s limit offset)) <= limit.
Proof.
  intros H. unfold page.
  pose proof (firstn_le_length (Z.to_nat limit)
    (skipn (Z.to_nat offset) (orderBy_desc Post.createdAt (posts s)))). lia.
Qed.

Lemma page_descending (s : Store) (limit offset : Z) :
  descending Post.createdAt (page s limit offset).
Proof.
  apply descending_firstn, descending_skipn, orderBy_desc_descending.
Qed.

Lemma page_In (s : Store) (limit offset : Z) (p : Post.t) :
  In p (page s limit offset) -> In p (posts s).
Proof.
  intros H. apply In_firstn, In_skipn in H. now apply orderBy_desc_In in H.
Qed.

Lemma map_post_enriched (s : Store) (l : list Post.t) :
  map PostWithData.post (map (enriched s) l) = l.
Proof.
  rewrite map_map. simpl. apply map_id.
Qed.

(** C5 as the claim states it: for every limit given in the query, the list
    [GET /posts] returns has at most that many posts. *)
Definition at_most_limit_for_every_limit : Prop :=
  forall (now : Z) (req : Req.t) (s : Store) (n : Z),
    JS.parseInt (Req.field "limit" (Req.query req)) = Some n ->
    forall l s',
      app now GET_posts req s = Ok (json (JPosts l)) s' ->
      Z.of_nat (List.length l) <= n.

Definition request_limit_zero : Req.t :=
  Req.mk None [] [("limit", "0")]%string [] None.

(** C5, counterexample: [?limit=0] is read as the default 20, so a store
    with one post answers with one post. *)
Lemma limit_zero_returns_posts : ~ at_most_limit_for_every_limit.
Proof.
  intros H.
  specialize (H 0 request_limit_zero store_with_liked_post 0 eq_refl
                _ _ eq_refl).
  vm_compute in H. apply H. reflexivity.
Qed.

(** C5, amended.  [GET /posts] reads its limit and its offset from the query
    with [parseInt(..) || default]: a parameter that is absent, does not
    parse, or parses to 0 gives the default (limit 20, offset 0); any other
    parsed number is taken as it is.  For an offset from 0 to 2^53:
    with a limit from 0 to 2^53 the answer lists the posts in descending
    order of creation time, without the first [offset] of them and cut
    after [limit] -- at most [limit] posts, for every limit from 1 to 2^53;
    a negative limit cuts nothing, all the posts after the offset are
    listed; a limit beyond 2^63 - 1 is answered 500. *)
Theorem get_posts_page
    (schema : PostInput.t -> option InsertPost.t) (now : Z)
    (req : Req.t) (s : Store) :
  0 <= query_offset req <= JS.max_exact ->
  (query_limit req <= JS.max_exact ->
   exists l,
     registerRoutes storage schema now GET_posts req s
       = Ok (json (JPosts l)) s /\
     map PostWithData.post l = listed s (query_limit req) (query_offset req) /\
     descending Post.createdAt (map PostWithData.post l) /\
     (forall p, In p (map PostWithData.post l) -> In p (posts s)) /\
     (0 <= query_limit req ->
      map PostWithData.post l = page s (query_limit req) (query_offset req) /\
      Z.of_nat (List.length l) <= query_limit req) /\
     (query_limit req < 0 ->
      map PostWithData.post l
      = skipn (Z.to_nat (query_offset req))
              (orderBy_desc Post.createdAt (posts s)))) /\
  (max_bigint < query_limit req ->
   registerRoutes storage schema now GET_posts req s = Ok fetch_failed s) /\
  Res.status fetch_failed = 500 /\
  (Req.field "limit" (Req.query req) = None -> query_limit req = 20) /\
  (Req.field "offset" (Req.query req) = None -> query_offset req = 0) /\
  (forall n, JS.parseInt (Req.field "limit" (Req.query req)) = Some n ->
             query_limit req = if n =? 0 then 20 else n) /\
  (forall k, JS.parseInt (Req.field "offset" (Req.query req)) = Some k ->
             query_offset req = k) /\
  (JS.parseInt (Req.field "limit" (Req.query req)) = None ->
   query_limit req = 20) /\
  (JS.parseInt (Req.field "offset" (Req.query req)) = None ->
   query_offset req = 0).
Proof.
  intros Ho.
  assert (Hko : (max_bigint <? query_offset req) = false)
    by (apply Z.ltb_ge; unfold max_bigint, JS.max_exact in *; lia).
  assert (Hneg : (query_offset req <? 0) = false) by (apply Z.ltb_ge; lia).
  split; [|split; [|split; [reflexivity|]]].
  - intros Hl.
    exists (map (enriched s) (listed s (query_limit req) (query_offset req))).
    rewrite get_posts_eq, Hko, Hneg.
    assert ((max_bigint <? query_limit req) = false) as ->
      by (apply Z.ltb_ge; unfold max_bigint, JS.max_exact in *; lia).
    rewrite map_post_enriched, length_map.
    split; [reflexivity|]. split; [reflexivity|].
    split; [apply listed_descending|].
    split; [apply listed_In|].
    split.
    + intros Hpos. rewrite listed_page by assumption.
      split; [reflexivity | now apply page_length].
    + intros Hlt. unfold listed.
      destruct (Z.ltb_spec (query_limit req) 0); [reflexivity | lia].
  - intros Hbig. rewrite get_posts_eq.
    assert ((max_bigint <? query_limit req) = true) as -> by now apply Z.ltb_lt.
    reflexivity.
  - unfold query_limit, query_offset, JS.or_number.
    repeat split.
    + now intros ->.
    + now intros ->.
    + now intros n ->.
    + intros k ->. destruct (Z.eqb_spec k 0); congruence.
    + now intros ->.
    + now intros ->.
Qed.

(** Three posts, a like, five comments on the newest post. *)
Definition store_with_feed : Store :=
  mkStore
    [User.mk "alice" (Some "alice"%string) None (Some false) (Some false)
             (Some false) None 100 100]
    [Post.mk 1 "alice" "I love #cats" "/uploads/a1" None 1000;
     Post.mk 2 "bob" "#cats are great" "/uploads/b1" None 3000;
     Post.mk 3 "alice" "#dogs too" "/uploads/a2" None 2000]
    [Like.mk "alice" 2; Like.mk "alice" 3]
    [Comment.mk 1 2 "alice" "first" 3100;
     Comment.mk 2 2 "alice" "second" 3200;
     Comment.mk 3 3 "bob" "woof" 3250;
     Comment.mk 4 2 "alice" "third" 3300;
     Comment.mk 5 2 "alice" "fourth" 3400;
     Comment.mk 6 2 "alice" "fifth" 3500]
    [] [] 4 7 1.

Definition request_page (limit offset : string) : Req.t :=
  Req.mk None [] [("limit"%string, limit); ("offset"%string, offset)] [] None.

Lemma get_posts_page_witness :
  exists l,
    app 5000 GET_posts (request_page "2" "1") store_with_feed
      = Ok (json (JPosts l)) store_with_feed /\
    map PostWithData.post l =
      [Post.mk 3 "alice" "#dogs too" "/uploads/a2" None 2000;
       Post.mk 1 "alice" "I love #cats" "/uploads/a1" None 1000].
Proof.
  destruct (proj1 (get_posts_page insertPostSchema 5000 (request_page "2" "1")
                     store_with_feed
                     ltac:(vm_compute; split; discriminate))
              ltac:(vm_compute; discriminate))
    as (l & Hrun & Hpage & _).
  exists l. split; [exact Hrun | exact Hpage].
Defined.

(** With [?limit=-1] the whole feed is listed. *)
Example negative_limit_lists_all :
  exists l,
    app 5000 GET_posts (request_page "-1" "0") store_with_feed
      = Ok (json (JPosts l)) store_with_feed /\
    map Post.id (map PostWithData.post l) = [2; 3; 1].
Proof. eexists. split; reflexivity. Qed.

Lemma comments_of_In (s : Store) (postId : Z) (c : Comment.t) :
  In c (comments_of s postId) <->
  In c (comments s) /\ Comment.postId c = postId.
Proof.
  unfold comments_of. rewrite orderBy_desc_In, filter_In, Z.eqb_eq. reflexivity.
Qed.

Lemma comments_of_count (s : Store) (postId : Z) :
  count (comments_of s postId)
  = count (filter (fun c => Comment.postId c =? postId) (comments s)).
Proof.
  unfold count, comments_of. now rewrite orderBy_desc_length.
Qed.

(** C6. For an offset from 0 to 2^53 and a limit up to 2^53, the answer of
    [GET /posts] has one entry for each post [getPosts] lists, in that
    order, and every entry carries: the first user row whose id is the
    post's [userId] (nothing when there is none); the number of Like rows
    of the post; the number of all Comment rows of the post; and the first
    three of the post's comments in descending order of creation time --
    at most three, all of them comments of the post, newest first, and no
    comment of the post left out is more recent than one that is shown. *)
Theorem get_posts_enrichment
    (schema : PostInput.t -> option InsertPost.t) (now : Z)
    (req : Req.t) (s : Store) :
  0 <= query_offset req <= JS.max_exact ->
  query_limit req <= JS.max_exact ->
  exists l,
    registerRoutes storage schema now GET_posts req s = Ok (json (JPosts l)) s /\
    map PostWithData.post l = listed s (query_limit req) (query_offset req) /\
    forall pw, In pw l ->
      let post := PostWithData.post pw in
      PostWithData.user pw
        = hd_error (filter (fun u => String.eqb (User.id u) (Post.userId post))
                           (users s)) /\
      DatabaseStorage.getUser (Post.userId post) s
        = Ok (PostWithData.user pw) s /\
      (forall u, PostWithData.user pw = Some u ->
                 In u (users s) /\ User.id u = Post.userId post) /\
      DatabaseStorage.getLikeCount (Post.id post) s
        = Ok (PostWithData.likeCount pw) s /\
      PostWithData.likeCount pw
        = count (filter (fun l => Like.postId l =? Post.id post) (likes s)) /\
      PostWithData.commentCount pw
        = count (filter (fun c => Comment.postId c =? Post.id post)
                        (comments s)) /\
      (exists all,
          DatabaseStorage.getCommentsByPostId (Post.id post) s = Ok all s /\
          PostWithData.comments pw = firstn 3 all) /\
      (List.length (PostWithData.comments pw) <= 3)%nat /\
      descending Comment.createdAt (PostWithData.comments pw) /\
      (forall c, In c (PostWithData.comments pw) ->
                 In c (comments s) /\ Comment.postId c = Post.id post) /\
      (forall c, In c (comments s) -> Comment.postId c = Post.id post ->
                 In c (PostWithData.comments pw) \/
                 forall shown, In shown (PostWithData.comments pw) ->
                               Comment.createdAt c <= Comment.createdAt shown).
Proof.
  intros Ho Hl.
  exists (map (enriched s) (listed s (query_limit req) (query_offset req))).
  rewrite get_posts_eq.
  assert ((max_bigint <? query_limit req) = false) as ->
    by (apply Z.ltb_ge; unfold max_bigint, JS.max_exact in *; lia).
  assert ((max_bigint <? query_offset req) = false) as ->
    by (apply Z.ltb_ge; unfold max_bigint, JS.max_exact in *; lia).
  assert ((query_offset req <? 0) = false) as -> by (apply Z.ltb_ge; lia).
  split; [reflexivity|].
  split; [apply map_post_enriched|].
  intros pw Hpw. apply in_map_iff in Hpw. destruct Hpw as (p & <- & _).
  cbv zeta. unfold enriched.
  cbn [PostWithData.post PostWithData.user PostWithData.likeCount
       PostWithData.commentCount PostWithData.comments].
  split; [reflexivity|].
  split; [reflexivity|].
  split.
  { intros u Hu.
    destruct (filter (fun u0 => String.eqb (User.id u0) (Post.userId p))
                     (users s)) as [|u0 rest] eqn:E; [discriminate|].
    injection Hu as ->.
    assert (Hin : In u (filter (fun u0 => String.eqb (User.id u0)
                                  (Post.userId p)) (users s)))
      by (rewrite E; now left).
    apply filter_In in Hin. destruct Hin as [Hin Heq].
    apply String.eqb_eq in Heq. now split. }
  split; [reflexivity|]. split; [reflexivity|].
  split; [apply comments_of_count|].
  split; [exists (comments_of s (Post.id p)); split; reflexivity|].
  split; [apply firstn_le_length|].
  split; [apply descending_firstn, orderBy_desc_descending|].
  split.
  - intros c Hc. apply In_firstn in Hc. now apply comments_of_In in Hc.
  - intros c Hc Hid.
    assert (Hin : In c (comments_of s (Post.id p)))
      by (apply comments_of_In; now split).
    rewrite <- (firstn_skipn 3 (comments_of s (Post.id p))) in Hin.
    apply in_app_or in Hin. destruct Hin as [Hin|Hin]; [now left|].
    right. intros shown Hshown.
    apply (descending_firstn_top Comment.createdAt 3 (comments_of s (Post.id p)));
      [apply orderBy_desc_descending | assumption | assumption].
Qed.

(** The second and third posts of the feed, both by alice, who has a row. *)
Lemma get_posts_enrichment_witness :
  exists l,
    app 5000 GET_posts (request_page "2" "1") store_with_feed
      = Ok (json (JPosts l)) store_with_feed /\
    map PostWithData.post l =
      [Post.mk 3 "alice" "#dogs too" "/uploads/a2" None 2000;
       Post.mk 1 "alice" "I love #cats" "/uploads/a1" None 1000] /\
    map PostWithData.user l
      = map (fun _ => hd_error (users store_with_feed)) l /\
    map PostWithData.likeCount l = [1; 0] /\
    map PostWithData.commentCount l = [1; 0].
Proof.
  destruct (get_posts_enrichment insertPostSchema 5000 (request_page "2" "1")
              store_with_feed ltac:(vm_compute; split; discriminate)
              ltac:(vm_compute; discriminate))
    as (l & Hrun & Hposts & Hall).
  exists l. split; [exact Hrun|]. split; [exact Hposts|].
  change (listed store_with_feed _ _)
    with [Post.mk 3 "alice" "#dogs too" "/uploads/a2" None 2000;
          Post.mk 1 "alice" "I love #cats" "/uploads/a1" None 1000] in Hposts.
  destruct l as [|a [|b [|c l]]]; try discriminate Hposts.
  injection Hposts as Ha Hb.
  destruct (Hall a (or_introl eq_refl)) as (Ua & _ & _ & _ & La & Ca & _).
  destruct (Hall b (or_intror (or_introl eq_refl)))
    as (Ub & _ & _ & _ & Lb & Cb & _).
  cbv zeta in *. rewrite Ha in Ua, La, Ca. rewrite Hb in Ub, Lb, Cb.
  simpl map. rewrite Ua, Ub, La, Lb, Ca, Cb. repeat split.
Defined.

(** The newest post of the feed has five comments and shows its last three. *)
Example feed_newest_post :
  app 5000 GET_posts (request_page "1" "0") store_with_feed
  = Ok (json (JPosts
      [PostWithData.mk
         (Post.mk 2 "bob" "#cats are great" "/uploads/b1" None 3000)
         None 1 5
         [Comment.mk 6 2 "alice" "fifth" 3500;
          Comment.mk 5 2 "alice" "fourth" 3400;
          Comment.mk 4 2 "alice" "third" 3300]]))
       store_with_feed.
Proof. reflexivity. Qed.

(** ** Stories *)

(** The stories [getActiveStories] selects at time [now], newest first. *)
Definition active_stories (s : Store) (now : Z) : list Story.t :=
  orderBy_desc Story.createdAt
    (filter (fun st => now <? Story.expiresAt st) (stories s)).

Definition with_user (s : Store) (story : Story.t) : StoryWithUser.t :=
  StoryWithUser.mk story
    (hd_error (filter (fun u => String.eqb (User.id u) (Story.userId story))
                      (users s))).

Lemma get_stories_eq (schema : PostInput.t -> option InsertPost.t) (now : Z)
    (req : Req.t) (s : Store) :
  registerRoutes storage schema now GET_stories req s
  = Ok (json (JStories (map (with_user s) (active_stories s now)))) s.
Proof.
  unfold registerRoutes, route, get_stories, try_catch.
  unfold bind at 1. simpl IStorage.getActiveStories.
  unfold DatabaseStorage.getActiveStories, gets.
  fold (active_stories s now). unfold bind at 1.
  rewrite (mapM_pure _ (with_user s) s); reflexivity.
Qed.

Lemma active_stories_In (s : Store) (now : Z) (y : Story.t) :
  In y (active_stories s now) <-> In y (stories s) /\ now < Story.expiresAt y.
Proof.
  unfold active_stories. rewrite orderBy_desc_In, filter_In, Z.ltb_lt.
  reflexivity.
Qed.

(** C8. A story of the store whose [expiresAt] lies before [now] is not in
    the answer of [GET /stories] at time [now] -- the answer holds exactly
    the stories with [expiresAt] strictly after [now], newest first, each
    with the user row of its [userId] -- and the sweep at time [now] removes
    it from the store, keeping exactly the stories that have not expired. *)
Theorem expired_story_hidden_and_swept
    (schema : PostInput.t -> option InsertPost.t) (now : Z)
    (req : Req.t) (s : Store) (x : Story.t) :
  In x (stories s) -> Story.expiresAt x < now ->
  (exists l,
      registerRoutes storage schema now GET_stories req s
        = Ok (json (JStories l)) s /\
      ~ In x (map StoryWithUser.story l) /\
      (forall y, In y (map StoryWithUser.story l) <->
                 In y (stories s) /\ now < Story.expiresAt y) /\
      descending Story.createdAt (map StoryWithUser.story l) /\
      (forall sw, In sw l ->
         DatabaseStorage.getUser (Story.userId (StoryWithUser.story sw)) s
           = Ok (StoryWithUser.user sw) s)) /\
  (exists s',
      DatabaseStorage.deleteExpiredStories now s = Ok tt s' /\
      ~ In x (stories s') /\
      (forall y, In y (stories s') <->
                 In y (stories s) /\ now <= Story.expiresAt y)).
Proof.
  intros Hin Hexp. split.
  - exists (map (with_user s) (active_stories s now)).
    assert (Hmap : map StoryWithUser.story
                     (map (with_user s) (active_stories s now))
                   = active_stories s now)
      by (rewrite map_map; simpl; apply map_id).
    rewrite Hmap.
    split; [apply get_stories_eq|].
    split; [intros H; apply active_stories_In in H; lia|].
    split; [intros y; apply active_stories_In|].
    split; [apply orderBy_desc_descending|].
    intros sw Hsw. apply in_map_iff in Hsw. destruct Hsw as (y & <- & _).
    reflexivity.
  - eexists. split; [reflexivity|]. simpl.
    split.
    + intros H. apply filter_In in H. destruct H as [_ H].
      apply negb_true_iff, Z.ltb_ge in H. lia.
    + intros y. rewrite filter_In, negb_true_iff, Z.ltb_ge. reflexivity.
Qed.

(** At time 100000 the first story has expired, the second has not. *)
Definition store_with_stories : Store :=
  mkStore
    [User.mk "alice" (Some "alice"%string) None (Some false) (Some false)
             (Some false) None 100 100]
    [] [] [] []
    [Story.mk 1 "alice" "/uploads/s1" 1000 (1000 + day_ms);
     Story.mk 2 "alice" "/uploads/s2" 50000 (50000 + day_ms)]
    1 1 3.

Lemma expired_story_hidden_and_swept_witness :
  let x := Story.mk 1 "alice" "/uploads/s1" 1000 (1000 + day_ms) in
  let now := 20000 + day_ms in
  (exists l,
      app now GET_stories (request_page "" "") store_with_stories
        = Ok (json (JStories l)) store_with_stories /\
      ~ In x (map StoryWithUser.story l)) /\
  (exists s',
      DatabaseStorage.deleteExpiredStories now store_with_stories = Ok tt s' /\
      ~ In x (stories s')).
Proof.
  intros x now.
  destruct (expired_story_hidden_and_swept insertPostSchema now
              (request_page "" "") store_with_stories x
              (or_introl eq_refl) ltac:(vm_compute; reflexivity))
    as [(l & Hrun & Hout & _) (s' & Hsweep & Hgone & _)].
  split.
  - exists l. split; [exact Hrun | exact Hout].
  - exists s'. split; [exact Hsweep | exact Hgone].
Defined.

(** The row [createStory] inserts when the server reads the time [now]
    and the database the time [inserted]. *)
Definition new_story (s : Store) (now inserted : Z) (story : InsertStory.t)
    : Story.t :=
  Story.mk (stories_id_seq s) (InsertStory.userId story)
           (InsertStory.mediaUrl story) inserted (now + day_ms).

(** A call leaves the stories table and its key sequence as they were,
    deletes rows, or -- [createStory] only -- appends the new row and
    advances the sequence.  No call rewrites a row. *)
Lemma after_stories (now : Z) (op : Op) (s : Store) :
  (stories (after now op s) = stories s /\
   stories_id_seq (after now op s) = stories_id_seq s) \/
  (exists f, stories (after now op s) = filter f (stories s) /\
             stories_id_seq (after now op s) = stories_id_seq s) \/
  (exists story inserted,
      op = Call_createStory story inserted /\
      stories (after now op s) = stories s ++ [new_story s now inserted story] /\
      stories_id_seq (after now op s) = stories_id_seq s + 1).
Proof.
  destruct op;
    try (left; unfold_storage; simpl; split_ifs; split; reflexivity).
  - left. unfold after, call, discard, bind. rewrite toggleLike_eq.
    destruct (existsb _ (likes s)); split; reflexivity.
  - left. unfold after, call, discard, bind. rewrite toggleFollow_eq.
    destruct (existsb _ (follows s)); split; reflexivity.
  - right. right. exists story, inserted. repeat split; reflexivity.
  - right. left. eexists. split; reflexivity.
Qed.

(** The keys of the stories table are distinct and below the sequence. *)
Definition stories_wf (s : Store) : Prop :=
  (forall x, In x (stories s) -> Story.id x < stories_id_seq s) /\
  NoDup (map Story.id (stories s)).

Lemma NoDup_map_filter {A B} (g : A -> B) (f : A -> bool) (l : list A) :
  NoDup (map g l) -> NoDup (map g (filter f l)).
Proof.
  induction l as [|a l IH]; simpl; intros H; [constructor|].
  inversion H as [|? ? Hnotin Hnd]; subst.
  destruct (f a); simpl; [|now apply IH].
  constructor; [|now apply IH].
  intros Hin. apply Hnotin. apply in_map_iff in Hin.
  destruct Hin as (y & Hy & Hin). apply filter_In in Hin.
  apply in_map_iff. exists y. tauto.
Qed.

Lemma NoDup_map_eq {A B} (g : A -> B) (l : list A) (x y : A) :
  NoDup (map g l) -> In x l -> In y l -> g x = g y -> x = y.
Proof.
  induction l as [|a l IH]; simpl; intros Hnd Hx Hy Heq; [contradiction|].
  inversion Hnd as [|? ? Hnotin Hnd']; subst.
  destruct Hx as [->|Hx], Hy as [->|Hy].
  - reflexivity.
  - exfalso. apply Hnotin. rewrite Heq. now apply in_map.
  - exfalso. apply Hnotin. rewrite <- Heq. now apply in_map.
  - now apply IH.
Qed.

Lemma reachable_stories_wf (s : Store) : reachable s -> stories_wf s.
Proof.
  induction 1 as [|s now op _ [IHrows IHkeys]].
  - split; [intros x [] | constructor].
  - destruct (after_stories now op s)
      as [[E Eseq]|[[f [E Eseq]]|(story & inserted & _ & E & Eseq)]];
      unfold stories_wf; rewrite E, Eseq.
    + now split.
    + split; [|now apply NoDup_map_filter].
      intros x Hx. apply filter_In in Hx. now apply IHrows.
    + split.
      * intros x Hx. apply in_app_or in Hx. destruct Hx as [Hx|[<-|[]]].
        -- specialize (IHrows x Hx). lia.
        -- simpl. lia.
      * rewrite map_app. simpl.
        apply (Permutation_NoDup (l := stories_id_seq s :: map Story.id (stories s)));
          [apply Permutation_cons_append|].
        constructor; [|assumption].
        intros Hin. apply in_map_iff in Hin. destruct Hin as (y & Hy & Hin).
        specialize (IHrows y Hin). lia.
Qed.

(** C9 as the claim states it: the [expiresAt] of every story [createStory]
    returns is 24 hours after the creation time the story carries. *)
Definition expires_a_day_after_createdAt : Prop :=
  forall (now inserted : Z) (story : InsertStory.t) (s s' : Store)
         (st : Story.t),
    DatabaseStorage.createStory now inserted story s = Ok st s' ->
    Story.expiresAt st = Story.createdAt st + 24 * 60 * 60 * 1000.

(** C9, counterexample: the server reads its clock at 1000 and the database
    inserts the row at 1001; the story is created at 1001 and expires at
    86 401 000, one millisecond short of 24 hours later. *)
Lemma story_created_after_clock_read : ~ expires_a_day_after_createdAt.
Proof.
  intros H.
  specialize (H 1000 1001 (InsertStory.mk "alice" "/uploads/s1") empty_store
                _ _ eq_refl).
  vm_compute in H. discriminate H.
Qed.

Example story_lifetime_short :
  exists st s',
    DatabaseStorage.createStory 1000 1001 (InsertStory.mk "alice" "/uploads/s1")
                                empty_store = Ok st s' /\
    Story.createdAt st = 1001 /\
    Story.expiresAt st = 86401000 /\
    Story.expiresAt st - Story.createdAt st = 86399999.
Proof.
  exists (new_story empty_store 1000 1001 (InsertStory.mk "alice" "/uploads/s1")).
  eexists. split; [vm_compute; reflexivity|]. repeat split.
Qed.

(** C9, amended.  [createStory] reads the server's clock once and inserts a
    story whose [expiresAt] is exactly 24 hours (86 400 000 ms) after that
    reading; [createdAt] is the time the database inserts the row, so the
    story expires 24 hours after [createdAt] less the delay between the two
    readings, and exactly 24 hours after it only when they coincide.  No
    call of any storage operation changes a story afterwards: a stored row
    is either deleted or found again as it was, and the only new row is
    the one [createStory] inserts. *)
Theorem story_expiry_fixed :
  day_ms = 86400000 /\
  (forall now inserted story s,
      exists st s',
        DatabaseStorage.createStory now inserted story s = Ok st s' /\
        Story.expiresAt st = now + day_ms /\
        Story.createdAt st = inserted /\
        Story.expiresAt st = Story.createdAt st + day_ms - (inserted - now) /\
        (Story.expiresAt st = Story.createdAt st + day_ms <-> inserted = now) /\
        stories s' = stories s ++ [st]) /\
  (forall now op s y,
      In y (stories (after now op s)) ->
      In y (stories s) \/
      exists story inserted,
        op = Call_createStory story inserted /\
        y = new_story s now inserted story) /\
  (forall s now op x y,
      reachable s -> In x (stories s) -> In y (stories (after now op s)) ->
      Story.id y = Story.id x ->
      y = x /\ Story.expiresAt y = Story.expiresAt x).
Proof.
  assert (Hframe : forall now op s y,
      In y (stories (after now op s)) ->
      In y (stories s) \/
      exists story inserted,
        op = Call_createStory story inserted /\
        y = new_story s now inserted story).
  { intros now op s y Hy.
    destruct (after_stories now op s)
      as [[E _]|[[f [E _]]|(story & inserted & Hop & E & _)]]; rewrite E in Hy.
    - now left.
    - left. now apply filter_In in Hy.
    - apply in_app_or in Hy. destruct Hy as [Hy|[<-|[]]]; [now left|].
      right. now exists story, inserted. }
  split; [reflexivity|].
  split.
  { intros now inserted story s.
    exists (new_story s now inserted story),
      (bump_stories_id_seq
         (set_stories (fun t => t ++ [new_story s now inserted story]) s)).
    split; [reflexivity|]. split; [reflexivity|]. split; [reflexivity|].
    cbn [new_story Story.expiresAt Story.createdAt].
    split; [lia|]. split; [lia | reflexivity]. }
  split; [exact Hframe|].
  intros s now op x y Hs Hx Hy Hid.
  destruct (reachable_stories_wf s Hs) as [Hrows Hkeys].
  assert (y = x); [|now subst].
  destruct (Hframe now op s y Hy) as [Hold|(story & inserted & _ & ->)].
  - now apply (NoDup_map_eq Story.id (stories s)).
  - simpl in Hid. specialize (Hrows x Hx). lia.
Qed.

Lemma story_expiry_fixed_witness :
  let x := Story.mk 1 "alice" "/uploads/s1" 1001 86401000 in
  let s := after 1000 (Call_createStory (InsertStory.mk "alice" "/uploads/s1") 1001)
             empty_store in
  stories s = [x] /\
  stories (after 2000 Call_deleteExpiredStories s) = [x] /\
  (x = x /\ Story.expiresAt x = Story.expiresAt x).
Proof.
  intros x s. split; [reflexivity|]. split; [reflexivity|].
  apply (proj2 (proj2 (proj2 story_expiry_fixed))
               s 2000 Call_deleteExpiredStories x x).
  - apply reachable_call, reachable_empty.
  - left. reflexivity.
  - left. reflexivity.
  - reflexivity.
Defined.

(** ** Trending hashtags *)

(** The pieces of every caption, and those of them that are hashtags. *)
Definition all_tokens (s : Store) : list string :=
  flat_map (fun p => Pg.regexp_split_spaces false (Post.caption p)) (posts s).

Definition hashtag_tokens (s : Store) : list string :=
  filter Pg.starts_with_hashtag (all_tokens s).

(** The groups with their counts, most frequent first. *)
Definition ranking (s : Store) : list (string * Z) :=
  orderBy_desc snd (Pg.group_count (hashtag_tokens s)).

Definition to_hashtag (row : string * Z) : Hashtag.t :=
  Hashtag.mk (fst row) (snd row).

Lemma split_first_char (s : string) (toks : list string) (d : ascii)
    (r : string) :
  Pg.regexp_split_spaces false s = String d r :: toks ->
  exists s', s = String d s'.
Proof.
  destruct s as [|c s']; simpl; [discriminate|].
  destruct (Pg.is_space c); [discriminate|].
  destruct (Pg.regexp_split_spaces false s') as [|t ts]; intros H;
    injection H as -> _ _; now exists s'.
Qed.

(** A piece that is a hashtag comes from a caption that contains one: the
    [WHERE caption ~ '#\w+'] of the common table expression drops no
    hashtag. *)
Lemma split_hashtag_contains (s : string) :
  forall (in_run : bool) (tok : string),
    In tok (Pg.regexp_split_spaces in_run s) ->
    Pg.starts_with_hashtag tok = true ->
    Pg.contains_hashtag s = true.
Proof.
  induction s as [|c s' IH]; intros in_run tok Hin Htok.
  - simpl in Hin. destruct Hin as [<-|[]]. discriminate.
  - change (Pg.contains_hashtag (String c s'))
      with (Pg.starts_with_hashtag (String c s') || Pg.contains_hashtag s')%bool.
    apply orb_true_iff. simpl in Hin.
    destruct (Pg.is_space c).
    + right. destruct in_run.
      * now apply (IH true tok).
      * destruct Hin as [<-|Hin]; [discriminate | now apply (IH true tok)].
    + destruct (Pg.regexp_split_spaces false s') as [|t ts] eqn:E.
      * destruct Hin as [<-|[]]. discriminate.
      * destruct Hin as [<-|Hin].
        -- left. destruct t as [|d r]; [discriminate|].
           destruct (split_first_char s' ts d r E) as [s'' ->].
           exact Htok.
        -- right. apply (IH false tok); [|assumption].
           rewrite E. now right.
Qed.

Lemma filter_flat_map_guard {A B} (f : B -> bool) (g : A -> list B)
    (h : A -> bool) (l : list A) :
  (forall a, h a = false -> filter f (g a) = []) ->
  filter f (flat_map g (filter h l)) = filter f (flat_map g l).
Proof.
  intros H. induction l as [|a l IH]; simpl; [reflexivity|].
  rewrite filter_app. destruct (h a) eqn:E; simpl.
  - now rewrite filter_app, IH.
  - now rewrite (H a E), IH.
Qed.

Lemma hashtags_cte_tokens (s : Store) :
  filter Pg.starts_with_hashtag (DatabaseStorage.hashtags_cte s)
  = hashtag_tokens s.
Proof.
  unfold DatabaseStorage.hashtags_cte, hashtag_tokens, all_tokens.
  apply filter_flat_map_guard. intros p Hp.
  apply filter_none. intros tok Hin.
  destruct (Pg.starts_with_hashtag tok) eqn:E; [|reflexivity].
  rewrite (split_hashtag_contains _ false tok Hin E) in Hp. discriminate.
Qed.

Lemma getTrendingHashtags_eq (n : Z) (s : Store) :
  DatabaseStorage.getTrendingHashtags (Some n) s =
  if max_bigint <? n then Throw (SqlError "bigint out of range") s
  else if n <? 0 then Throw (SqlError "LIMIT must not be negative") s
  else Ok (map to_hashtag (firstn (Z.to_nat n) (ranking s))) s.
Proof.
  unfold DatabaseStorage.getTrendingHashtags, bind at 1, gets.
  rewrite hashtags_cte_tokens. fold (ranking s).
  unfold bind, sql_limit, DatabaseStorage.or_else.
  destruct (max_bigint <? n); [reflexivity|].
  destruct (n <? 0); reflexivity.
Qed.

(** The character classes of the query, by character code: a word
    character is a digit, a letter or the underscore; a space character
    is the blank or one of tab, line feed, vertical tab, form feed and
    carriage return. *)
Definition word_character (c : ascii) : Prop :=
  let n := N_of_ascii c in
  (48 <= n <= 57 \/ 65 <= n <= 90 \/ 97 <= n <= 122 \/ n = 95)%N.

Definition space_character (c : ascii) : Prop :=
  let n := N_of_ascii c in (n = 32 \/ 9 <= n <= 13)%N.

(** Every caption of the store is ASCII text. *)
Definition ascii_captions (s : Store) : Prop :=
  forall p, In p (posts s) -> Pg.ascii_text (Post.caption p) = true.

Lemma is_word_spec (c : ascii) : Pg.is_word c = true <-> word_character c.
Proof.
  unfold Pg.is_word, word_character, Pg.code.
  rewrite !orb_true_iff, !andb_true_iff, !N.leb_le, N.eqb_eq. tauto.
Qed.

Lemma is_space_spec (c : ascii) : Pg.is_space c = true <-> space_character c.
Proof.
  unfold Pg.is_space, space_character, Pg.code.
  rewrite !orb_true_iff, !andb_true_iff, !N.leb_le, N.eqb_eq. tauto.
Qed.

Lemma hashtag_shape (t : string) :
  Pg.starts_with_hashtag t = true ->
  exists c rest, t = String "#" (String c rest) /\ word_character c.
Proof.
  destruct t as [|a [|c rest]]; simpl; try discriminate.
  intros H. apply andb_true_iff in H. destruct H as [Ha Hc].
  apply N.eqb_eq in Ha. unfold Pg.code in Ha.
  exists c, rest. split; [|now apply is_word_spec].
  rewrite <- (ascii_N_embedding a), Ha. reflexivity.
Qed.

(** No piece of a split text holds a space character. *)
Lemma split_no_space (s : string) :
  forall in_run tok, In tok (Pg.regexp_split_spaces in_run s) ->
    forall c, In c (list_ascii_of_string tok) -> Pg.is_space c = false.
Proof.
  induction s as [|a s IH]; intros in_run tok Hin c Hc; simpl in Hin.
  - destruct Hin as [<-|[]]. contradiction.
  - destruct (Pg.is_space a) eqn:Ea.
    + destruct in_run.
      * now apply (IH true tok).
      * destruct Hin as [<-|Hin]; [contradiction | now apply (IH true tok)].
    + destruct (Pg.regexp_split_spaces false s) as [|t ts] eqn:E.
      * destruct Hin as [<-|[]]. destruct Hc as [<-|[]]. exact Ea.
      * destruct Hin as [<-|Hin].
        -- destruct Hc as [<-|Hc]; [exact Ea|].
           apply (IH false t); [rewrite E; now left | exact Hc].
        -- apply (IH false tok); [rewrite E; now right | exact Hc].
Qed.

Lemma token_no_space (s : Store) (t : string) :
  In t (all_tokens s) ->
  forall c, In c (list_ascii_of_string t) -> ~ space_character c.
Proof.
  intros Hin c Hc Hsp. unfold all_tokens in Hin. apply in_flat_map in Hin.
  destruct Hin as (p & _ & Htok).
  apply is_space_spec in Hsp.
  rewrite (split_no_space _ false t Htok c Hc) in Hsp. discriminate.
Qed.

(** Groups: one per distinct token, with the number of its occurrences. *)
Lemma distinct_In (l : list string) (t : string) :
  In t (Pg.distinct l) <-> In t l.
Proof.
  induction l as [|x l IH]; simpl; [reflexivity|].
  destruct (existsb (String.eqb x) l) eqn:E.
  - rewrite IH. split; [now right|].
    intros [<-|H]; [|assumption].
    apply existsb_exists in E. destruct E as (y & Hy & Heq).
    apply String.eqb_eq in Heq. now subst.
  - simpl. now rewrite IH.
Qed.

Lemma distinct_NoDup (l : list string) : NoDup (Pg.distinct l).
Proof.
  induction l as [|x l IH]; simpl; [constructor|].
  destruct (existsb (String.eqb x) l) eqn:E; [assumption|].
  constructor; [|assumption].
  rewrite distinct_In. intros Hin.
  assert (existsb (String.eqb x) l = true).
  { apply existsb_exists. exists x. split; [assumption | apply String.eqb_refl]. }
  congruence.
Qed.

Lemma group_count_In (l : list string) (t : string) (n : Z) :
  In (t, n) (Pg.group_count l) <-> In t l /\ n = Pg.occurrences t l.
Proof.
  unfold Pg.group_count. rewrite in_map_iff. split.
  - intros (x & Hx & Hin). injection Hx as -> <-.
    now rewrite distinct_In in Hin.
  - intros [Hin ->]. exists t. now rewrite distinct_In.
Qed.

Lemma group_count_tags (l : list string) :
  map fst (Pg.group_count l) = Pg.distinct l.
Proof.
  unfold Pg.group_count. rewrite map_map. simpl. apply map_id.
Qed.

Lemma occurrences_filter (f : string -> bool) (l : list string) (t : string) :
  f t = true -> Pg.occurrences t (filter f l) = Pg.occurrences t l.
Proof.
  intros Ht. unfold Pg.occurrences. f_equal.
  induction l as [|x l IH]; simpl; [reflexivity|].
  destruct (f x) eqn:E; simpl.
  - now rewrite IH.
  - rewrite IH. destruct (String.eqb_spec t x) as [->|_]; [congruence|reflexivity].
Qed.

Lemma occurrences_pos (l : list string) (t : string) :
  In t l -> 1 <= Pg.occurrences t l.
Proof.
  unfold Pg.occurrences, count. intros Hin.
  assert (In t (filter (String.eqb t) l))
    by (apply filter_In; split; [assumption | apply String.eqb_refl]).
  destruct (filter (String.eqb t) l); [contradiction | simpl; lia].
Qed.

Lemma perm_of_three {A} (a b c : A) (l : list A) :
  Permutation l [a; b; c] ->
  l = [a; b; c] \/ l = [a; c; b] \/ l = [b; a; c] \/
  l = [b; c; a] \/ l = [c; a; b] \/ l = [c; b; a].
Proof.
  intros H. pose proof (Permutation_length H) as Hlen.
  destruct l as [|x [|y [|z [|]]]]; try discriminate.
  assert (Hx : In x [a; b; c]) by (apply (Permutation_in _ H); now left).
  assert (two : forall u v, Permutation [y; z] [u; v] ->
                            [y; z] = [u; v] \/ [y; z] = [v; u]).
  { intros u v P. symmetry in P. now apply Permutation_length_2_inv in P. }
  destruct Hx as [<-|[<-|[<-|[]]]].
  - apply Permutation_cons_inv in H.
    destruct (two _ _ H) as [E|E]; injection E as -> ->; tauto.
  - assert (P : Permutation [y; z] [a; c]).
    { apply (Permutation_cons_inv (a := b)).
      rewrite H. apply perm_swap. }
    destruct (two _ _ P) as [E|E]; injection E as -> ->; tauto.
  - assert (P : Permutation [y; z] [a; b]).
    { apply (Permutation_cons_inv (a := c)).
      rewrite H. change [a; b; c] with ([a; b] ++ [c]).
      symmetry. apply Permutation_cons_append. }
    destruct (two _ _ P) as [E|E]; injection E as -> ->; tauto.
Qed.

(** The trending rows depend on the store through its captions only. *)
Definition trending_of_captions (n : nat) (captions : list string)
  : list Hashtag.t :=
  map to_hashtag
    (firstn n
       (orderBy_desc snd
          (Pg.group_count
             (filter Pg.starts_with_hashtag
                (flat_map (Pg.regexp_split_spaces false) captions))))).

Lemma trending_by_captions (n : nat) (s : Store) :
  map to_hashtag (firstn n (ranking s))
  = trending_of_captions n (map Post.caption (posts s)).
Proof.
  unfold trending_of_captions, ranking, hashtag_tokens, all_tokens.
  do 5 f_equal.
  induction (posts s) as [|p l IH]; simpl; [reflexivity | now rewrite IH].
Qed.

(** C7. On a store whose captions are ASCII text, [getTrendingHashtags(N)],
    for N from 0 to 2^53, returns rows [{tag, posts}] such that: every tag
    is a piece of some caption split on whitespace (it holds no space
    character) and matches the hashtag pattern (it starts with [#]
    followed by a word character: a digit, a letter or the underscore); no
    tag comes twice; the count of a tag is the number of its occurrences among
    the pieces of all captions; the rows are in descending order of count;
    there are at most N of them, and a hashtag that is left out occurs no
    more often than any returned one (then exactly N rows are returned).
    In particular, for a store whose posts have the captions
    "I love #cats", "#cats are great" and "#dogs too", in any order, the
    top 2 are #cats with count 2, then #dogs with count 1. *)
Theorem trending_hashtags_top_n (n : Z) (s : Store) :
  0 <= n <= JS.max_exact ->
  ascii_captions s ->
  (exists rows,
      DatabaseStorage.getTrendingHashtags (Some n) s = Ok rows s /\
      Z.of_nat (List.length rows) <= n /\
      (forall r, In r rows ->
         In (Hashtag.tag r) (all_tokens s) /\
         Pg.starts_with_hashtag (Hashtag.tag r) = true /\
         (exists c rest, Hashtag.tag r = String "#" (String c rest) /\
                         word_character c) /\
         (forall c, In c (list_ascii_of_string (Hashtag.tag r)) ->
                    ~ space_character c) /\
         Hashtag.posts r = Pg.occurrences (Hashtag.tag r) (all_tokens s) /\
         1 <= Hashtag.posts r) /\
      NoDup (map Hashtag.tag rows) /\
      descending Hashtag.posts rows /\
      (forall t, In t (all_tokens s) -> Pg.starts_with_hashtag t = true ->
         In t (map Hashtag.tag rows) \/
         (Z.of_nat (List.length rows) = n /\
          forall r, In r rows ->
                    Pg.occurrences t (all_tokens s) <= Hashtag.posts r))) /\
  (Permutation (map Post.caption (posts s))
     ["I love #cats"; "#cats are great"; "#dogs too"]%string ->
   DatabaseStorage.getTrendingHashtags (Some 2) s
   = Ok [Hashtag.mk "#cats" 2; Hashtag.mk "#dogs" 1] s).
Proof.
  intros Hn _. split.
  - exists (map to_hashtag (firstn (Z.to_nat n) (ranking s))).
    rewrite getTrendingHashtags_eq.
    destruct (Z.ltb_spec max_bigint n) as [?|_];
      [unfold max_bigint, JS.max_exact in *; lia|].
    destruct (Z.ltb_spec n 0) as [?|_]; [lia|].
    split; [reflexivity|].
    assert (Hrank : forall t k, In (t, k) (ranking s) <->
              In t (all_tokens s) /\ Pg.starts_with_hashtag t = true /\
              k = Pg.occurrences t (all_tokens s)).
    { intros t k. unfold ranking.
      rewrite orderBy_desc_In, group_count_In. unfold hashtag_tokens.
      rewrite filter_In. split.
      - intros [[Hin Ht] ->]. now rewrite occurrences_filter.
      - intros (Hin & Ht & ->). now rewrite occurrences_filter. }
    assert (Hsorted : descending snd (ranking s))
      by apply orderBy_desc_descending.
    split.
    { rewrite length_map.
      pose proof (firstn_le_length (Z.to_nat n) (ranking s)). lia. }
    split.
    { intros r Hr. apply in_map_iff in Hr. destruct Hr as ([t k] & <- & Hin).
      apply In_firstn, Hrank in Hin. destruct Hin as (Hin & Ht & ->). simpl.
      split; [assumption|]. split; [assumption|].
      split; [now apply hashtag_shape|].
      split; [now apply (token_no_space s t)|].
      split; [reflexivity | now apply occurrences_pos]. }
    split.
    { rewrite map_map. simpl.
      assert (Htags : NoDup (map fst (ranking s))).
      { apply (Permutation_NoDup
                 (l := map fst (Pg.group_count (hashtag_tokens s)))).
        - apply Permutation_map. symmetry. apply orderBy_desc_perm.
        - rewrite group_count_tags. apply distinct_NoDup. }
      rewrite <- (firstn_skipn (Z.to_nat n) (ranking s)), map_app in Htags.
      now apply NoDup_app_remove_r in Htags. }
    split.
    { apply (descending_firstn snd (Z.to_nat n)) in Hsorted.
      unfold descending in *.
      induction Hsorted as [|a l _ IH Ha]; simpl; constructor;
        [assumption|].
      rewrite Forall_forall in *. intros r Hr.
      apply in_map_iff in Hr. destruct Hr as (x & <- & Hx). simpl.
      now apply Ha. }
    intros t Hin Ht.
    assert (Hrow : In (t, Pg.occurrences t (all_tokens s)) (ranking s))
      by (apply Hrank; auto).
    rewrite <- (firstn_skipn (Z.to_nat n) (ranking s)) in Hrow.
    apply in_app_or in Hrow. destruct Hrow as [Hrow|Hrow].
    + left. rewrite map_map. simpl.
      apply in_map_iff. now exists (t, Pg.occurrences t (all_tokens s)).
    + right. split.
      * rewrite length_map.
        destruct (Nat.le_gt_cases (List.length (ranking s)) (Z.to_nat n))
          as [Hle|Hgt].
        -- rewrite skipn_all2 in Hrow by assumption. contradiction.
        -- rewrite length_firstn. lia.
      * intros r Hr. apply in_map_iff in Hr. destruct Hr as (x & <- & Hx).
        simpl.
        apply (descending_firstn_top snd (Z.to_nat n) (ranking s) Hsorted
                 x (t, Pg.occurrences t (all_tokens s)) Hx Hrow).
  - intros Hcaps. rewrite getTrendingHashtags_eq.
    change (max_bigint <? 2) with false. change (2 <? 0) with false. cbv iota.
    change (Z.to_nat 2) with 2%nat.
    rewrite (trending_by_captions 2 s).
    destruct (perm_of_three _ _ _ _ Hcaps) as [E|[E|[E|[E|[E|E]]]]];
      rewrite E; reflexivity.
Qed.

(** The store of the feed has exactly the three captions. *)
Lemma trending_hashtags_top_n_witness :
  DatabaseStorage.getTrendingHashtags (Some 2) store_with_feed
  = Ok [Hashtag.mk "#cats" 2; Hashtag.mk "#dogs" 1] store_with_feed.
Proof.
  apply (proj2 (trending_hashtags_top_n 2 store_with_feed
                  ltac:(vm_compute; split; discriminate)
                  ltac:(intros p [<-|[<-|[<-|[]]]]; reflexivity))).
  apply Permutation_refl.
Defined.

(** * Further properties of the storage operations and the handlers *)

(** ** Users: upsert and lookup *)

Definition has_id (id : string) (u : User.t) : bool := String.eqb (User.id u) id.

(** An update that keeps the selected rows selected: selecting after the
    update gives the updated rows. *)
Lemma filter_map_update {A} (p : A -> bool) (f : A -> A) (l : list A) :
  (forall a, p a = true -> p (f a) = true) ->
  filter p (map (fun a => if p a then f a else a) l) = map f (filter p l).
Proof.
  intros Hp. induction l as [|a l IH]; simpl; [reflexivity|].
  destruct (p a) eqn:E; simpl.
  - now rewrite (Hp a E), IH.
  - now rewrite E, IH.
Qed.

Lemma map_update_none {A} (p : A -> bool) (f : A -> A) (l : list A) :
  existsb p l = false -> map (fun a => if p a then f a else a) l = l.
Proof.
  induction l as [|a l IH]; simpl; [reflexivity|].
  intros H. apply orb_false_iff in H. destruct H as [Ha Hl].
  now rewrite Ha, (IH Hl).
Qed.

Lemma filter_existsb_false {A} (p : A -> bool) (l : list A) :
  existsb p l = false -> filter p l = [].
Proof.
  intros H. apply filter_none. intros x Hx.
  destruct (p x) eqn:E; [|reflexivity].
  assert (existsb p l = true) by (apply existsb_exists; eauto). congruence.
Qed.

Lemma hd_filter_existsb {A} (p : A -> bool) (l : list A) :
  existsb p l = true -> exists a, hd_error (filter p l) = Some a /\ In a l /\ p a = true.
Proof.
  induction l as [|a l IH]; simpl; [discriminate|].
  destruct (p a) eqn:E; simpl.
  - intros _. exists a. auto.
  - intros H. destruct (IH H) as (b & Hb & Hin & Hpb). exists b. auto.
Qed.

Lemma getUser_eq (id : string) (s : Store) :
  DatabaseStorage.getUser id s = Ok (hd_error (filter (has_id id) (users s))) s.
Proof. reflexivity. Qed.

(** The row [upsertUser] writes over an existing row [u], and the row it
    inserts when the key is new. *)
Definition upsert_update (now : Z) (userData : UpsertUser.t) (u : User.t) : User.t :=
  DatabaseStorage.set_columns
    (DatabaseStorage.with_updatedAt now
       (DatabaseStorage.with_id (UpsertUser.id userData)
                                (UpsertUser.data userData))) u.

Definition upsert_insert (now : Z) (userData : UpsertUser.t) : User.t :=
  DatabaseStorage.set_columns
    (DatabaseStorage.with_id (UpsertUser.id userData) (UpsertUser.data userData))
    (DatabaseStorage.default_user now (UpsertUser.id userData)).

Lemma upsertUser_eq (now : Z) (userData : UpsertUser.t) (s : Store) :
  let id := UpsertUser.id userData in
  DatabaseStorage.upsertUser now userData s =
  if existsb (has_id id) (users s)
  then Ok (hd_error (map (upsert_update now userData)
                         (filter (has_id id) (users s))))
          (set_users (map (fun u => if has_id id u
                                    then upsert_update now userData u
                                    else u)) s)
  else Ok (Some (upsert_insert now userData))
          (set_users (fun t => t ++ [upsert_insert now userData]) s).
Proof.
  intros id. unfold DatabaseStorage.upsertUser, bind at 1, gets.
  fold id. change (fun u => String.eqb (User.id u) id) with (has_id id).
  destruct (existsb (has_id id) (users s)); reflexivity.
Qed.

(** The columns [data] gives are the columns of [row]. *)
Definition carries (data : PartialUser.t) (row : User.t) : Prop :=
  (forall v, PartialUser.username data = Some v -> User.username row = v) /\
  (forall v, PartialUser.bio data = Some v -> User.bio row = v) /\
  (forall v, PartialUser.isAdmin data = Some v -> User.isAdmin row = v) /\
  (forall v, PartialUser.isVerified data = Some v -> User.isVerified row = v) /\
  (forall v, PartialUser.isBanned data = Some v -> User.isBanned row = v) /\
  (forall v, PartialUser.bannedReason data = Some v ->
             User.bannedReason row = v) /\
  (forall v, PartialUser.createdAt data = Some v -> User.createdAt row = v).

Lemma set_columns_carries (d : PartialUser.t) (u : User.t) :
  carries d (DatabaseStorage.set_columns d u).
Proof.
  unfold carries, DatabaseStorage.set_columns. simpl.
  repeat split; intros v ->; reflexivity.
Qed.

Lemma hd_map {A B} (f : A -> B) (l : list A) :
  hd_error (map f l) = option_map f (hd_error l).
Proof. destruct l; reflexivity. Qed.

Lemma upsert_update_id (now : Z) (userData : UpsertUser.t) (u : User.t) :
  User.id (upsert_update now userData u) = UpsertUser.id userData.
Proof. reflexivity. Qed.

Lemma has_id_true (id : string) (u : User.t) : has_id id u = true <-> User.id u = id.
Proof. apply String.eqb_eq. Qed.

(** Rewriting the rows of key [id] without changing their key leaves the
    selection of another key as it was. *)
Lemma filter_other_key (id id' : string) (f : User.t -> User.t) (l : list User.t) :
  id' <> id -> (forall u, User.id (f u) = id) ->
  filter (has_id id') (map (fun u => if has_id id u then f u else u) l)
  = filter (has_id id') l.
Proof.
  intros Hne Hf. induction l as [|u l IH]; simpl; [reflexivity|].
  rewrite IH. destruct (has_id id u) eqn:E.
  - apply has_id_true in E.
    assert (has_id id' (f u) = false) as ->
      by (apply String.eqb_neq; rewrite Hf; congruence).
    assert (has_id id' u = false) as ->
      by (apply String.eqb_neq; congruence).
    reflexivity.
  - reflexivity.
Qed.

Lemma map_id_update (id : string) (f : User.t -> User.t) (l : list User.t) :
  (forall u, User.id (f u) = id) ->
  map User.id (map (fun u => if has_id id u then f u else u) l) = map User.id l.
Proof.
  intros Hf. induction l as [|u l IH]; simpl; [reflexivity|].
  rewrite IH. destruct (has_id id u) eqn:E; [|reflexivity].
  apply has_id_true in E. now rewrite Hf, E.
Qed.

(** X1. [upsertUser] followed by [getUser] of the same id: the upsert always
    returns a row, the row has the given id and every column the data
    supplies, and [getUser] then returns that very row.  When a row with
    the id existed it is the old row overwritten (with [updatedAt] set to
    the clock and the table keeping its length); otherwise it is appended.
    No other table changes. *)
Theorem upsertUser_then_getUser (now : Z) (userData : UpsertUser.t) (s : Store) :
  let id := UpsertUser.id userData in
  exists row s',
    DatabaseStorage.upsertUser now userData s = Ok (Some row) s' /\
    DatabaseStorage.getUser id s' = Ok (Some row) s' /\
    User.id row = id /\
    carries (UpsertUser.data userData) row /\
    set_users (fun _ => users s) s' = s /\
    ((exists old,
         DatabaseStorage.getUser id s = Ok (Some old) s /\
         row = upsert_update now userData old /\
         User.updatedAt row = now /\
         List.length (users s') = List.length (users s)) \/
     (DatabaseStorage.getUser id s = Ok None s /\
      users s' = users s ++ [row])).
Proof.
  intros id. rewrite upsertUser_eq. fold id.
  destruct (existsb (has_id id) (users s)) eqn:E.
  - destruct (hd_filter_existsb _ _ E) as (old & Hold & _ & _).
    exists (upsert_update now userData old). eexists.
    split; [now rewrite hd_map, Hold|].
    split.
    { rewrite getUser_eq. simpl users.
      rewrite filter_map_update by (intros a _; apply String.eqb_refl).
      now rewrite hd_map, Hold. }
    split; [reflexivity|].
    split; [exact (set_columns_carries _ old)|].
    split; [now destruct s|].
    left. exists old. rewrite getUser_eq, Hold.
    repeat split. simpl. apply length_map.
  - exists (upsert_insert now userData). eexists.
    split; [reflexivity|].
    split.
    { rewrite getUser_eq. simpl users.
      rewrite filter_app, (filter_existsb_false _ _ E). simpl.
      unfold has_id at 1. simpl. now rewrite String.eqb_refl. }
    split; [reflexivity|].
    split; [exact (set_columns_carries _ _)|].
    split; [now destruct s|].
    right. rewrite getUser_eq, (filter_existsb_false _ _ E). split; reflexivity.
Qed.

(** X2. [upsertUser] keeps the user keys unique and touches one key only:
    if no two rows share an id before, none do after, and [getUser] of any
    other id answers as before. *)
Theorem upsertUser_keeps_keys (now : Z) (userData : UpsertUser.t) (s : Store) :
  NoDup (map User.id (users s)) ->
  exists r s',
    DatabaseStorage.upsertUser now userData s = Ok r s' /\
    NoDup (map User.id (users s')) /\
    forall id', id' <> UpsertUser.id userData ->
      exists v, DatabaseStorage.getUser id' s = Ok v s /\
                DatabaseStorage.getUser id' s' = Ok v s'.
Proof.
  intros Hnd. rewrite upsertUser_eq.
  destruct (existsb (has_id (UpsertUser.id userData)) (users s)) eqn:E.
  - eexists. eexists. split; [reflexivity|]. simpl users. split.
    + now rewrite map_id_update by (intro; reflexivity).
    + intros id' Hne. eexists. rewrite !getUser_eq. simpl users.
      rewrite filter_other_key by (assumption || (intro; reflexivity)).
      split; reflexivity.
  - eexists. eexists. split; [reflexivity|]. simpl users. split.
    + rewrite map_app. simpl.
      apply (Permutation_NoDup
               (l := UpsertUser.id userData :: map User.id (users s)));
        [apply Permutation_cons_append|].
      constructor; [|assumption].
      intros Hin. apply in_map_iff in Hin. destruct Hin as (u & Hu & Hin).
      assert (existsb (has_id (UpsertUser.id userData)) (users s) = true).
      { apply existsb_exists. exists u. split; [assumption|].
        now apply has_id_true. }
      congruence.
    + intros id' Hne. eexists. rewrite !getUser_eq. simpl users.
      rewrite filter_app. simpl.
      assert (has_id id' (upsert_insert now userData) = false) as ->
        by (apply String.eqb_neq; simpl; congruence).
      rewrite app_nil_r. split; reflexivity.
Qed.

Definition alice_signs_in : UpsertUser.t :=
  UpsertUser.mk "alice"
    (PartialUser.mk None (Some (Some "alice2"%string)) None None None None None
                    None None).

Lemma upsertUser_keeps_keys_witness :
  exists r s',
    DatabaseStorage.upsertUser 900 alice_signs_in store_with_admin = Ok r s' /\
    NoDup (map User.id (users s')).
Proof.
  destruct (upsertUser_keeps_keys 900 alice_signs_in store_with_admin
              ltac:(simpl; nodup_rows)) as (r & s' & Hrun & Hnd & _).
  exists r, s'. split; [exact Hrun | exact Hnd].
Defined.

(** ** Users: the moderation flags *)

(** The six operations that set one flag of a user. *)
Inductive FlagOp :=
| Ban (reason : string) | Unban | Verify | Unverify | MakeAdmin | RemoveAdmin.

Definition run_flag (now : Z) (op : FlagOp) (userId : string)
  : M (option User.t) :=
  match op with
  | Ban reason => DatabaseStorage.banUser now userId reason
  | Unban => DatabaseStorage.unbanUser now userId
  | Verify => DatabaseStorage.verifyUser now userId
  | Unverify => DatabaseStorage.unverifyUser now userId
  | MakeAdmin => DatabaseStorage.makeAdmin now userId
  | RemoveAdmin => DatabaseStorage.removeAdmin now userId
  end.

(** The row after the operation, column by column. *)
Definition flagged (now : Z) (op : FlagOp) (u : User.t) : User.t :=
  User.mk (User.id u) (User.username u) (User.bio u)
    (match op with
     | MakeAdmin => Some true | RemoveAdmin => Some false
     | _ => User.isAdmin u
     end)
    (match op with
     | Verify => Some true | Unverify => Some false
     | _ => User.isVerified u
     end)
    (match op with
     | Ban _ => Some true | Unban => Some false
     | _ => User.isBanned u
     end)
    (match op with
     | Ban reason => Some reason | Unban => None
     | _ => User.bannedReason u
     end)
    (User.createdAt u) now.

Lemma run_flag_eq (now : Z) (op : FlagOp) (userId : string) (s : Store) :
  run_flag now op userId s =
  Ok (hd_error (map (flagged now op) (filter (has_id userId) (users s))))
     (set_users (map (fun u => if has_id userId u then flagged now op u else u))
                s).
Proof. destruct op; reflexivity. Qed.

Lemma flagged_id (now : Z) (op : FlagOp) (u : User.t) :
  User.id (flagged now op u) = User.id u.
Proof. reflexivity. Qed.

Lemma has_id_flagged (now : Z) (op : FlagOp) (id : string) (u : User.t) :
  has_id id (flagged now op u) = has_id id u.
Proof. reflexivity. Qed.

Lemma filter_other_key_flagged (now : Z) (op : FlagOp) (id id' : string)
    (l : list User.t) :
  filter (has_id id') (map (fun u => if has_id id u then flagged now op u else u) l)
  = map (fun u => if has_id id u then flagged now op u else u)
        (filter (has_id id') l).
Proof.
  induction l as [|u l IH]; simpl; [reflexivity|].
  rewrite IH.
  destruct (has_id id u) eqn:E, (has_id id' u) eqn:E'; simpl;
    rewrite ?has_id_flagged, ?E, ?E'; reflexivity.
Qed.

(** X3. Each of [banUser], [unbanUser], [verifyUser], [unverifyUser],
    [makeAdmin] and [removeAdmin] returns the row [getUser] found for the id,
    with its own flag set ([banUser] also stores the reason, [unbanUser]
    clears it), [updatedAt] set to the clock and every other column kept;
    [getUser] afterwards returns that row; the rows of other ids and the
    other tables are untouched.  For an id without a row the operation
    returns nothing and leaves the store as it was. *)
Theorem flag_operation_effect (now : Z) (op : FlagOp) (userId : string)
    (s : Store) :
  exists old r s',
    DatabaseStorage.getUser userId s = Ok old s /\
    run_flag now op userId s = Ok r s' /\
    r = option_map (flagged now op) old /\
    DatabaseStorage.getUser userId s' = Ok r s' /\
    (forall id', id' <> userId ->
       exists v, DatabaseStorage.getUser id' s = Ok v s /\
                 DatabaseStorage.getUser id' s' = Ok v s') /\
    set_users (fun _ => users s) s' = s /\
    (old = None -> s' = s).
Proof.
  exists (hd_error (filter (has_id userId) (users s))).
  eexists. eexists.
  split; [apply getUser_eq|].
  split; [apply run_flag_eq|].
  split; [apply hd_map|].
  split.
  { rewrite getUser_eq. simpl users.
    rewrite filter_map_update by (intros a Ha; now rewrite has_id_flagged).
    reflexivity. }
  split.
  { intros id' Hne. eexists. rewrite !getUser_eq. simpl users.
    split; [reflexivity|].
    rewrite filter_other_key_flagged, hd_map.
    destruct (filter (has_id id') (users s)) as [|u rest] eqn:E; [reflexivity|].
    simpl.
    assert (Hu : has_id id' u = true).
    { assert (In u (filter (has_id id') (users s))) by (rewrite E; now left).
      now apply filter_In in H. }
    apply has_id_true in Hu.
    assert (has_id userId u = false) as ->
      by (apply String.eqb_neq; congruence).
    reflexivity. }
  split; [now destruct s|].
  intros Hnone.
  assert (Habs : existsb (has_id userId) (users s) = false).
  { destruct (existsb (has_id userId) (users s)) eqn:E; [|reflexivity].
    destruct (hd_filter_existsb _ _ E) as (a & Ha & _). congruence. }
  unfold set_users. rewrite (map_update_none _ _ _ Habs). now destruct s.
Qed.

(** A flag with the operation that sets it and the one that clears it. *)
Inductive Flag := Banned (reason : string) | Verified | Admin.

Definition setter (f : Flag) : FlagOp :=
  match f with Banned reason => Ban reason | Verified => Verify | Admin => MakeAdmin end.

Definition clearer (f : Flag) : FlagOp :=
  match f with Banned _ => Unban | Verified => Unverify | Admin => RemoveAdmin end.

Lemma run_flag_twice (t1 t2 : Z) (op1 op2 : FlagOp) (userId : string)
    (s : Store) :
  exists r1 s1 s2,
    run_flag t1 op1 userId s = Ok r1 s1 /\
    run_flag t2 op2 userId s1
      = Ok (option_map (fun u => flagged t2 op2 (flagged t1 op1 u))
                       (hd_error (filter (has_id userId) (users s)))) s2 /\
    DatabaseStorage.getUser userId s2
      = Ok (option_map (fun u => flagged t2 op2 (flagged t1 op1 u))
                       (hd_error (filter (has_id userId) (users s)))) s2.
Proof.
  eexists. eexists. eexists.
  split; [apply run_flag_eq|].
  assert (E : filter (has_id userId)
                (map (fun u => if has_id userId u then flagged t1 op1 u else u)
                     (users s))
              = map (flagged t1 op1) (filter (has_id userId) (users s))).
  { apply filter_map_update. intros a Ha. now rewrite has_id_flagged. }
  split.
  - rewrite run_flag_eq. simpl users. rewrite E, !hd_map.
    destruct (hd_error (filter (has_id userId) (users s))); reflexivity.
  - rewrite getUser_eq. simpl users.
    rewrite filter_map_update by (intros a Ha; now rewrite has_id_flagged).
    rewrite E, !hd_map.
    destruct (hd_error (filter (has_id userId) (users s))); reflexivity.
Qed.

(** X4. Setting a flag and clearing it again -- ban then unban, verify then
    unverify, make admin then remove admin -- leaves the user as clearing
    alone would: the flag is false (and the ban reason gone), whatever it
    was before, every other column is the old one, and [updatedAt] is the
    time of the second call. *)
Theorem flag_set_then_cleared (t1 t2 : Z) (f : Flag) (userId : string)
    (s : Store) :
  exists old r1 s1 r2 s2,
    DatabaseStorage.getUser userId s = Ok old s /\
    run_flag t1 (setter f) userId s = Ok r1 s1 /\
    run_flag t2 (clearer f) userId s1 = Ok r2 s2 /\
    r2 = option_map (flagged t2 (clearer f)) old /\
    DatabaseStorage.getUser userId s2 = Ok r2 s2.
Proof.
  destruct (run_flag_twice t1 t2 (setter f) (clearer f) userId s)
    as (r1 & s1 & s2 & H1 & H2 & H3).
  exists (hd_error (filter (has_id userId) (users s))), r1, s1.
  eexists. exists s2.
  split; [apply getUser_eq|]. split; [exact H1|].
  assert (E : forall u, flagged t2 (clearer f) (flagged t1 (setter f) u)
                        = flagged t2 (clearer f) u)
    by (intros u; destruct f; reflexivity).
  split; [exact H2|].
  split.
  - destruct (hd_error (filter (has_id userId) (users s))); simpl;
      [now rewrite E | reflexivity].
  - exact H3.
Qed.

(** X5. The admin check follows the flag operations: right after
    [makeAdmin] of an existing user the admin routes run their handler for
    that caller, and right after [removeAdmin] they answer 403. *)
Theorem admin_routes_follow_flag (now : Z) (handler : Handler) (req : Req.t)
    (sub : string) (u : User.t) (s : Store) :
  Req.user req = Some sub ->
  DatabaseStorage.getUser sub s = Ok (Some u) s ->
  (exists r s1,
      DatabaseStorage.makeAdmin now sub s = Ok r s1 /\
      route [isAuthenticated; isAdmin storage] handler req s1 = handler req s1) /\
  (exists r s2,
      DatabaseStorage.removeAdmin now sub s = Ok r s2 /\
      route [isAuthenticated; isAdmin storage] handler req s2 = Ok forbidden s2).
Proof.
  intros Hreq Hu.
  rewrite getUser_eq in Hu. injection Hu as Hu.
  assert (Hafter : forall op,
    DatabaseStorage.getUser sub
      (set_users (map (fun v => if has_id sub v then flagged now op v else v)) s)
    = Ok (Some (flagged now op u))
         (set_users (map (fun v => if has_id sub v then flagged now op v else v)) s)).
  { intros op. rewrite getUser_eq. simpl users.
    rewrite filter_map_update by (intros a Ha; now rewrite has_id_flagged).
    now rewrite hd_map, Hu. }
  split.
  - eexists. eexists. split; [apply (run_flag_eq now MakeAdmin)|].
    rewrite (admin_route_eq storage handler req sub _ Hreq).
    simpl IStorage.getUser. now rewrite (Hafter MakeAdmin).
  - eexists. eexists. split; [apply (run_flag_eq now RemoveAdmin)|].
    rewrite (admin_route_eq storage handler req sub _ Hreq).
    simpl IStorage.getUser. now rewrite (Hafter RemoveAdmin).
Qed.

Lemma admin_routes_follow_flag_witness :
  (exists r s1,
      DatabaseStorage.makeAdmin 900 "bob" store_with_admin = Ok r s1 /\
      route [isAuthenticated; isAdmin storage] (get_admin_users storage)
            (request_by "bob") s1
      = get_admin_users storage (request_by "bob") s1) /\
  (exists r s2,
      DatabaseStorage.removeAdmin 900 "bob" store_with_admin = Ok r s2 /\
      route [isAuthenticated; isAdmin storage] (get_admin_users storage)
            (request_by "bob") s2
      = Ok forbidden s2).
Proof.
  exact (admin_routes_follow_flag 900 (get_admin_users storage)
           (request_by "bob") "bob" _ store_with_admin eq_refl eq_refl).
Defined.

(** ** Comments *)

(** X6. [deleteComment(id, userId)] deletes exactly the comments with that
    id written by that user: every other comment stays, in place; when the
    caller is not the author of comment [id], nothing at all changes.  No
    other table is touched. *)
Theorem deleteComment_author_only (id : Z) (userId : string) (s : Store) :
  exists s',
    DatabaseStorage.deleteComment id userId s = Ok tt s' /\
    (forall c, In c (comments s') <->
               In c (comments s) /\
               ~ (Comment.id c = id /\ Comment.userId c = userId)) /\
    set_comments (fun _ => comments s) s' = s /\
    ((forall c, In c (comments s) -> Comment.id c = id ->
                Comment.userId c <> userId) -> s' = s).
Proof.
  eexists. split; [reflexivity|]. simpl comments.
  split.
  { intros c. rewrite filter_In, negb_true_iff, andb_false_iff,
      Z.eqb_neq, String.eqb_neq. intuition. 
    destruct (Z.eq_dec (Comment.id c) id); [right | left]; intuition. }
  split; [now destruct s|].
  intros Hother. unfold set_comments.
  rewrite filter_id; [now destruct s|].
  intros c Hc. apply negb_true_iff, andb_false_iff.
  destruct (Z.eqb_spec (Comment.id c) id) as [E|E]; [right | now left].
  apply String.eqb_neq. now apply Hother.
Qed.

(** The row [createComment] inserts at time [now]. *)
Definition new_comment (s : Store) (now : Z) (c : InsertComment.t) : Comment.t :=
  Comment.mk (comments_id_seq s) (InsertComment.postId c)
    (InsertComment.userId c) (InsertComment.text c) now.

Lemma getCommentsByPostId_eq (postId : Z) (s : Store) :
  DatabaseStorage.getCommentsByPostId postId s = Ok (comments_of s postId) s.
Proof. reflexivity. Qed.

(** X7. [createComment] adds one comment to its post and to no other:
    the comments [getCommentsByPostId] returns for the post afterwards are
    the old ones and the new one (created now, with the next id), still
    newest first, one more than before; for every other post the list is
    the same as before. *)
Theorem createComment_adds_one (now : Z) (comment : InsertComment.t) (s : Store) :
  let postId := InsertComment.postId comment in
  exists c s',
    DatabaseStorage.createComment now comment s = Ok c s' /\
    c = new_comment s now comment /\
    (exists l, DatabaseStorage.getCommentsByPostId postId s' = Ok l s' /\
               Permutation l (c :: comments_of s postId) /\
               descending Comment.createdAt l /\
               count l = count (comments_of s postId) + 1) /\
    (forall p, p <> postId ->
       DatabaseStorage.getCommentsByPostId p s' = Ok (comments_of s p) s') /\
    set_comments (fun _ => comments s) s' = bump_comments_id_seq s.
Proof.
  intros postId. exists (new_comment s now comment).
  exists (bump_comments_id_seq
            (set_comments (fun t => t ++ [new_comment s now comment]) s)).
  split; [reflexivity|]. split; [reflexivity|].
  split.
  { eexists. split; [apply getCommentsByPostId_eq|].
    assert (P : Permutation
                  (comments_of
                     (bump_comments_id_seq
                        (set_comments (fun t => t ++ [new_comment s now comment]) s))
                     postId)
                  (new_comment s now comment :: comments_of s postId)).
    { unfold comments_of. simpl comments. rewrite filter_app. simpl.
      unfold postId. rewrite Z.eqb_refl.
      rewrite orderBy_desc_perm.
      rewrite <- Permutation_cons_append.
      constructor. symmetry. apply orderBy_desc_perm. }
    split; [exact P|].
    split; [apply orderBy_desc_descending|].
    unfold count. rewrite (Permutation_length P). simpl. lia. }
  split.
  { intros p Hp. rewrite getCommentsByPostId_eq. f_equal.
    unfold comments_of. simpl comments. rewrite filter_app. simpl.
    assert (E : (InsertComment.postId comment =? p) = false)
      by (apply Z.eqb_neq; unfold postId in Hp; congruence).
    rewrite E. now rewrite app_nil_r. }
  now destruct s.
Qed.

(** ** Serial keys *)

(** The keys of a table are distinct and below the next value of its
    sequence. *)
Definition keys_wf {A} (key : A -> Z) (l : list A) (next : Z) : Prop :=
  (forall x, In x l -> key x < next) /\ NoDup (map key l).

Lemma keys_wf_filter {A} (key : A -> Z) (f : A -> bool) (l : list A) (next : Z) :
  keys_wf key l next -> keys_wf key (filter f l) next.
Proof.
  intros [Hlt Hnd]. split; [|now apply NoDup_map_filter].
  intros x Hx. apply filter_In in Hx. now apply Hlt.
Qed.

Lemma keys_wf_append {A} (key : A -> Z) (l : list A) (x : A) :
  keys_wf key l (key x) -> keys_wf key (l ++ [x]) (key x + 1).
Proof.
  intros [Hlt Hnd]. split.
  - intros y Hy. apply in_app_or in Hy. destruct Hy as [Hy|[<-|[]]]; [|lia].
    specialize (Hlt y Hy). lia.
  - rewrite map_app. simpl.
    apply (Permutation_NoDup (l := key x :: map key l));
      [apply Permutation_cons_append|].
    constructor; [|assumption].
    intros Hin. apply in_map_iff in Hin. destruct Hin as (y & Hy & Hin).
    specialize (Hlt y Hin). lia.
Qed.

Lemma after_posts (now : Z) (op : Op) (s : Store) :
  (posts (after now op s) = posts s /\
   posts_id_seq (after now op s) = posts_id_seq s) \/
  (exists f, posts (after now op s) = filter f (posts s) /\
             posts_id_seq (after now op s) = posts_id_seq s) \/
  (exists post,
      op = Call_createPost post /\
      posts (after now op s) = posts s ++ [new_post s now post] /\
      posts_id_seq (after now op s) = posts_id_seq s + 1).
Proof.
  destruct op;
    try (left; unfold_storage; simpl; split_ifs; split; reflexivity);
    try (right; left; unfold_storage; simpl; eexists; split; reflexivity).
  - right. right. exists post. repeat split; reflexivity.
  - left. unfold after, call, discard, bind. rewrite toggleLike_eq.
    destruct (existsb _ (likes s)); split; reflexivity.
  - left. unfold after, call, discard, bind. rewrite toggleFollow_eq.
    destruct (existsb _ (follows s)); split; reflexivity.
Qed.

Lemma after_comments (now : Z) (op : Op) (s : Store) :
  (comments (after now op s) = comments s /\
   comments_id_seq (after now op s) = comments_id_seq s) \/
  (exists f, comments (after now op s) = filter f (comments s) /\
             comments_id_seq (after now op s) = comments_id_seq s) \/
  (exists comment,
      op = Call_createComment comment /\
      comments (after now op s) = comments s ++ [new_comment s now comment] /\
      comments_id_seq (after now op s) = comments_id_seq s + 1).
Proof.
  destruct op;
    try (left; unfold_storage; simpl; split_ifs; split; reflexivity);
    try (right; left; unfold_storage; simpl; eexists; split; reflexivity).
  - left. unfold after, call, discard, bind. rewrite toggleLike_eq.
    destruct (existsb _ (likes s)); split; reflexivity.
  - right. right. exists comment. repeat split; reflexivity.
  - left. unfold after, call, discard, bind. rewrite toggleFollow_eq.
    destruct (existsb _ (follows s)); split; reflexivity.
Qed.

Lemma reachable_posts_wf (s : Store) :
  reachable s -> keys_wf Post.id (posts s) (posts_id_seq s).
Proof.
  induction 1 as [|s now op _ IH].
  - split; [intros x [] | constructor].
  - destruct (after_posts now op s)
      as [[E Eseq]|[[f [E Eseq]]|(post & _ & E & Eseq)]]; rewrite E, Eseq.
    + assumption.
    + now apply keys_wf_filter.
    + apply (keys_wf_append Post.id (posts s) (new_post s now post)), IH.
Qed.

Lemma reachable_comments_wf (s : Store) :
  reachable s -> keys_wf Comment.id (comments s) (comments_id_seq s).
Proof.
  induction 1 as [|s now op _ IH].
  - split; [intros x [] | constructor].
  - destruct (after_comments now op s)
      as [[E Eseq]|[[f [E Eseq]]|(c & _ & E & Eseq)]]; rewrite E, Eseq.
    + assumption.
    + now apply keys_wf_filter.
    + apply (keys_wf_append Comment.id (comments s) (new_comment s now c)), IH.
Qed.

(** X8. Invariants of every store the storage operations build from the
    empty database: the ids of posts, of comments and of stories are
    distinct and smaller than the next id their table will issue, and the
    like and follow tables hold at most one row per pair. *)
Theorem reachable_store_invariants (s : Store) :
  reachable s ->
  keys_wf Post.id (posts s) (posts_id_seq s) /\
  keys_wf Comment.id (comments s) (comments_id_seq s) /\
  keys_wf Story.id (stories s) (stories_id_seq s) /\
  NoDup (likes s) /\ NoDup (follows s).
Proof.
  intros H.
  split; [now apply reachable_posts_wf|].
  split; [now apply reachable_comments_wf|].
  split.
  - destruct (reachable_stories_wf s H) as [Hrows Hnd].
    split; [|assumption]. intros x Hx. now apply Hrows.
  - now apply reachable_relations_NoDup.
Qed.

(** alice posts, bob likes the post and comments on it, then follows alice. *)
Definition small_history : Store :=
  after 40 (Call_toggleFollow "bob" "alice")
    (after 30 (Call_createComment (InsertComment.mk 1 "bob" "nice"))
       (after 20 (Call_toggleLike "bob" 1)
          (after 10 (Call_createPost
                       (InsertPost.mk "alice" "hello #world" "/uploads/a1" None))
             empty_store))).

Lemma small_history_reachable : reachable small_history.
Proof. repeat apply reachable_call. apply reachable_empty. Qed.

Lemma reachable_store_invariants_witness :
  keys_wf Post.id (posts small_history) (posts_id_seq small_history) /\
  keys_wf Comment.id (comments small_history) (comments_id_seq small_history) /\
  keys_wf Story.id (stories small_history) (stories_id_seq small_history) /\
  NoDup (likes small_history) /\ NoDup (follows small_history).
Proof.
  apply reachable_store_invariants.
  repeat apply reachable_call. apply reachable_empty.
Defined.

Lemma getPost_eq (id : Z) (s : Store) :
  DatabaseStorage.getPost id s
  = Ok (hd_error (filter (fun p => Post.id p =? id) (posts s))) s.
Proof. reflexivity. Qed.

(** X9. [createPost] and [getPost]: when every stored post id is below the
    sequence (as in every reachable store), [createPost] returns a post
    with a fresh id -- [getPost] of that id found nothing before -- carrying
    the given owner, caption, image and location and created now;
    [getPost] of the new id then returns that post, and [getPost] of every
    other id answers as before.  The key invariant is kept. *)
Theorem createPost_then_getPost (now : Z) (post : InsertPost.t) (s : Store) :
  keys_wf Post.id (posts s) (posts_id_seq s) ->
  exists p s',
    DatabaseStorage.createPost now post s = Ok p s' /\
    p = Post.mk (posts_id_seq s) (InsertPost.userId post)
          (InsertPost.caption post) (InsertPost.imageUrl post)
          (InsertPost.location post) now /\
    DatabaseStorage.getPost (Post.id p) s = Ok None s /\
    DatabaseStorage.getPost (Post.id p) s' = Ok (Some p) s' /\
    (forall id, id <> Post.id p ->
       exists v, DatabaseStorage.getPost id s = Ok v s /\
                 DatabaseStorage.getPost id s' = Ok v s') /\
    keys_wf Post.id (posts s') (posts_id_seq s').
Proof.
  intros Hwf.
  exists (new_post s now post).
  exists (bump_posts_id_seq (set_posts (fun t => t ++ [new_post s now post]) s)).
  assert (Hfresh : filter (fun p => Post.id p =? posts_id_seq s) (posts s) = []).
  { apply filter_none. intros x Hx. apply Z.eqb_neq.
    pose proof (proj1 Hwf x Hx). lia. }
  split; [reflexivity|]. split; [reflexivity|].
  split; [rewrite getPost_eq; simpl Post.id; now rewrite Hfresh|].
  split.
  { rewrite getPost_eq. simpl posts. simpl Post.id.
    rewrite filter_app, Hfresh. simpl. now rewrite Z.eqb_refl. }
  split.
  { intros id Hid. eexists. rewrite !getPost_eq. simpl posts.
    split; [reflexivity|].
    rewrite filter_app. simpl. simpl in Hid.
    assert (E : (posts_id_seq s =? id) = false) by (apply Z.eqb_neq; congruence).
    rewrite E. now rewrite app_nil_r. }
  apply (keys_wf_append Post.id (posts s) (new_post s now post)), Hwf.
Qed.

Lemma createPost_then_getPost_witness :
  exists p s',
    DatabaseStorage.createPost 50
      (InsertPost.mk "bob" "#dogs too" "/uploads/b1" None) small_history
      = Ok p s' /\
    Post.id p = 2 /\
    DatabaseStorage.getPost 2 s' = Ok (Some p) s'.
Proof.
  destruct (createPost_then_getPost 50
              (InsertPost.mk "bob" "#dogs too" "/uploads/b1" None) small_history
              (reachable_posts_wf _ small_history_reachable))
    as (p & s' & Hrun & Hp & _ & Hget & _).
  exists p, s'. split; [exact Hrun|].
  split; [now rewrite Hp | now rewrite Hp in Hget |- *].
Defined.

(** ** The profile route *)

Definition has_username (n : string) (u : User.t) : bool :=
  match User.username u with
  | Some m => String.eqb m n
  | None => false
  end.

Definition posts_of (s : Store) (userId : string) : list Post.t :=
  orderBy_desc Post.createdAt
    (filter (fun p => String.eqb (Post.userId p) userId) (posts s)).

Definition user_not_found : Res.t := status_message 404 "User not found".

Lemma posts_of_In (s : Store) (userId : string) (p : Post.t) :
  In p (posts_of s userId) <-> In p (posts s) /\ Post.userId p = userId.
Proof.
  unfold posts_of. rewrite orderBy_desc_In, filter_In, String.eqb_eq.
  reflexivity.
Qed.

Lemma getUserByUsername_eq (n : string) (s : Store) :
  DatabaseStorage.getUserByUsername n s
  = Ok (hd_error (filter (has_username n) (users s))) s.
Proof. reflexivity. Qed.

(** X10. [GET /users/:username] answers 404 when no user has the name.
    Otherwise it answers 200 with the first user of that name, the number
    of follow rows pointing at the user ([followerCount]), the number of
    follow rows starting at the user ([followingCount]), and the user's
    posts -- all the posts whose [userId] is the user's id and no others,
    newest first -- with [postCount] their number.  The store is only
    read. *)
Theorem get_user_profile_answer
    (schema : PostInput.t -> option InsertPost.t) (now : Z)
    (req : Req.t) (n : string) (s : Store) :
  Req.field "username" (Req.params req) = Some n ->
  match hd_error (filter (has_username n) (users s)) with
  | None =>
      registerRoutes storage schema now GET_users_username req s
        = Ok user_not_found s
  | Some u =>
      exists ps,
        registerRoutes storage schema now GET_users_username req s
          = Ok (json (JProfile u
                  (count (filter (fun f => String.eqb (Follow.followingId f)
                                                      (User.id u)) (follows s)))
                  (count (filter (fun f => String.eqb (Follow.followerId f)
                                                      (User.id u)) (follows s)))
                  (count (filter (fun p => String.eqb (Post.userId p)
                                                      (User.id u)) (posts s)))
                  ps)) s /\
        User.username u = Some n /\ In u (users s) /\
        (forall p, In p ps <-> In p (posts s) /\ Post.userId p = User.id u) /\
        descending Post.createdAt ps
  end /\ Res.status user_not_found = 404.
Proof.
  intros Hn. split; [|reflexivity].
  assert (Hrun : registerRoutes storage schema now GET_users_username req s =
    match hd_error (filter (has_username n) (users s)) with
    | None => Ok user_not_found s
    | Some u =>
        Ok (json (JProfile u
              (count (filter (fun f => String.eqb (Follow.followingId f)
                                                  (User.id u)) (follows s)))
              (count (filter (fun f => String.eqb (Follow.followerId f)
                                                  (User.id u)) (follows s)))
              (count (posts_of s (User.id u)))
              (posts_of s (User.id u)))) s
    end).
  { unfold registerRoutes, route, get_user_profile, try_catch. rewrite Hn.
    unfold bind at 1. simpl IStorage.getUserByUsername.
    rewrite getUserByUsername_eq.
    destruct (hd_error (filter (has_username n) (users s))); reflexivity. }
  rewrite Hrun.
  destruct (filter (has_username n) (users s)) as [|u rest] eqn:E;
    simpl hd_error; cbv iota.
  - reflexivity.
  - exists (posts_of s (User.id u)).
    assert (Hu : In u (filter (has_username n) (users s)))
      by (rewrite E; now left).
    apply filter_In in Hu. destruct Hu as [Hin Hname].
    split.
    { do 3 f_equal. unfold count, posts_of. now rewrite orderBy_desc_length. }
    split.
    { unfold has_username in Hname. destruct (User.username u) as [m|];
        [|discriminate]. apply String.eqb_eq in Hname. now subst. }
    split; [assumption|].
    split; [intros p; apply posts_of_In | apply orderBy_desc_descending].
Qed.

Definition request_profile (n : string) : Req.t :=
  Req.mk None [("username"%string, n)] [] [] None.

Lemma get_user_profile_answer_witness :
  app 0 GET_users_username (request_profile "zed") store_with_feed
    = Ok user_not_found store_with_feed /\
  exists ps,
    app 0 GET_users_username (request_profile "alice") store_with_feed
    = Ok (json (JProfile
            (User.mk "alice" (Some "alice"%string) None (Some false)
                     (Some false) (Some false) None 100 100)
            0 0 2 ps)) store_with_feed /\
    map Post.id ps = [3; 1].
Proof.
  split.
  - exact (proj1 (get_user_profile_answer insertPostSchema 0
                    (request_profile "zed") "zed" store_with_feed eq_refl)).
  - destruct (proj1 (get_user_profile_answer insertPostSchema 0
                       (request_profile "alice") "alice" store_with_feed
                       eq_refl)) as (ps & Hrun & _).
    exists ps. split; [exact Hrun|].
    unfold app in Hrun. vm_compute in Hrun. injection Hrun as <-. reflexivity.
Defined.

(** ** Toggles and counts *)

Section ToggleCount.
Context {A : Type} (is_row : A -> bool) (x : A).
Hypothesis is_row_spec : forall y, is_row y = true <-> y = x.

(** [g] is the [where] clause of a count or of a membership query. *)
Variable g : A -> bool.

Definition bit (b : bool) : Z := if b then 1 else 0.

Lemma count_inserted (l : list A) :
  count (filter g (l ++ [x])) = count (filter g l) + bit (g x).
Proof.
  unfold count. rewrite filter_app, length_app. simpl.
  destruct (g x); simpl; lia.
Qed.

Lemma count_deleted (l : list A) :
  NoDup l -> existsb is_row l = true ->
  count (filter g (filter (fun y => negb (is_row y)) l))
  = count (filter g l) - bit (g x).
Proof.
  intros Hnd Hex. unfold count.
  pose proof (perm_filter_length g _ _
                (deleted_then_inserted is_row x is_row_spec l Hnd Hex)) as P.
  rewrite filter_app, length_app in P. simpl in P.
  destruct (g x); simpl in *; lia.
Qed.

Lemma filter_unrelated_inserted (l : list A) :
  g x = false -> filter g (l ++ [x]) = filter g l.
Proof.
  intros Hg. rewrite filter_app. simpl. rewrite Hg. apply app_nil_r.
Qed.

Lemma filter_unrelated_deleted (l : list A) :
  g x = false -> filter g (filter (fun y => negb (is_row y)) l) = filter g l.
Proof.
  intros Hg. induction l as [|a l IH]; simpl; [reflexivity|].
  destruct (is_row a) eqn:E; simpl.
  - apply is_row_spec in E. subst a. now rewrite Hg.
  - now rewrite IH.
Qed.
End ToggleCount.

Definition toggle_failed : Res.t := status_message 500 "Failed to toggle like".

Lemma isPostLiked_eq (userId : string) (postId : Z) (s : Store) :
  DatabaseStorage.isPostLiked userId postId s
  = Ok (existsb (DatabaseStorage.like_is userId postId) (likes s)) s.
Proof.
  unfold DatabaseStorage.isPostLiked, bind, gets, ret. now rewrite select_head.
Qed.

(** X11. [POST /posts/:id/like] by an authenticated caller, for a post id
    in the range of the integer column ([-2^31 .. 2^31 - 1]) and on a like
    table with one row per pair at most: the answer is 200 with [isLiked]
    the opposite of whether the caller liked the post before, and
    [likeCount] the post's count after the toggle, which is the old count
    plus one for a like and minus one for an unlike.  Afterwards
    [isPostLiked] agrees with [isLiked]; the answers of [isPostLiked] for
    other pairs and the like counts of other posts are as before. *)
Theorem post_like_answer
    (schema : PostInput.t -> option InsertPost.t) (now : Z)
    (req : Req.t) (sub : string) (postId : Z) (s : Store) :
  Req.user req = Some sub ->
  JS.parseInt (Req.field "id" (Req.params req)) = Some postId ->
  integer_min <= postId <= integer_max ->
  NoDup (likes s) ->
  let was := existsb (DatabaseStorage.like_is sub postId) (likes s) in
  let before := count (filter (fun l => Like.postId l =? postId) (likes s)) in
  exists s',
    registerRoutes storage schema now POST_posts_id_like req s
      = Ok (json (JLike (negb was)
                        (if was then before - 1 else before + 1))) s' /\
    DatabaseStorage.isPostLiked sub postId s' = Ok (negb was) s' /\
    (forall u p, (u, p) <> (sub, postId) ->
       exists b, DatabaseStorage.isPostLiked u p s = Ok b s /\
                 DatabaseStorage.isPostLiked u p s' = Ok b s') /\
    (forall p, p <> postId ->
       exists k, DatabaseStorage.getLikeCount p s = Ok k s /\
                 DatabaseStorage.getLikeCount p s' = Ok k s') /\
    set_likes (fun _ => likes s) s' = s.
Proof.
  intros Hu Hid Hrange Hnd was before.
  pose proof (like_is_spec sub postId) as Hspec.
  assert (Hrow : (Like.postId (Like.mk sub postId) =? postId) = true)
    by apply Z.eqb_refl.
  assert (Hother : forall u p, (u, p) <> (sub, postId) ->
            DatabaseStorage.like_is u p (Like.mk sub postId) = false).
  { intros u p Hne. unfold DatabaseStorage.like_is. simpl.
    apply andb_false_iff.
    destruct (String.eqb_spec sub u) as [->|]; [right | now left].
    apply Z.eqb_neq. congruence. }
  assert (Hrun : registerRoutes storage schema now POST_posts_id_like req s =
    match DatabaseStorage.toggleLike sub postId s with
    | Ok isLiked s' =>
        Ok (json (JLike isLiked
              (count (filter (fun l => Like.postId l =? postId) (likes s'))))) s'
    | Throw _ s' => Ok toggle_failed s'
    end).
  { unfold registerRoutes, route, isAuthenticated, post_like, try_catch,
      claims_sub, integer_param. rewrite Hu, Hid.
    destruct (Z.leb_spec integer_min postId); [|lia].
    destruct (Z.leb_spec postId integer_max); [|lia].
    cbn [andb]. unfold bind, ret. simpl IStorage.toggleLike.
    destruct (DatabaseStorage.toggleLike sub postId s); reflexivity. }
  rewrite Hrun, toggleLike_eq. fold was.
  destruct was eqn:Hwas; subst was; eexists; simpl likes.
  - rewrite (count_deleted _ _ Hspec _ _ Hnd Hwas), Hrow. simpl bit.
    fold before. split; [reflexivity|].
    split; [rewrite isPostLiked_eq; simpl likes; now rewrite deleted_absent|].
    split.
    { intros u p Hne. eexists. rewrite !isPostLiked_eq. simpl likes.
      split; [reflexivity|].
      rewrite <- !select_head.
      now rewrite (filter_unrelated_deleted _ _ Hspec _ _ (Hother u p Hne)). }
    split; [|now destruct s].
    intros p Hne. eexists. split; [reflexivity|].
    unfold DatabaseStorage.getLikeCount, gets. simpl likes.
    rewrite (filter_unrelated_deleted _ _ Hspec); [reflexivity|].
    simpl. apply Z.eqb_neq. congruence.
  - rewrite count_inserted, Hrow. simpl bit.
    fold before. split; [reflexivity|].
    split.
    { rewrite isPostLiked_eq. simpl likes.
      now rewrite (proj1 (inserted_then_deleted _ _ Hspec _ Hwas)). }
    split.
    { intros u p Hne. eexists. rewrite !isPostLiked_eq. simpl likes.
      split; [reflexivity|].
      rewrite <- !select_head.
      now rewrite (filter_unrelated_inserted _ _ _ (Hother u p Hne)). }
    split; [|now destruct s].
    intros p Hne. eexists. split; [reflexivity|].
    unfold DatabaseStorage.getLikeCount, gets. simpl likes.
    rewrite filter_unrelated_inserted; [reflexivity|].
    simpl. apply Z.eqb_neq. congruence.
Qed.

Definition request_like (sub id : string) : Req.t :=
  Req.mk (Some sub) [("id"%string, id)] [] [] None.

(** bob unlikes post 1 of the store with two likes on it. *)
Lemma post_like_answer_witness :
  exists s',
    app 0 POST_posts_id_like (request_like "bob" "1") store_with_liked_post
      = Ok (json (JLike false 1)) s' /\
    DatabaseStorage.isPostLiked "bob" 1 s' = Ok false s'.
Proof.
  destruct (post_like_answer insertPostSchema 0 (request_like "bob" "1")
              "bob" 1 store_with_liked_post eq_refl eq_refl
              ltac:(vm_compute; split; discriminate)
              ltac:(simpl; nodup_rows))
    as (s' & Hrun & Hliked & _).
  exists s'. split; [exact Hrun | exact Hliked].
Defined.

(** A post id beyond the integer column is refused by the database: the
    answer is the handler's 500 and no like is stored. *)
Example like_out_of_range :
  app 0 POST_posts_id_like (request_like "bob" "3000000000")
      store_with_liked_post
  = Ok toggle_failed store_with_liked_post.
Proof. reflexivity. Qed.

(** ** Follows *)

Lemma isFollowing_eq (followerId followingId : string) (s : Store) :
  DatabaseStorage.isFollowing followerId followingId s
  = Ok (existsb (DatabaseStorage.follow_is followerId followingId) (follows s)) s.
Proof.
  unfold DatabaseStorage.isFollowing, bind, gets, ret. now rewrite select_head.
Qed.

(** X12. [toggleFollow(a, b)] on a follow table with one row per pair at
    most: it returns true and [b] gains a follower and [a] a following, or
    it returns false and both lose one; [isFollowing(a, b)] afterwards is
    the returned value.  The follower counts of users other than [b], the
    following counts of users other than [a], and [isFollowing] for every
    other pair are as before. *)
Theorem toggleFollow_counts (a b : string) (s : Store) :
  NoDup (follows s) ->
  let was := existsb (DatabaseStorage.follow_is a b) (follows s) in
  let delta := if was then -1 else 1 in
  exists s',
    DatabaseStorage.toggleFollow a b s = Ok (negb was) s' /\
    DatabaseStorage.isFollowing a b s' = Ok (negb was) s' /\
    (exists n, DatabaseStorage.getFollowerCount b s = Ok n s /\
               DatabaseStorage.getFollowerCount b s' = Ok (n + delta) s') /\
    (exists n, DatabaseStorage.getFollowingCount a s = Ok n s /\
               DatabaseStorage.getFollowingCount a s' = Ok (n + delta) s') /\
    (forall u, u <> b ->
       exists n, DatabaseStorage.getFollowerCount u s = Ok n s /\
                 DatabaseStorage.getFollowerCount u s' = Ok n s') /\
    (forall u, u <> a ->
       exists n, DatabaseStorage.getFollowingCount u s = Ok n s /\
                 DatabaseStorage.getFollowingCount u s' = Ok n s') /\
    (forall a' b', (a', b') <> (a, b) ->
       exists v, DatabaseStorage.isFollowing a' b' s = Ok v s /\
                 DatabaseStorage.isFollowing a' b' s' = Ok v s').
Proof.
  intros Hnd was delta.
  pose proof (follow_is_spec a b) as Hspec.
  assert (Hother : forall a' b', (a', b') <> (a, b) ->
            DatabaseStorage.follow_is a' b' (Follow.mk a b) = false).
  { intros a' b' Hne. unfold DatabaseStorage.follow_is. simpl.
    apply andb_false_iff.
    destruct (String.eqb_spec a a') as [->|]; [right | now left].
    apply String.eqb_neq. congruence. }
  assert (Hb : forall u, u <> b ->
            String.eqb (Follow.followingId (Follow.mk a b)) u = false)
    by (intros u Hne; apply String.eqb_neq; simpl; congruence).
  assert (Ha : forall u, u <> a ->
            String.eqb (Follow.followerId (Follow.mk a b)) u = false)
    by (intros u Hne; apply String.eqb_neq; simpl; congruence).
  rewrite toggleFollow_eq. fold was.
  unfold DatabaseStorage.getFollowerCount, DatabaseStorage.getFollowingCount,
    gets.
  destruct was eqn:Hwas; subst was delta; eexists; simpl follows.
  - split; [reflexivity|].
    split; [rewrite isFollowing_eq; simpl follows; now rewrite deleted_absent|].
    split.
    { eexists. split; [reflexivity|]. cbn [follows set_follows].
      rewrite (count_deleted _ _ Hspec _ _ Hnd Hwas). simpl.
      rewrite String.eqb_refl. reflexivity. }
    split.
    { eexists. split; [reflexivity|]. cbn [follows set_follows].
      rewrite (count_deleted _ _ Hspec _ _ Hnd Hwas). simpl.
      rewrite String.eqb_refl. reflexivity. }
    split.
    { intros u Hne. eexists. split; [reflexivity|]. cbn [follows set_follows].
      now rewrite (filter_unrelated_deleted _ _ Hspec
                    (fun f => String.eqb (Follow.followingId f) u) _ (Hb u Hne)). }
    split.
    { intros u Hne. eexists. split; [reflexivity|]. cbn [follows set_follows].
      now rewrite (filter_unrelated_deleted _ _ Hspec
                    (fun f => String.eqb (Follow.followerId f) u) _ (Ha u Hne)). }
    intros a' b' Hne. eexists. rewrite !isFollowing_eq. simpl follows.
    split; [reflexivity|]. rewrite <- !select_head.
    now rewrite (filter_unrelated_deleted _ _ Hspec
                  (DatabaseStorage.follow_is a' b') _ (Hother a' b' Hne)).
  - split; [reflexivity|].
    split.
    { rewrite isFollowing_eq. simpl follows.
      now rewrite (proj1 (inserted_then_deleted _ _ Hspec _ Hwas)). }
    split.
    { eexists. split; [reflexivity|]. cbn [follows set_follows]. rewrite count_inserted. simpl.
      rewrite String.eqb_refl. reflexivity. }
    split.
    { eexists. split; [reflexivity|]. cbn [follows set_follows]. rewrite count_inserted. simpl.
      rewrite String.eqb_refl. reflexivity. }
    split.
    { intros u Hne. eexists. split; [reflexivity|]. cbn [follows set_follows].
      now rewrite (filter_unrelated_inserted _
                    (fun f => String.eqb (Follow.followingId f) u) _ (Hb u Hne)). }
    split.
    { intros u Hne. eexists. split; [reflexivity|]. cbn [follows set_follows].
      now rewrite (filter_unrelated_inserted _
                    (fun f => String.eqb (Follow.followerId f) u) _ (Ha u Hne)). }
    intros a' b' Hne. eexists. rewrite !isFollowing_eq. simpl follows.
    split; [reflexivity|]. rewrite <- !select_head.
    now rewrite (filter_unrelated_inserted _
                  (DatabaseStorage.follow_is a' b') _ (Hother a' b' Hne)).
Qed.

Lemma toggleFollow_counts_witness :
  exists s',
    DatabaseStorage.toggleFollow "bob" "alice" small_history = Ok false s' /\
    DatabaseStorage.getFollowerCount "alice" s' = Ok 0 s'.
Proof.
  destruct (toggleFollow_counts "bob" "alice" small_history
              ltac:(simpl; nodup_rows))
    as (s' & Hrun & _ & (n & Hn & Hn') & _).
  exists s'. split; [exact Hrun|].
  vm_compute in Hn. injection Hn as <-. exact Hn'.
Defined.

(** ** Suggested users *)

Definition eligible (s : Store) (userId : string) (u : User.t) : bool :=
  negb (String.eqb (User.id u) userId)
  && negb (existsb (DatabaseStorage.follow_is userId (User.id u)) (follows s)).

Lemma followed_existsb (userId id : string) (l : list Follow.t) :
  existsb (String.eqb id)
    (map Follow.followingId
         (filter (fun f => String.eqb (Follow.followerId f) userId) l))
  = existsb (DatabaseStorage.follow_is userId id) l.
Proof.
  induction l as [|f l IH]; simpl; [reflexivity|].
  unfold DatabaseStorage.follow_is at 1.
  destruct (String.eqb (Follow.followerId f) userId); simpl.
  - now rewrite IH, (String.eqb_sym id).
  - exact IH.
Qed.

Lemma getSuggestedUsers_eq (userId : string) (n : Z) (s : Store) :
  DatabaseStorage.getSuggestedUsers userId (Some n) s =
  if max_bigint <? n then Throw (SqlError "bigint out of range") s
  else Ok (if n <? 0 then filter (eligible s userId) (users s)
           else firstn (Z.to_nat n) (filter (eligible s userId) (users s))) s.
Proof.
  unfold DatabaseStorage.getSuggestedUsers, bind, gets, limit, limit_offset,
    DatabaseStorage.or_else.
  assert (E : filter
                (fun u => negb (String.eqb (User.id u) userId)
                  && negb (existsb (String.eqb (User.id u))
                       (map Follow.followingId
                         (filter (fun f => String.eqb (Follow.followerId f) userId)
                                 (follows s))))) (users s)
              = filter (eligible s userId) (users s)).
  { apply filter_ext. intros u. unfold eligible. now rewrite followed_existsb. }
  rewrite E. change (max_bigint <? 0) with false. rewrite orb_false_r.
  destruct (max_bigint <? n); reflexivity.
Qed.

(** X13. [getSuggestedUsers(userId, limit)] for a limit from 0 to 2^63 - 1
    returns at most [limit] users of the store, none of them the
    requester and none of them followed by the requester; a user who
    qualifies is left out only when the limit is reached.  Without a
    limit it is 5.  Once the requester has followed [b], [b] is no longer
    suggested. *)
Theorem getSuggestedUsers_sound (userId : string) (n : Z) (s : Store) :
  0 <= n <= max_bigint ->
  (exists l,
      DatabaseStorage.getSuggestedUsers userId (Some n) s = Ok l s /\
      Z.of_nat (List.length l) <= n /\
      (forall u, In u l ->
         In u (users s) /\ User.id u <> userId /\
         DatabaseStorage.isFollowing userId (User.id u) s = Ok false s) /\
      (forall u, In u (users s) -> User.id u <> userId ->
         DatabaseStorage.isFollowing userId (User.id u) s = Ok false s ->
         In u l \/ Z.of_nat (List.length l) = n)) /\
  DatabaseStorage.getSuggestedUsers userId None s
    = DatabaseStorage.getSuggestedUsers userId (Some 5) s /\
  (forall b s1 l1,
      DatabaseStorage.toggleFollow userId b s = Ok true s1 ->
      DatabaseStorage.getSuggestedUsers userId (Some n) s1 = Ok l1 s1 ->
      forall u, In u l1 -> User.id u <> b).
Proof.
  intros Hn.
  assert (Helig : forall t u, eligible t userId u = true <->
            User.id u <> userId /\
            DatabaseStorage.isFollowing userId (User.id u) t = Ok false t).
  { intros t u. unfold eligible.
    rewrite andb_true_iff, !negb_true_iff, String.eqb_neq, isFollowing_eq.
    split; intros [H1 H2]; split; try assumption.
    - now rewrite H2.
    - now injection H2. }
  assert (Hlt : (n <? 0) = false) by (apply Z.ltb_ge; lia).
  assert (Hbig : (max_bigint <? n) = false)
    by (apply Z.ltb_ge; unfold max_bigint, JS.max_exact in *; lia).
  split; [|split; [reflexivity|]].
  - eexists. rewrite getSuggestedUsers_eq, Hbig, Hlt. split; [reflexivity|].
    split.
    { pose proof (firstn_le_length (Z.to_nat n)
                    (filter (eligible s userId) (users s))). lia. }
    split.
    { intros u Hu. apply In_firstn, filter_In in Hu. destruct Hu as [Hin He].
      apply Helig in He. tauto. }
    intros u Hin Hne Hfol.
    assert (Hu : In u (filter (eligible s userId) (users s)))
      by (apply filter_In; split; [assumption | now apply Helig]).
    rewrite <- (firstn_skipn (Z.to_nat n)) in Hu. apply in_app_or in Hu.
    destruct Hu as [Hu|Hu]; [now left | right].
    destruct (Nat.le_gt_cases
                (List.length (filter (eligible s userId) (users s)))
                (Z.to_nat n)) as [Hle|Hgt].
    + rewrite skipn_all2 in Hu by assumption. contradiction.
    + rewrite length_firstn. lia.
  - intros b s1 l1 Htoggle Hsug u Hu Hb.
    rewrite getSuggestedUsers_eq, Hbig, Hlt in Hsug. injection Hsug as <-.
    apply In_firstn, filter_In in Hu. destruct Hu as [_ He].
    apply Helig in He. destruct He as [_ He].
    rewrite toggleFollow_eq in Htoggle.
    destruct (existsb (DatabaseStorage.follow_is userId b) (follows s)) eqn:E;
      [discriminate|].
    injection Htoggle as <-.
    rewrite isFollowing_eq, Hb in He. simpl follows in He.
    rewrite (proj1 (inserted_then_deleted _ _ (follow_is_spec userId b) _ E))
      in He.
    discriminate.
Qed.

Lemma getSuggestedUsers_sound_witness :
  exists l,
    DatabaseStorage.getSuggestedUsers "bob" (Some 1) store_with_admin
      = Ok l store_with_admin /\
    Z.of_nat (List.length l) <= 1.
Proof.
  destruct (proj1 (getSuggestedUsers_sound "bob" 1 store_with_admin
                     ltac:(vm_compute; split; discriminate)))
    as (l & Hrun & Hlen & _).
  exists l. split; [exact Hrun | exact Hlen].
Defined.

(** ** The life of a story *)

Lemma filter_filter_implied {A} (f g : A -> bool) (l : list A) :
  (forall x, g x = true -> f x = true) ->
  filter g (filter f l) = filter g l.
Proof.
  intros H. induction l as [|a l IH]; simpl; [reflexivity|].
  destruct (f a) eqn:Ef; simpl.
  - now rewrite IH.
  - rewrite IH. destruct (g a) eqn:Eg; [|reflexivity].
    rewrite (H a Eg) in Ef. discriminate.
Qed.

Lemma getActiveStories_eq (now : Z) (s : Store) :
  DatabaseStorage.getActiveStories now s = Ok (active_stories s now) s.
Proof. reflexivity. Qed.

(** X14. The sweep never changes what is listed: after
    [deleteExpiredStories] at a time [swept], [getActiveStories] at any time
    from [swept] on returns the same stories in the same order as it would
    without the sweep.  Only the stories table is touched, and a second
    sweep at the same time deletes nothing more. *)
Theorem sweep_keeps_active_stories (swept now : Z) (s : Store) :
  swept <= now ->
  exists s',
    DatabaseStorage.deleteExpiredStories swept s = Ok tt s' /\
    DatabaseStorage.getActiveStories now s' = Ok (active_stories s now) s' /\
    DatabaseStorage.deleteExpiredStories swept s' = Ok tt s' /\
    set_stories (fun _ => stories s) s' = s.
Proof.
  intros Hle. eexists. split; [reflexivity|].
  split.
  { rewrite getActiveStories_eq. f_equal. unfold active_stories. simpl stories.
    f_equal. apply filter_filter_implied. intros x Hx.
    apply Z.ltb_lt in Hx. apply negb_true_iff, Z.ltb_ge. lia. }
  split.
  { unfold DatabaseStorage.deleteExpiredStories, modify. f_equal.
    unfold set_stories. simpl. f_equal.
    apply filter_filter_implied. auto. }
  now destruct s.
Qed.

Lemma sweep_keeps_active_stories_witness :
  exists s',
    DatabaseStorage.deleteExpiredStories (20000 + day_ms) store_with_stories
      = Ok tt s' /\
    DatabaseStorage.getActiveStories (30000 + day_ms) s'
      = Ok [Story.mk 2 "alice" "/uploads/s2" 50000 (50000 + day_ms)] s'.
Proof.
  destruct (sweep_keeps_active_stories (20000 + day_ms) (30000 + day_ms)
              store_with_stories ltac:(vm_compute; discriminate))
    as (s' & Hsweep & Hactive & _).
  exists s'. split; [exact Hsweep | exact Hactive].
Defined.

(** X15. A story for which [createStory] reads the server's clock at [t]
    (whenever the database then inserts the row) is listed by
    [getActiveStories] at exactly the times before [t] + 24 h, and deleted
    by the sweep at exactly the times after [t] + 24 h: at the instant
    [t] + 24 h itself it is neither listed nor swept. *)
Theorem story_life_cycle (t inserted : Z) (story : InsertStory.t) (s : Store) :
  exists st s',
    DatabaseStorage.createStory t inserted story s = Ok st s' /\
    Story.expiresAt st = t + 86400000 /\
    forall now,
      (exists l, DatabaseStorage.getActiveStories now s' = Ok l s' /\
                 (In st l <-> now < t + 86400000)) /\
      (exists s2, DatabaseStorage.deleteExpiredStories now s' = Ok tt s2 /\
                  (In st (stories s2) <-> now <= t + 86400000)).
Proof.
  exists (new_story s t inserted story).
  exists (bump_stories_id_seq
            (set_stories (fun l => l ++ [new_story s t inserted story]) s)).
  split; [reflexivity|]. split; [reflexivity|].
  assert (Hin : In (new_story s t inserted story)
                   (stories s ++ [new_story s t inserted story]))
    by (apply in_or_app; right; now left).
  intros now. split.
  - eexists. split; [apply getActiveStories_eq|].
    rewrite active_stories_In. simpl stories. simpl Story.expiresAt.
    unfold day_ms. intuition.
  - eexists. split; [reflexivity|]. simpl stories.
    rewrite filter_In, negb_true_iff, Z.ltb_ge. simpl Story.expiresAt.
    unfold day_ms. intuition.
Qed.

(** ** Deleting a post: what stays *)

Lemma getLikeCount_eq (postId : Z) (s : Store) :
  DatabaseStorage.getLikeCount postId s
  = Ok (count (filter (fun l => Like.postId l =? postId) (likes s))) s.
Proof. reflexivity. Qed.

Lemma filter_other_post {A} (key : A -> Z) (id p : Z) (l : list A) :
  p <> id ->
  filter (fun x => key x =? p) (filter (fun x => negb (key x =? id)) l)
  = filter (fun x => key x =? p) l.
Proof.
  intros Hne. apply filter_filter_implied. intros x Hx.
  apply Z.eqb_eq in Hx. apply negb_true_iff, Z.eqb_neq. congruence.
Qed.

(** X16. [deletePost(id, userId)] touches nothing but post [id] and its
    dependents: users, follows, stories and the sequences are unchanged,
    every post with another id stays, and the like count and the comments
    of every other post are as before.  Deleting again changes nothing.
    When the posts with that id all belong to [userId], [getPost(id)]
    finds nothing afterwards and the store is the one
    [deletePostAsAdmin(id)] produces. *)
Theorem deletePost_frame (id : Z) (userId : string) (s : Store) :
  exists s',
    DatabaseStorage.deletePost id userId s = Ok tt s' /\
    set_posts (fun _ => posts s)
      (set_likes (fun _ => likes s) (set_comments (fun _ => comments s) s')) = s /\
    (forall p, Post.id p <> id -> (In p (posts s') <-> In p (posts s))) /\
    (forall p, p <> id ->
       DatabaseStorage.getLikeCount p s'
         = Ok (count (filter (fun l => Like.postId l =? p) (likes s))) s' /\
       DatabaseStorage.getCommentsByPostId p s' = Ok (comments_of s p) s') /\
    DatabaseStorage.deletePost id userId s' = Ok tt s' /\
    ((forall p, In p (posts s) -> Post.id p = id -> Post.userId p = userId) ->
     DatabaseStorage.getPost id s' = Ok None s' /\
     DatabaseStorage.deletePostAsAdmin id s = Ok tt s').
Proof.
  eexists. split; [reflexivity|].
  split; [now destruct s|].
  split.
  { intros p Hp. simpl posts. rewrite filter_In, negb_true_iff, andb_false_iff,
      Z.eqb_neq. tauto. }
  split.
  { intros p Hp. split.
    - rewrite getLikeCount_eq. simpl likes.
      now rewrite (filter_other_post Like.postId id p).
    - rewrite getCommentsByPostId_eq. unfold comments_of. simpl comments.
      now rewrite (filter_other_post Comment.postId id p). }
  split.
  { unfold DatabaseStorage.deletePost, bind, modify. f_equal.
    unfold set_posts, set_comments, set_likes. simpl.
    f_equal; apply filter_filter_implied; auto. }
  intros Hown.
  assert (E : filter (fun p => negb ((Post.id p =? id)
                                     && String.eqb (Post.userId p) userId))
                     (posts s)
              = filter (fun p => negb (Post.id p =? id)) (posts s)).
  { apply filter_ext_in. intros p Hp.
    destruct (Z.eqb_spec (Post.id p) id) as [Hid|_]; [|reflexivity].
    simpl. rewrite (Hown p Hp Hid), String.eqb_refl. reflexivity. }
  split.
  - rewrite getPost_eq. simpl posts. rewrite E.
    rewrite filter_none; [reflexivity|].
    intros p Hp. apply filter_In in Hp. destruct Hp as [_ Hp].
    now apply negb_true_iff in Hp.
  - unfold DatabaseStorage.deletePost, DatabaseStorage.deletePostAsAdmin,
      bind, modify. f_equal. unfold set_posts. simpl. now rewrite E.
Qed.

(** ** The admin handlers *)

Definition admin_limit (req : Req.t) : Z :=
  JS.or_number (JS.parseInt (Req.field "limit" (Req.query req))) 50.

Definition users_page (s : Store) (limit offset : Z) : list User.t :=
  firstn (Z.to_nat limit)
    (skipn (Z.to_nat offset) (orderBy_desc User.createdAt (users s))).

Definition users_failed : Res.t := status_message 500 "Failed to fetch users".

(** The users [getAllUsers] returns: all from the offset on for a negative
    limit, the page otherwise. *)
Definition users_listed (s : Store) (limit offset : Z) : list User.t :=
  let rows := skipn (Z.to_nat offset) (orderBy_desc User.createdAt (users s)) in
  if limit <? 0 then rows else firstn (Z.to_nat limit) rows.

Lemma get_admin_users_eq (req : Req.t) (s : Store) :
  get_admin_users storage req s =
  if (max_bigint <? admin_limit req) || (max_bigint <? query_offset req)
     || (query_offset req <? 0)
  then Ok users_failed s
  else Ok (json (JUsers (users_listed s (admin_limit req) (query_offset req)))) s.
Proof.
  unfold get_admin_users, try_catch.
  fold (admin_limit req) (query_offset req).
  unfold bind. simpl IStorage.getAllUsers.
  unfold DatabaseStorage.getAllUsers, DatabaseStorage.or_else, limit_offset,
    bind, gets.
  destruct ((max_bigint <? admin_limit req) || (max_bigint <? query_offset req));
    [reflexivity|].
  destruct (query_offset req <? 0); reflexivity.
Qed.

(** X17. [GET /admin/users] for a caller whose record has [isAdmin] set:
    the limit is read with default 50 and the offset with default 0.  For
    an offset from 0 to 2^53: with a limit from 0 to 2^53 the answer is 200
    with the users in descending order of creation time, without the
    first [offset] and cut after [limit] (so at most [limit] of them);
    with a negative limit nothing is cut and every user after the offset
    is listed; a limit beyond 2^63 - 1 is answered 500.  The store is only
    read. *)
Theorem get_admin_users_page
    (schema : PostInput.t -> option InsertPost.t) (now : Z)
    (req : Req.t) (sub : string) (u : User.t) (s : Store) :
  Req.user req = Some sub ->
  DatabaseStorage.getUser sub s = Ok (Some u) s ->
  User.isAdmin u = Some true ->
  0 <= query_offset req <= JS.max_exact ->
  (admin_limit req <= JS.max_exact ->
   exists l,
     registerRoutes storage schema now GET_admin_users req s
       = Ok (json (JUsers l)) s /\
     descending User.createdAt l /\
     (forall v, In v l -> In v (users s)) /\
     (0 <= admin_limit req ->
      l = users_page s (admin_limit req) (query_offset req) /\
      Z.of_nat (List.length l) <= admin_limit req) /\
     (admin_limit req < 0 ->
      l = skipn (Z.to_nat (query_offset req))
                (orderBy_desc User.createdAt (users s)))) /\
  (max_bigint < admin_limit req ->
   registerRoutes storage schema now GET_admin_users req s = Ok users_failed s) /\
  Res.status users_failed = 500 /\
  (Req.field "limit" (Req.query req) = None -> admin_limit req = 50).
Proof.
  intros Hreq Hu Hadmin Ho.
  assert (Hrun : registerRoutes storage schema now GET_admin_users req s
                 = get_admin_users storage req s).
  { change (registerRoutes storage schema now GET_admin_users req s)
      with (route [isAuthenticated; isAdmin storage]
                  (get_admin_users storage) req s).
    rewrite (admin_route_eq storage _ req sub s Hreq).
    simpl IStorage.getUser. now rewrite Hu, Hadmin. }
  rewrite Hrun, get_admin_users_eq.
  assert ((max_bigint <? query_offset req) = false) as ->
    by (apply Z.ltb_ge; unfold max_bigint, JS.max_exact in *; lia).
  assert ((query_offset req <? 0) = false) as -> by (apply Z.ltb_ge; lia).
  split; [|split; [|split; [reflexivity|]]].
  - intros Hl.
    assert ((max_bigint <? admin_limit req) = false) as ->
      by (apply Z.ltb_ge; unfold max_bigint, JS.max_exact in *; lia).
    eexists. split; [reflexivity|]. unfold users_listed.
    split.
    { destruct (admin_limit req <? 0); [|apply descending_firstn];
        apply descending_skipn, orderBy_desc_descending. }
    split.
    { intros v Hv. destruct (admin_limit req <? 0); [|apply In_firstn in Hv];
        apply In_skipn in Hv; now apply orderBy_desc_In in Hv. }
    split.
    + intros Hpos. destruct (Z.ltb_spec (admin_limit req) 0); [lia|].
      split; [reflexivity|].
      pose proof (firstn_le_length (Z.to_nat (admin_limit req))
        (skipn (Z.to_nat (query_offset req))
               (orderBy_desc User.createdAt (users s)))). lia.
    + intros Hneg. destruct (Z.ltb_spec (admin_limit req) 0); [reflexivity | lia].
  - intros Hbig.
    assert ((max_bigint <? admin_limit req) = true) as -> by now apply Z.ltb_lt.
    reflexivity.
  - unfold admin_limit. now intros ->.
Qed.

Definition request_all_users (sub : string) : Req.t :=
  Req.mk (Some sub) [] [("limit", "-1")]%string [] None.

(** alice, an admin, lists the users with the default limit, and with
    [?limit=-1]. *)
Lemma get_admin_users_page_witness :
  (exists l,
      app 0 GET_admin_users (request_by "alice") store_with_admin
        = Ok (json (JUsers l)) store_with_admin /\
      l = users_page store_with_admin 50 0) /\
  (exists l,
      app 0 GET_admin_users (request_all_users "alice") store_with_admin
        = Ok (json (JUsers l)) store_with_admin /\
      l = orderBy_desc User.createdAt (users store_with_admin)).
Proof.
  split.
  - destruct (proj1 (get_admin_users_page insertPostSchema 0 (request_by "alice")
                       "alice" _ store_with_admin eq_refl eq_refl eq_refl
                       ltac:(vm_compute; split; discriminate))
                ltac:(vm_compute; discriminate))
      as (l & Hrun & _ & _ & Hpage & _).
    exists l. split; [exact Hrun|].
    exact (proj1 (Hpage ltac:(vm_compute; discriminate))).
  - destruct (proj1 (get_admin_users_page insertPostSchema 0
                       (request_all_users "alice")
                       "alice" _ store_with_admin eq_refl eq_refl eq_refl
                       ltac:(vm_compute; split; discriminate))
                ltac:(vm_compute; discriminate))
      as (l & Hrun & _ & _ & _ & Hall).
    exists l. split; [exact Hrun|].
    exact (Hall ltac:(vm_compute; reflexivity)).
Defined.

Lemma run_flag_lookup (now : Z) (op : FlagOp) (userId : string) (s : Store) :
  let old := hd_error (filter (has_id userId) (users s)) in
  exists s',
    run_flag now op userId s = Ok (option_map (flagged now op) old) s' /\
    DatabaseStorage.getUser userId s' = Ok (option_map (flagged now op) old) s' /\
    (old = None -> s' = s).
Proof.
  intros old. eexists.
  split; [rewrite run_flag_eq, hd_map; reflexivity|].
  split.
  - rewrite getUser_eq. simpl users.
    rewrite filter_map_update by (intros a Ha; now rewrite has_id_flagged).
    now rewrite hd_map.
  - intros Hnone.
    assert (Habs : existsb (has_id userId) (users s) = false).
    { destruct (existsb (has_id userId) (users s)) eqn:E; [|reflexivity].
      destruct (hd_filter_existsb _ _ E) as (a & Ha & _).
      unfold old in Hnone. congruence. }
    unfold set_users. rewrite (map_update_none _ _ _ Habs). now destruct s.
Qed.

(** X18. [POST /admin/verify-user] by an admin, with a [userId] in the
    body: the answer is always 200 with the message "User verified
    successfully".  When the id has a row, the answer carries that row with
    [isVerified] true and [updatedAt] now, and [getUser] returns it
    afterwards; when it has none, the answer carries no user and the store
    is as before. *)
Theorem verify_user_answer
    (schema : PostInput.t -> option InsertPost.t) (now : Z)
    (req : Req.t) (sub userId : string) (u : User.t) (s : Store) :
  Req.user req = Some sub ->
  DatabaseStorage.getUser sub s = Ok (Some u) s ->
  User.isAdmin u = Some true ->
  Req.field "userId" (Req.body req) = Some userId ->
  exists target s',
    DatabaseStorage.getUser userId s = Ok target s /\
    registerRoutes storage schema now POST_admin_verify_user req s
      = Ok (json (JVerified "User verified successfully"
                            (option_map (flagged now Verify) target))) s' /\
    DatabaseStorage.getUser userId s'
      = Ok (option_map (flagged now Verify) target) s' /\
    (target = None -> s' = s).
Proof.
  intros Hreq Hu Hadmin Hbody.
  destruct (run_flag_lookup now Verify userId s) as (s' & Hrun & Hget & Hnone).
  exists (hd_error (filter (has_id userId) (users s))), s'.
  split; [apply getUser_eq|].
  split.
  { change (registerRoutes storage schema now POST_admin_verify_user req s)
      with (route [isAuthenticated; isAdmin storage]
                  (post_admin_verify_user storage now) req s).
    rewrite (admin_route_eq storage _ req sub s Hreq).
    simpl IStorage.getUser. rewrite Hu, Hadmin.
    unfold post_admin_verify_user, try_catch. rewrite Hbody.
    unfold bind. simpl IStorage.verifyUser.
    simpl run_flag in Hrun. rewrite Hrun. reflexivity. }
  split; [exact Hget | exact Hnone].
Qed.

Definition request_verify (sub userId : string) : Req.t :=
  Req.mk (Some sub) [] [] [("userId"%string, userId)] None.

(** alice, an admin, verifies bob, and then zed, who has no row. *)
Lemma verify_user_answer_witness :
  (exists target s',
      DatabaseStorage.getUser "bob" store_with_admin = Ok target store_with_admin /\
      app 700 POST_admin_verify_user (request_verify "alice" "bob")
          store_with_admin
        = Ok (json (JVerified "User verified successfully"
                              (option_map (flagged 700 Verify) target))) s') /\
  app 700 POST_admin_verify_user (request_verify "alice" "zed") store_with_admin
    = Ok (json (JVerified "User verified successfully" None)) store_with_admin.
Proof.
  split.
  - destruct (verify_user_answer insertPostSchema 700
                (request_verify "alice" "bob") "alice" "bob" _ store_with_admin
                eq_refl eq_refl eq_refl eq_refl)
      as (target & s' & Ht & Hrun & _).
    exists target, s'. split; [exact Ht | exact Hrun].
  - destruct (verify_user_answer insertPostSchema 700
                (request_verify "alice" "zed") "alice" "zed" _ store_with_admin
                eq_refl eq_refl eq_refl eq_refl)
      as (target & s' & Ht & Hrun & _ & Hnone).
    vm_compute in Ht. injection Ht as <-.
    rewrite (Hnone eq_refl) in Hrun. exact Hrun.
Defined.

(** ** Counting the posts of a hashtag *)

(** The text matching of [caption ILIKE pattern], on ASCII text. *)
Module PgLike.
Definition lower (c : ascii) : ascii :=
  let n := Pg.code c in
  if (N.leb 65 n && N.leb n 90)%bool then ascii_of_N (n + 32) else c.

Definition ci_eqb (c d : ascii) : bool := Ascii.eqb (lower c) (lower d).

Definition is_percent (c : ascii) : bool := N.eqb (Pg.code c) 37.
Definition is_underscore (c : ascii) : bool := N.eqb (Pg.code c) 95.
Definition is_backslash (c : ascii) : bool := N.eqb (Pg.code c) 92.

(** [s ILIKE p]: in the pattern [%] stands for any text, [_] for any one
    character, a backslash makes the next character literal, and letters
    match in either case.  PostgreSQL rejects a pattern that ends in a lone
    backslash; [None] is that error. *)
Fixpoint ilike (p : string) (s : string) {struct p} : option bool :=
  match p with
  | EmptyString =>
      Some (match s with EmptyString => true | String _ _ => false end)
  | String c p' =>
      if is_percent c then
        (fix any (t : string) : option bool :=
           match ilike p' t with
           | None => None
           | Some true => Some true
           | Some false =>
               match t with
               | EmptyString => Some false
               | String _ t' => any t'
               end
           end) s
      else if is_underscore c then
        match s with
        | String _ s' => ilike p' s'
        | EmptyString =>
            match ilike p' EmptyString with
            | None => None
            | Some _ => Some false
            end
        end
      else if is_backslash c then
        match p' with
        | EmptyString => None
        | String d p'' =>
            match s with
            | String e s' =>
                match ilike p'' s' with
                | None => None
                | Some b => Some (ci_eqb d e && b)%bool
                end
            | EmptyString =>
                match ilike p'' EmptyString with
                | None => None
                | Some _ => Some false
                end
            end
        end
      else
        match s with
        | String e s' =>
            match ilike p' s' with
            | None => None
            | Some b => Some (ci_eqb c e && b)%bool
            end
        | EmptyString =>
            match ilike p' EmptyString with
            | None => None
            | Some _ => Some false
            end
        end
  end.

(** Whether the pattern is free of a lone backslash at its end. *)
Fixpoint pattern_ok (p : string) : bool :=
  match p with
  | EmptyString => true
  | String c p' =>
      if is_backslash c then
        match p' with
        | EmptyString => false
        | String _ p'' => pattern_ok p''
        end
      else pattern_ok p'
  end.

(** Whether [h] is the start of [t], letters in either case. *)
Fixpoint ci_prefix (h t : string) : bool :=
  match h, t with
  | EmptyString, _ => true
  | String c h', String e t' => (ci_eqb c e && ci_prefix h' t')%bool
  | String _ _, EmptyString => false
  end.

(** Whether [h] occurs in [s], letters in either case. *)
Fixpoint ci_contains (h s : string) : bool :=
  (ci_prefix h s
   || match s with
      | EmptyString => false
      | String _ s' => ci_contains h s'
      end)%bool.

(** No character of [h] is special in a pattern. *)
Fixpoint plain (h : string) : bool :=
  match h with
  | EmptyString => true
  | String c h' =>
      (negb (is_percent c) && negb (is_underscore c)
       && negb (is_backslash c) && plain h')%bool
  end.
End PgLike.

(** [COUNT( * ) ... WHERE cond]: the rows on which [cond] holds; an error of
    [cond] on a row is the error of the query. *)
Fixpoint count_where {A} (cond : A -> option bool) (l : list A) : option Z :=
  match l with
  | [] => Some 0
  | a :: l' =>
      match cond a, count_where cond l' with
      | Some b, Some n => Some (if b then n + 1 else n)
      | _, _ => None
      end
  end.

(** Whether the text holds the character NUL. *)
Fixpoint has_nul (t : string) : bool :=
  match t with
  | EmptyString => false
  | String c t' => (N.eqb (Pg.code c) 0 || has_nul t')%bool
  end.

Definition invalid_text : Error :=
  SqlError "invalid byte sequence for encoding UTF8: 0x00".

(** [getHashtagCount] of [server/storage.ts]: the posts whose caption is
    [ILIKE '%' || hashtag || '%'].  The hashtag is sent as a text parameter:
    the database rejects one that holds NUL.  Matching is that of ASCII
    text. *)
Definition getHashtagCount (hashtag : string) : M Z :=
  fun s =>
    if has_nul hashtag then Throw invalid_text s
    else
      match count_where
              (fun p => PgLike.ilike ("%" ++ hashtag ++ "%")%string
                                     (Post.caption p))
              (posts s) with
      | Some n => Ok n s
      | None =>
          Throw (SqlError "LIKE pattern must not end with escape character") s
      end.

(** [%]: the rest of the pattern matches some end piece of the text. *)
Fixpoint any_suffix (f : string -> option bool) (t : string) : option bool :=
  match f t with
  | None => None
  | Some true => Some true
  | Some false =>
      match t with
      | EmptyString => Some false
      | String _ t' => any_suffix f t'
      end
  end.

Lemma ilike_percent (c : ascii) (p s : string) :
  PgLike.is_percent c = true ->
  PgLike.ilike (String c p) s = any_suffix (PgLike.ilike p) s.
Proof.
  intros H. simpl. rewrite H.
  induction s as [|e s IH]; simpl; destruct (PgLike.ilike p _) as [[|]|];
    auto.
Qed.

Lemma special_exclusive (c : ascii) :
  (PgLike.is_percent c = true ->
   PgLike.is_underscore c = false /\ PgLike.is_backslash c = false) /\
  (PgLike.is_underscore c = true -> PgLike.is_backslash c = false).
Proof.
  unfold PgLike.is_percent, PgLike.is_underscore, PgLike.is_backslash.
  split; [intros H; apply N.eqb_eq in H; rewrite H; split; reflexivity|].
  intros H. apply N.eqb_eq in H. now rewrite H.
Qed.

Lemma any_suffix_defined (f : string -> option bool) (t : string) :
  (forall u, exists b, f u = Some b) -> exists b, any_suffix f t = Some b.
Proof.
  intros Hf. induction t as [|e t IH]; simpl.
  - destruct (Hf EmptyString) as [[|] ->]; eauto.
  - destruct (Hf (String e t)) as [[|] ->]; eauto.
Qed.

(** A pattern without a lone backslash at its end matches or does not
    match: it never raises the error. *)
Lemma ilike_defined (n : nat) :
  forall p, (String.length p <= n)%nat -> PgLike.pattern_ok p = true ->
            forall s, exists b, PgLike.ilike p s = Some b.
Proof.
  induction n as [|n IH]; intros p Hlen Hok s.
  - destruct p; [|simpl in Hlen; lia]. simpl. eauto.
  - destruct p as [|c p]; [simpl; eauto|].
    simpl in Hlen.
    destruct (PgLike.is_percent c) eqn:Ep.
    { destruct (proj1 (special_exclusive c) Ep) as [_ Eb].
      simpl in Hok. rewrite Eb in Hok.
      rewrite (ilike_percent c p s Ep).
      apply any_suffix_defined. intros u. apply IH; [lia | assumption]. }
    simpl. rewrite Ep.
    destruct (PgLike.is_underscore c) eqn:Eu.
    { simpl in Hok. rewrite (proj2 (special_exclusive c) Eu) in Hok.
      assert (H : forall u, exists b, PgLike.ilike p u = Some b)
        by (intros u; apply IH; [lia | assumption]).
      destruct s as [|e s]; [|apply H].
      destruct (H EmptyString) as [b ->]. eauto. }
    destruct (PgLike.is_backslash c) eqn:Eb.
    { simpl in Hok. rewrite Eb in Hok.
      destruct p as [|d p]; [discriminate|]. simpl in Hlen.
      assert (H : forall u, exists b, PgLike.ilike p u = Some b)
        by (intros u; apply IH; [lia | assumption]).
      destruct s as [|e s].
      - destruct (H EmptyString) as [b ->]. eauto.
      - destruct (H s) as [b ->]. eauto. }
    simpl in Hok. rewrite Eb in Hok.
    assert (H : forall u, exists b, PgLike.ilike p u = Some b)
      by (intros u; apply IH; [lia | assumption]).
    destruct s as [|e s].
    + destruct (H EmptyString) as [b ->]. eauto.
    + destruct (H s) as [b ->]. eauto.
Qed.

(** Whatever the hashtag, the pattern [%hashtag%] is well formed: when the
    hashtag ends in a backslash, that backslash escapes the closing [%]. *)
Lemma hashtag_pattern_ok (n : nat) :
  forall h, (String.length h <= n)%nat ->
            PgLike.pattern_ok (h ++ "%")%string = true.
Proof.
  induction n as [|n IH]; intros h Hlen.
  - destruct h; [reflexivity | simpl in Hlen; lia].
  - destruct h as [|c h]; [reflexivity|]. simpl in Hlen.
    change (String c h ++ "%")%string with (String c (h ++ "%")%string).
    simpl. destruct (PgLike.is_backslash c).
    + destruct h as [|d h]; [reflexivity|].
      change (String d h ++ "%")%string with (String d (h ++ "%")%string).
      apply IH. simpl in Hlen. lia.
    + apply IH. lia.
Qed.

Lemma count_where_defined {A} (cond : A -> option bool) (l : list A) :
  (forall a, exists b, cond a = Some b) ->
  exists n, count_where cond l = Some n /\ 0 <= n <= count l.
Proof.
  intros H. unfold count. induction l as [|a l (n & E & Hn)]; simpl.
  - exists 0. split; [reflexivity | lia].
  - destruct (H a) as [b ->]. rewrite E.
    eexists. split; [reflexivity|]. destruct b; lia.
Qed.

Lemma count_where_filter {A} (cond : A -> option bool) (f : A -> bool)
    (l : list A) :
  (forall a, cond a = Some (f a)) ->
  count_where cond l = Some (count (filter f l)).
Proof.
  intros H. unfold count. induction l as [|a l IH]; simpl; [reflexivity|].
  rewrite H, IH. destruct (f a); simpl; f_equal; lia.
Qed.

Lemma ilike_percent_end (t : string) : PgLike.ilike "%" t = Some true.
Proof.
  rewrite ilike_percent by reflexivity.
  induction t as [|e t IH]; simpl; [reflexivity | exact IH].
Qed.

Lemma ci_prefix_empty (t : string) : PgLike.ci_prefix EmptyString t = true.
Proof. destruct t; reflexivity. Qed.

Lemma ilike_plain_prefix (h : string) :
  PgLike.plain h = true ->
  forall t, PgLike.ilike (h ++ "%")%string t = Some (PgLike.ci_prefix h t).
Proof.
  induction h as [|c h IH]; intros Hplain t.
  - rewrite ci_prefix_empty. apply ilike_percent_end.
  - simpl in Hplain. apply andb_true_iff in Hplain. destruct Hplain as [Hc Hh].
    apply andb_true_iff in Hc. destruct Hc as [Hc Hb].
    apply andb_true_iff in Hc. destruct Hc as [Hp Hu].
    apply negb_true_iff in Hp, Hu, Hb.
    change (String c h ++ "%")%string with (String c (h ++ "%")%string).
    simpl PgLike.ilike. rewrite Hp, Hu, Hb.
    destruct t as [|e t]; rewrite (IH Hh); reflexivity.
Qed.

Lemma any_suffix_contains (h : string) (f : string -> option bool) (s : string) :
  (forall t, f t = Some (PgLike.ci_prefix h t)) ->
  any_suffix f s = Some (PgLike.ci_contains h s).
Proof.
  intros Hf. induction s as [|e s IH]; simpl; rewrite Hf.
  - destruct (PgLike.ci_prefix h EmptyString); reflexivity.
  - destruct (PgLike.ci_prefix h (String e s)); [reflexivity | exact IH].
Qed.

Lemma ilike_plain_contains (h s : string) :
  PgLike.plain h = true ->
  PgLike.ilike ("%" ++ h ++ "%")%string s = Some (PgLike.ci_contains h s).
Proof.
  intros Hplain.
  change ("%" ++ h ++ "%")%string with (String "%" (h ++ "%")%string).
  rewrite ilike_percent by reflexivity.
  apply any_suffix_contains. now apply ilike_plain_prefix.
Qed.

Lemma ascii_text_no_nul (t : string) :
  Pg.ascii_text t = true -> has_nul t = false.
Proof.
  induction t as [|c t IH]; simpl; [reflexivity|].
  intros H. apply andb_true_iff in H. destruct H as [Hc Ht].
  apply andb_true_iff in Hc. destruct Hc as [Hpos _].
  apply N.ltb_lt in Hpos. rewrite (IH Ht), orb_false_r.
  apply N.eqb_neq. lia.
Qed.

(** X19. On ASCII captions, [getHashtagCount] of an ASCII hashtag never
    fails: the pattern it builds is always well formed (a backslash at the
    end of the hashtag escapes the closing [%]), and the count lies
    between 0 and the number of posts.  A hashtag that holds the character
    NUL is rejected: the call throws.  The store is only read. *)
Theorem getHashtagCount_defined (hashtag : string) (s : Store) :
  ascii_captions s ->
  (Pg.ascii_text hashtag = true ->
   exists n,
     getHashtagCount hashtag s = Ok n s /\ 0 <= n <= count (posts s)) /\
  (has_nul hashtag = true ->
   getHashtagCount hashtag s = Throw invalid_text s).
Proof.
  intros _. split.
  - intros Hascii. unfold getHashtagCount.
    rewrite (ascii_text_no_nul hashtag Hascii).
    destruct (count_where_defined
                (fun p => PgLike.ilike ("%" ++ hashtag ++ "%")%string
                                       (Post.caption p))
                (posts s)) as (n & E & Hn).
    + intros p.
      change ("%" ++ hashtag ++ "%")%string
        with (String "%" (hashtag ++ "%")%string).
      apply (ilike_defined (S (String.length (hashtag ++ "%")%string)));
        [simpl; lia|].
      simpl. apply (hashtag_pattern_ok (String.length hashtag)). lia.
    + exists n. rewrite E. split; [reflexivity | exact Hn].
  - intros Hnul. unfold getHashtagCount. now rewrite Hnul.
Qed.

Lemma getHashtagCount_defined_witness :
  (exists n, getHashtagCount "50%\" store_with_feed = Ok n store_with_feed /\
             0 <= n <= count (posts store_with_feed)) /\
  getHashtagCount (String zero "cats") store_with_feed
    = Throw invalid_text store_with_feed.
Proof.
  destruct (getHashtagCount_defined "50%\" store_with_feed
              ltac:(intros p [<-|[<-|[<-|[]]]]; reflexivity)) as [Hok _].
  destruct (getHashtagCount_defined (String zero "cats") store_with_feed
              ltac:(intros p [<-|[<-|[<-|[]]]]; reflexivity)) as [_ Hnul].
  split; [exact (Hok eq_refl) | exact (Hnul eq_refl)].
Defined.

Lemma getHashtagCount_plain_eq (hashtag : string) (s : Store) :
  has_nul hashtag = false ->
  PgLike.plain hashtag = true ->
  getHashtagCount hashtag s
  = Ok (count (filter (fun p => PgLike.ci_contains hashtag (Post.caption p))
                      (posts s))) s.
Proof.
  intros Hnul Hplain. unfold getHashtagCount. rewrite Hnul.
  rewrite (count_where_filter _
             (fun p => PgLike.ci_contains hashtag (Post.caption p)));
    [reflexivity|].
  intros p. now apply ilike_plain_contains.
Qed.

(** X20. On ASCII captions, for an ASCII hashtag without [%], [_] and
    backslash, [getHashtagCount] is the number of posts whose caption
    contains the hashtag somewhere, letters compared without case; each
    such post counts once.  For the empty hashtag that is every post. *)
Theorem getHashtagCount_plain (hashtag : string) (s : Store) :
  ascii_captions s ->
  Pg.ascii_text hashtag = true ->
  PgLike.plain hashtag = true ->
  getHashtagCount hashtag s
    = Ok (count (filter (fun p => PgLike.ci_contains hashtag (Post.caption p))
                        (posts s))) s /\
  (hashtag = EmptyString -> getHashtagCount hashtag s = Ok (count (posts s)) s).
Proof.
  intros _ Hascii Hplain.
  pose proof (getHashtagCount_plain_eq hashtag s
                (ascii_text_no_nul _ Hascii) Hplain) as E.
  split; [exact E|].
  intros ->. rewrite E. do 2 f_equal. apply filter_id.
  intros p _. destruct (Post.caption p); reflexivity.
Qed.

Lemma getHashtagCount_plain_witness :
  getHashtagCount "#CAT" store_with_feed = Ok 2 store_with_feed.
Proof.
  exact (proj1 (getHashtagCount_plain "#CAT" store_with_feed
                  ltac:(intros p [<-|[<-|[<-|[]]]]; reflexivity)
                  eq_refl eq_refl)).
Defined.

Lemma ci_eqb_refl (c : ascii) : PgLike.ci_eqb c c = true.
Proof. unfold PgLike.ci_eqb. apply Ascii.eqb_refl. Qed.

(** The first piece of a split caption starts the caption. *)
Lemma split_first_prefix (s : string) :
  forall t ts, Pg.regexp_split_spaces false s = t :: ts ->
               PgLike.ci_prefix t s = true.
Proof.
  induction s as [|c s IH]; intros t ts H; simpl in H.
  - injection H as <- _. reflexivity.
  - destruct (Pg.is_space c).
    + injection H as <- _. reflexivity.
    + destruct (Pg.regexp_split_spaces false s) as [|t' ts'] eqn:E;
        injection H as <- _; simpl; rewrite ci_eqb_refl; simpl.
      * reflexivity.
      * now apply (IH t' ts').
Qed.

Lemma ci_contains_skip (h : string) (c : ascii) (s : string) :
  PgLike.ci_contains h s = true -> PgLike.ci_contains h (String c s) = true.
Proof.
  intros H. simpl. rewrite H. apply orb_true_r.
Qed.

Lemma ci_contains_prefix (h s : string) :
  PgLike.ci_prefix h s = true -> PgLike.ci_contains h s = true.
Proof.
  intros H. destruct s; simpl in *; now rewrite H.
Qed.

(** Every piece of a split caption occurs in the caption. *)
Lemma split_piece_contained (s : string) :
  forall in_run tok, In tok (Pg.regexp_split_spaces in_run s) ->
                     PgLike.ci_contains tok s = true.
Proof.
  induction s as [|c s IH]; intros in_run tok Hin; simpl in Hin.
  - destruct Hin as [<-|[]]. reflexivity.
  - destruct (Pg.is_space c).
    + destruct in_run.
      * apply ci_contains_skip. now apply (IH true).
      * destruct Hin as [<-|Hin]; [reflexivity|].
        apply ci_contains_skip. now apply (IH true).
    + destruct (Pg.regexp_split_spaces false s) as [|t ts] eqn:E.
      * destruct Hin as [<-|[]]. apply ci_contains_prefix. simpl.
        now rewrite ci_eqb_refl.
      * destruct Hin as [<-|Hin].
        -- apply ci_contains_prefix. simpl. rewrite ci_eqb_refl. simpl.
           now apply (split_first_prefix s t ts).
        -- apply ci_contains_skip. apply (IH false). rewrite E. now right.
Qed.

(** Every piece of a split ASCII text is ASCII text. *)
Lemma split_ascii (s : string) :
  Pg.ascii_text s = true ->
  forall in_run tok, In tok (Pg.regexp_split_spaces in_run s) ->
                     Pg.ascii_text tok = true.
Proof.
  induction s as [|a s IH]; intros Hs in_run tok Hin; simpl in Hin.
  - destruct Hin as [<-|[]]. reflexivity.
  - simpl in Hs. apply andb_true_iff in Hs. destruct Hs as [Ha Hs].
    destruct (Pg.is_space a).
    + destruct in_run.
      * now apply (IH Hs true).
      * destruct Hin as [<-|Hin]; [reflexivity | now apply (IH Hs true)].
    + destruct (Pg.regexp_split_spaces false s) as [|t ts] eqn:E.
      * destruct Hin as [<-|[]]. simpl. now rewrite Ha.
      * destruct Hin as [<-|Hin].
        -- simpl. rewrite Ha. apply (IH Hs false). rewrite E. now left.
        -- apply (IH Hs false). rewrite E. now right.
Qed.

(** X21. The two hashtag operations agree on plain tags: on ASCII
    captions, a tag that [getTrendingHashtags] returns and that has no
    [%], [_] or backslash in it is counted at least once by
    [getHashtagCount]. *)
Theorem trending_tag_is_counted (n : Z) (s : Store) (rows : list Hashtag.t)
    (r : Hashtag.t) :
  ascii_captions s ->
  DatabaseStorage.getTrendingHashtags (Some n) s = Ok rows s ->
  In r rows ->
  PgLike.plain (Hashtag.tag r) = true ->
  exists k, getHashtagCount (Hashtag.tag r) s = Ok k s /\ 1 <= k.
Proof.
  intros Hascii Hrun Hr Hplain.
  rewrite getTrendingHashtags_eq in Hrun.
  destruct (max_bigint <? n); [discriminate|].
  destruct (n <? 0); [discriminate|]. injection Hrun as <-.
  apply in_map_iff in Hr. destruct Hr as ([t k] & <- & Hin). simpl in *.
  apply In_firstn in Hin. unfold ranking in Hin.
  apply orderBy_desc_In, group_count_In in Hin. destruct Hin as [Hin _].
  unfold hashtag_tokens in Hin. apply filter_In in Hin. destruct Hin as [Hin _].
  unfold all_tokens in Hin. apply in_flat_map in Hin.
  destruct Hin as (p & Hp & Htok).
  pose proof (split_ascii _ (Hascii p Hp) false t Htok) as Ht.
  apply split_piece_contained in Htok.
  eexists.
  split; [apply (getHashtagCount_plain_eq t s (ascii_text_no_nul t Ht) Hplain)|].
  unfold count.
  assert (In p (filter (fun q => PgLike.ci_contains t (Post.caption q)) (posts s)))
    by (apply filter_In; now split).
  destruct (filter _ (posts s)); [contradiction | simpl; lia].
Qed.

Lemma trending_tag_is_counted_witness :
  exists k, getHashtagCount "#cats" store_with_feed = Ok k store_with_feed /\
            1 <= k.
Proof.
  exact (trending_tag_is_counted 2 store_with_feed
           [Hashtag.mk "#cats" 2; Hashtag.mk "#dogs" 1] (Hashtag.mk "#cats" 2)
           ltac:(intros p [<-|[<-|[<-|[]]]]; reflexivity)
           eq_refl (or_introl eq_refl) eq_refl).
Defined.

(** ** Posts in the feed *)

(** X22. A post deleted by its owner is gone from the feed: when the posts
    with id [id] all belong to [userId], after [deletePost(id, userId)] no
    post with that id is in the answer of [GET /posts], whatever the page
    asked for. *)
Theorem deleted_post_not_listed
    (schema : PostInput.t -> option InsertPost.t) (now : Z)
    (req : Req.t) (id : Z) (userId : string) (s : Store) :
  (forall p, In p (posts s) -> Post.id p = id -> Post.userId p = userId) ->
  exists s',
    DatabaseStorage.deletePost id userId s = Ok tt s' /\
    forall l s2,
      registerRoutes storage schema now GET_posts req s' = Ok (json (JPosts l)) s2 ->
      forall pw, In pw l -> Post.id (PostWithData.post pw) <> id.
Proof.
  intros Hown. eexists. split; [reflexivity|].
  intros l s2 Hrun pw Hpw Hid.
  rewrite get_posts_eq in Hrun.
  destruct (_ || _)%bool; [discriminate|].
  injection Hrun as <- _.
  apply in_map_iff in Hpw. destruct Hpw as (p & <- & Hp).
  simpl PostWithData.post in Hid.
  apply listed_In in Hp. simpl posts in Hp.
  apply filter_In in Hp. destruct Hp as [Hin Hkeep].
  apply negb_true_iff, andb_false_iff in Hkeep.
  destruct Hkeep as [Hk|Hk].
  - apply Z.eqb_neq in Hk. contradiction.
  - apply String.eqb_neq in Hk. apply Hk. now apply Hown.
Qed.

Lemma deleted_post_not_listed_witness :
  exists s',
    DatabaseStorage.deletePost 2 "bob" store_with_feed = Ok tt s' /\
    forall l s2,
      app 5000 GET_posts (request_page "10" "0") s' = Ok (json (JPosts l)) s2 ->
      forall pw, In pw l -> Post.id (PostWithData.post pw) <> 2.
Proof.
  apply (deleted_post_not_listed insertPostSchema 5000 (request_page "10" "0")
           2 "bob" store_with_feed).
  simpl. intros p [<-|[<-|[<-|[]]]]; simpl; intros H; try discriminate H.
  reflexivity.
Defined.

Lemma orderBy_desc_newest {A} (key : A -> Z) (l : list A) (x : A) :
  (forall a, In a l -> key a < key x) ->
  orderBy_desc key (l ++ [x]) = x :: orderBy_desc key l.
Proof.
  induction l as [|a l IH]; intros H; simpl; [reflexivity|].
  rewrite IH by (intros b Hb; apply H; now right).
  simpl.
  assert (E : (key x <=? key a) = false)
    by (apply Z.leb_gt, H; now left).
  now rewrite E.
Qed.

(** X23. A new post heads the feed: after an authenticated [POST /posts]
    with an image and a body the schema accepts, at a time later than the
    creation of every stored post, [GET /posts] with offset 0 and a limit
    from 1 to 2^63 - 1 lists the new post first, followed by what the first
    [limit - 1] places held before. *)
Theorem new_post_heads_feed
    (schema : PostInput.t -> option InsertPost.t) (now later : Z)
    (req page_req : Req.t) (sub filename : string) (postData : InsertPost.t)
    (s : Store) :
  Req.user req = Some sub ->
  Req.file req = Some filename ->
  schema (post_input req sub filename) = Some postData ->
  (forall p, In p (posts s) -> Post.createdAt p < now) ->
  1 <= query_limit page_req <= max_bigint -> query_offset page_req = 0 ->
  exists s' rest,
    registerRoutes storage schema now POST_posts req s
      = Ok (json (JPost (new_post s now postData))) s' /\
    registerRoutes storage schema later GET_posts page_req s'
      = Ok (json (JPosts (enriched s' (new_post s now postData) :: rest))) s' /\
    map PostWithData.post rest = page s (query_limit page_req - 1) 0.
Proof.
  intros Hu Hfile Hschema Hnew Hlimit Hoffset.
  exists (bump_posts_id_seq
            (set_posts (fun t => t ++ [new_post s now postData]) s)).
  eexists.
  split.
  { unfold registerRoutes, route, isAuthenticated, post_posts, try_catch, bind,
      claims_sub, parse. rewrite Hu, Hfile. unfold ret. cbv beta iota.
    unfold post_input in Hschema. rewrite Hschema. reflexivity. }
  rewrite get_posts_eq, Hoffset.
  assert ((max_bigint <? query_limit page_req) = false) as ->
    by (apply Z.ltb_ge; unfold max_bigint, JS.max_exact in *; lia).
  change (max_bigint <? 0) with false. change (0 <? 0) with false.
  simpl orb. cbv iota.
  rewrite listed_page by lia.
  assert (Hpage : page (bump_posts_id_seq
                          (set_posts (fun t => t ++ [new_post s now postData]) s))
                       (query_limit page_req) 0
                  = new_post s now postData
                    :: page s (query_limit page_req - 1) 0).
  { unfold page. simpl posts. simpl skipn.
    rewrite orderBy_desc_newest by exact Hnew.
    replace (Z.to_nat (query_limit page_req))
      with (S (Z.to_nat (query_limit page_req - 1))) by lia.
    reflexivity. }
  rewrite Hpage. simpl map. split; [reflexivity|].
  apply map_post_enriched.
Qed.

Lemma new_post_heads_feed_witness :
  exists s' rest,
    app 9000 POST_posts request_hello_world store_with_feed
      = Ok (json (JPost (Post.mk 4 "alice" "hello #world" "/uploads/f3a9"
                                 None 9000))) s' /\
    app 9500 GET_posts (request_page "2" "0") s'
      = Ok (json (JPosts
              (enriched s' (Post.mk 4 "alice" "hello #world" "/uploads/f3a9"
                                    None 9000) :: rest))) s'.
Proof.
  destruct (new_post_heads_feed insertPostSchema 9000 9500 request_hello_world
              (request_page "2" "0") "alice" "f3a9"
              (InsertPost.mk "alice" "hello #world" "/uploads/f3a9" None)
              store_with_feed eq_refl eq_refl eq_refl)
    as (s' & rest & Hpost & Hget & _).
  - simpl. intros p [<-|[<-|[<-|[]]]]; simpl; lia.
  - vm_compute. split; discriminate.
  - reflexivity.
  - exists s', rest. split; [exact Hpost | exact Hget].
Defined.

(** ** Editing a profile *)

(** X24. [updateUserProfile(id, data)] returns the row [getUser] found for
    the id with the columns of [data] written over it and [updatedAt] set
    to the clock -- also when [data] names another [updatedAt].  For an id
    without a row it returns nothing and leaves the store as it was.  No
    table but users is touched. *)
Theorem updateUserProfile_effect (now : Z) (id : string) (data : PartialUser.t)
    (s : Store) :
  exists old r s',
    DatabaseStorage.getUser id s = Ok old s /\
    DatabaseStorage.updateUserProfile now id data s = Ok r s' /\
    r = option_map (DatabaseStorage.set_columns
                      (DatabaseStorage.with_updatedAt now data)) old /\
    (forall row, r = Some row -> carries data row /\ User.updatedAt row = now) /\
    set_users (fun _ => users s) s' = s /\
    (old = None -> s' = s).
Proof.
  exists (hd_error (filter (has_id id) (users s))).
  eexists. eexists.
  split; [apply getUser_eq|].
  split; [reflexivity|].
  split; [apply hd_map|].
  split.
  { intros row Hrow. rewrite hd_map in Hrow.
    destruct (hd_error _) as [old|]; [|discriminate].
    injection Hrow as <-. split; [|reflexivity].
    exact (set_columns_carries (DatabaseStorage.with_updatedAt now data) old). }
  split; [now destruct s|].
  intros Hnone.
  assert (Habs : existsb (has_id id) (users s) = false).
  { destruct (existsb (has_id id) (users s)) eqn:E; [|reflexivity].
    destruct (hd_filter_existsb _ _ E) as (a & Ha & _). congruence. }
  unfold set_users.
  change (fun u : User.t => String.eqb (User.id u) id) with (has_id id).
  rewrite (map_update_none _ _ _ Habs). now destruct s.
Qed.

(** ** Numbers in the query string *)

(** An integer written in decimal, as a client puts it in a query string. *)
Definition decimal (z : Z) : string :=
  DecimalString.NilZero.string_of_int (Z.to_int z).

Lemma digits_acc (l : Decimal.uint) :
  forall acc : positive,
    JS.digits 10 (Some (Zpos acc)) (DecimalString.NilEmpty.string_of_uint l)
    = Some (Zpos (Pos.of_uint_acc l acc)).
Proof.
  induction l; intros acc; cbn [DecimalString.NilEmpty.string_of_uint JS.digits];
    try reflexivity;
    change (JS.digit_value _) with (Some 0) || change (JS.digit_value _) with (Some 1)
    || change (JS.digit_value _) with (Some 2) || change (JS.digit_value _) with (Some 3)
    || change (JS.digit_value _) with (Some 4) || change (JS.digit_value _) with (Some 5)
    || change (JS.digit_value _) with (Some 6) || change (JS.digit_value _) with (Some 7)
    || change (JS.digit_value _) with (Some 8) || change (JS.digit_value _) with (Some 9);
    cbv iota beta; change (_ <? 10) with true; cbv iota;
    cbn [Pos.of_uint_acc]; rewrite <- IHl; do 2 f_equal; lia.
Qed.

Lemma digits_zero (l : Decimal.uint) :
  JS.digits 10 (Some 0) (DecimalString.NilEmpty.string_of_uint l)
  = Some (Z.of_N (Pos.of_uint l)).
Proof.
  induction l; cbn [DecimalString.NilEmpty.string_of_uint JS.digits Pos.of_uint];
    try reflexivity; try exact IHl; apply (digits_acc l).
Qed.

Lemma digits_start (l : Decimal.uint) :
  l <> Decimal.Nil ->
  JS.digits 10 None (DecimalString.NilEmpty.string_of_uint l)
  = Some (Z.of_N (Pos.of_uint l)).
Proof.
  destruct l; intros H; try congruence;
    cbn [DecimalString.NilEmpty.string_of_uint JS.digits Pos.of_uint];
    try apply (digits_zero l); apply (digits_acc l).
Qed.


Ltac read_digits d :=
  cbn -[JS.to_double];
  rewrite ?(digits_acc d), ?(digits_zero d);
  cbn -[JS.to_double];
  first [ reflexivity
        | now destruct (Z.of_N (Pos.of_uint d))
        | (do 2 f_equal; lia) ].

Lemma parseInt_uint (d : Decimal.uint) :
  JS.parseInt (Some (DecimalString.NilZero.string_of_uint d))
  = Some (JS.to_double (Z.of_uint d)).
Proof.
  unfold Z.of_uint.
  destruct d as [|d|d|d|d|d|d|d|d|d|d]; try reflexivity; try read_digits d.
  destruct d as [|d|d|d|d|d|d|d|d|d|d]; try reflexivity; read_digits d.
Qed.

Lemma parseInt_neg_uint (d : Decimal.uint) :
  JS.parseInt (Some (String "-" (DecimalString.NilZero.string_of_uint d)))
  = Some (JS.to_double (- Z.of_uint d)).
Proof.
  unfold Z.of_uint.
  destruct d as [|d|d|d|d|d|d|d|d|d|d]; try reflexivity; try read_digits d.
  destruct d as [|d|d|d|d|d|d|d|d|d|d]; try reflexivity; read_digits d.
Qed.

(** Above 2^53 the parsed number is the nearest double, ties to even. *)
Example parseInt_rounds :
  JS.parseInt (Some "9007199254740993"%string) = Some 9007199254740992 /\
  JS.parseInt (Some "9007199254740995"%string) = Some 9007199254740996.
Proof. split; reflexivity. Qed.

Lemma to_double_exact (z : Z) :
  - JS.max_exact <= z <= JS.max_exact -> JS.to_double z = z.
Proof.
  intros H. unfold JS.to_double.
  destruct (Z.leb_spec (Z.abs z) JS.max_exact); [reflexivity | lia].
Qed.

Lemma parseInt_decimal (z : Z) :
  - JS.max_exact <= z <= JS.max_exact ->
  JS.parseInt (Some (decimal z)) = Some z.
Proof.
  intros H. unfold decimal.
  rewrite <- (to_double_exact z H) at 2.
  rewrite <- (DecimalZ.of_to z) at 2.
  destruct (Z.to_int z) as [d|d]; simpl DecimalString.NilZero.string_of_int.
  - apply parseInt_uint.
  - apply parseInt_neg_uint.
Qed.

(** X25. A limit and an offset written in decimal are taken at their
    value as long as a number of the language holds them exactly: for
    every 1 <= n <= 2^53 and 0 <= k <= 2^53, [GET /posts?limit=n&offset=k]
    answers 200 with the posts in descending order of creation time,
    without the first k and cut after n -- at most n posts. *)
Theorem decimal_limit_is_honoured
    (schema : PostInput.t -> option InsertPost.t) (now : Z)
    (req : Req.t) (s : Store) (n k : Z) :
  Req.field "limit" (Req.query req) = Some (decimal n) ->
  Req.field "offset" (Req.query req) = Some (decimal k) ->
  1 <= n <= JS.max_exact -> 0 <= k <= JS.max_exact ->
  exists l,
    registerRoutes storage schema now GET_posts req s = Ok (json (JPosts l)) s /\
    map PostWithData.post l = page s n k /\
    Z.of_nat (List.length l) <= n /\
    descending Post.createdAt (map PostWithData.post l).
Proof.
  intros Hl Ho Hn Hk.
  assert (El : query_limit req = n).
  { unfold query_limit. rewrite Hl, parseInt_decimal by (unfold JS.max_exact in *; lia).
    unfold JS.or_number. destruct (Z.eqb_spec n 0); [lia | reflexivity]. }
  assert (Eo : query_offset req = k).
  { unfold query_offset. rewrite Ho, parseInt_decimal by (unfold JS.max_exact in *; lia).
    unfold JS.or_number. destruct (Z.eqb_spec k 0); congruence. }
  exists (map (enriched s) (page s n k)).
  rewrite get_posts_eq, El, Eo.
  unfold JS.max_exact in Hn, Hk. unfold max_bigint.
  destruct (Z.ltb_spec 9223372036854775807 n) as [?|_]; [lia|].
  destruct (Z.ltb_spec 9223372036854775807 k) as [?|_]; [lia|].
  destruct (Z.ltb_spec k 0) as [?|_]; [lia|].
  cbn [orb]. rewrite listed_page by lia.
  rewrite map_post_enriched, length_map.
  split; [reflexivity|]. split; [reflexivity|].
  split; [apply page_length; lia | apply page_descending].
Qed.

Lemma decimal_limit_is_honoured_witness :
  exists l,
    app 5000 GET_posts (request_page (decimal 2) (decimal 1)) store_with_feed
      = Ok (json (JPosts l)) store_with_feed /\
    Z.of_nat (List.length l) <= 2.
Proof.
  destruct (decimal_limit_is_honoured insertPostSchema 5000
              (request_page (decimal 2) (decimal 1)) store_with_feed 2 1
              eq_refl eq_refl ltac:(vm_compute; split; discriminate)
              ltac:(vm_compute; split; discriminate))
    as (l & Hrun & _ & Hlen & _).
  exists l. split; [exact Hrun | exact Hlen].
Defined.
